(** * FHIR pipeline: the ETL normalisation layer

    A shallow embedding of [src/parse_fhir.py] (value extractors and the five
    resource parsers) and of [src/load_database.py] (schema, load, verify and
    the orchestrating [main]), with the properties of the specification
    stated over it.

    Python values are the values [json.load] produces.  Exceptions are
    explicit: a computation returns [Ok v] or [Raise e]. *)

From Stdlib Require Import List String Ascii ZArith Lia Bool Arith PeanoNat.
From Stdlib Require Import DecimalString Permutation.
From Stdlib Require Import Floats.SpecFloat.
From Stdlib Require DecimalNat.
Import ListNotations.

Open Scope string_scope.
Open Scope list_scope.

(** ** Python values and the operations the code applies to them *)

Module Py.

(** What [json.load] returns: [None], [bool], [int], [float], [str], [list]
    and [dict].  A dict is an association list in insertion order whose
    lookup takes the first binding of a key; strings are sequences of 8-bit
    characters. *)
#[local] Set Warnings "-register-all".
Inductive json : Type :=
| JNull
| JBool (b : bool)
| JInt (z : Z)
| JFloat (f : spec_float)
| JStr (s : string)
| JList (l : list json)
| JObj (kvs : list (string * json)).

(** The exceptions the code can meet; all are subclasses of [Exception]. *)
Inductive exn : Type :=
| AttributeError
| TypeError
| IndexError
| KeyError
| OSError
| JSONDecodeError
| IntegrityError (msg : string)
| OperationalError (msg : string)
| InterfaceError
| OverflowError
| PyException (msg : string).

Inductive res (A : Type) : Type :=
| Ok (a : A)
| Raise (e : exn).
Arguments Ok {A} a.
Arguments Raise {A} e.

Definition res_bind {A B} (r : res A) (k : A -> res B) : res B :=
  match r with
  | Ok a => k a
  | Raise e => Raise e
  end.

Definition raises {A} (r : res A) : bool :=
  match r with
  | Ok _ => false
  | Raise _ => true
  end.

Fixpoint assoc (k : string) (kvs : list (string * json)) : option json :=
  match kvs with
  | [] => None
  | (k', v) :: rest => if String.eqb k k' then Some v else assoc k rest
  end.

(** [not x] is [negb (truthy x)]. *)
Definition truthy (v : json) : bool :=
  match v with
  | JNull => false
  | JBool b => b
  | JInt z => negb (Z.eqb z 0)
  | JFloat (S754_zero _) => false
  | JFloat _ => true
  | JStr s => negb (String.eqb s "")
  | JList l => match l with [] => false | _ => true end
  | JObj kvs => match kvs with [] => false | _ => true end
  end.

(** [d.get(k, default)]: only a dict has [get]. *)
Definition get (d : json) (k : string) (default : json) : res json :=
  match d with
  | JObj kvs => Ok (match assoc k kvs with Some v => v | None => default end)
  | _ => Raise AttributeError
  end.

(** [d[k]] with a string key. *)
Definition getitem (d : json) (k : string) : res json :=
  match d with
  | JObj kvs => match assoc k kvs with Some v => Ok v | None => Raise KeyError end
  | _ => Raise TypeError
  end.

(** [v == s] and [v != s] against a string literal. *)
Definition eq_str (v : json) (s : string) : bool :=
  match v with
  | JStr s' => String.eqb s' s
  | _ => false
  end.

Fixpoint substring_of (needle hay : string) : bool :=
  prefix needle hay ||
  match hay with
  | EmptyString => false
  | String _ hay' => substring_of needle hay'
  end.

(** [needle in v] for a string literal [needle]: substring of a str, element
    of a list, key of a dict; a [TypeError] on anything else. *)
Definition contains (needle : string) (v : json) : res bool :=
  match v with
  | JStr s => Ok (substring_of needle s)
  | JList l => Ok (existsb (fun x => eq_str x needle) l)
  | JObj kvs => Ok (match assoc needle kvs with Some _ => true | None => false end)
  | _ => Raise TypeError
  end.

(** [s.split(sep)] for a non-empty [sep]: left-to-right, non-overlapping.
    [skip] counts the characters of a matched separator still to drop. *)
Fixpoint split_go (sep : string) (skip : nat) (cur s : string) : list string :=
  match s with
  | EmptyString => [cur]
  | String c s' =>
      match skip with
      | S k => split_go sep k cur s'
      | O =>
          if prefix sep s
          then cur :: split_go sep (String.length sep - 1) "" s'
          else split_go sep 0 (cur ++ String c "") s'
      end
  end.

Definition str_split (s sep : string) : list string := split_go sep 0 "" s.

(** [v.split(sep)[-1]]: only a str has [split]; the result is never empty. *)
Definition split_last (v : json) (sep : string) : res json :=
  match v with
  | JStr s => Ok (JStr (last (str_split s sep) ""))
  | _ => Raise AttributeError
  end.

(** A [str] is held as its UTF-8 encoding, and Python indexes, measures and
    iterates it per code point: a lead byte with the continuation bytes
    (10xxxxxx) that follow it. *)
Definition is_continuation (c : ascii) : bool :=
  match c with
  | Ascii _ _ _ _ _ _ false true => true
  | _ => false
  end.

Definition starts_continuation (s : string) : bool :=
  match s with
  | String c _ => is_continuation c
  | EmptyString => false
  end.

Fixpoint code_points (s : string) : list string :=
  match s with
  | EmptyString => []
  | String c s' =>
      let rest := code_points s' in
      if starts_continuation s'
      then match rest with
           | g :: gs => String c g :: gs
           | [] => [String c ""]
           end
      else String c "" :: rest
  end.

Definition chars (s : string) : list json := map JStr (code_points s).

Definition len (v : json) : res Z :=
  match v with
  | JStr s => Ok (Z.of_nat (List.length (chars s)))
  | JList l => Ok (Z.of_nat (List.length l))
  | JObj kvs => Ok (Z.of_nat (List.length kvs))
  | _ => Raise TypeError
  end.

(** [seq[i]] on a sequence of length [n]: negative indices count from the
    end, anything outside [-n, n) raises [IndexError]. *)
Definition seq_index (l : list json) (i : Z) : res json :=
  let n := Z.of_nat (List.length l) in
  let j := if (i <? 0)%Z then (n + i)%Z else i in
  if ((0 <=? j) && (j <? n))%Z
  then match nth_error l (Z.to_nat j) with
       | Some v => Ok v
       | None => Raise IndexError
       end
  else Raise IndexError.

(** [v[i]] with an integer index.  A dict decoded from JSON has string keys
    only, so an integer subscript is a [KeyError]. *)
Definition index (v : json) (i : Z) : res json :=
  match v with
  | JList l => seq_index l i
  | JStr s => seq_index (chars s) i
  | JObj _ => Raise KeyError
  | _ => Raise TypeError
  end.

(** [for x in v]: the elements of a list, the characters of a str, the keys
    of a dict. *)
Definition iter (v : json) : res (list json) :=
  match v with
  | JList l => Ok l
  | JStr s => Ok (chars s)
  | JObj kvs => Ok (map (fun kv => JStr (fst kv)) kvs)
  | _ => Raise TypeError
  end.

Definition str_of_nat (n : nat) : string := NilEmpty.string_of_uint (Nat.to_uint n).
Definition str_of_Z (z : Z) : string := NilZero.string_of_int (Z.to_int z).

End Py.
Import Py.

Notation "x <- c ;; k" := (res_bind c (fun x => k))
  (at level 61, c at next level, right associativity).
Notation "' p <- c ;; k" := (res_bind c (fun x => match x with p => k end))
  (at level 61, p pattern, c at next level, right associativity).

(** ** Value extractors of [parse_fhir.py] *)

Definition extract_reference_id (reference_dict : json) : res json :=
  if negb (truthy reference_dict) then Ok JNull else
  reference <- get reference_dict "reference" (JStr "") ;;
  is_urn <- contains "urn:uuid:" reference ;;
  if is_urn then split_last reference "urn:uuid:" else
  has_slash <- contains "/" reference ;;
  if has_slash then split_last reference "/" else
  Ok reference.

Definition safe_get_coding (codeable_concept : json) (index : Z) : res (json * json) :=
  if negb (truthy codeable_concept) then Ok (JNull, JNull) else
  coding_list <- get codeable_concept "coding" (JList []) ;;
  if negb (truthy coding_list) then Ok (JNull, JNull) else
  n <- len coding_list ;;
  if (n <=? index)%Z then Ok (JNull, JNull) else
  coding <- Py.index coding_list index ;;
  code <- get coding "code" JNull ;;
  display <- get coding "display" JNull ;;
  Ok (code, display).

(** The inner loop of [extract_race] and [extract_ethnicity]: [Some v] is
    the [return] inside the loop, [None] is falling off its end. *)
Fixpoint inner_text (inner_extensions : list json) : res (option json) :=
  match inner_extensions with
  | [] => Ok None
  | inner_ext :: rest =>
      url <- get inner_ext "url" JNull ;;
      if eq_str url "text"
      then v <- get inner_ext "valueString" JNull ;; Ok (Some v)
      else inner_text rest
  end.

Fixpoint extension_text (marker : string) (extensions : list json) : res json :=
  match extensions with
  | [] => Ok JNull
  | ext :: rest =>
      url <- get ext "url" (JStr "") ;;
      hit <- contains marker url ;;
      if hit
      then
        inner_extensions <- get ext "extension" (JList []) ;;
        items <- iter inner_extensions ;;
        found <- inner_text items ;;
        match found with
        | Some v => Ok v
        | None => extension_text marker rest
        end
      else extension_text marker rest
  end.

Definition extract_race (patient_resource : json) : res json :=
  extensions <- get patient_resource "extension" (JList []) ;;
  items <- iter extensions ;;
  extension_text "us-core-race" items.

Definition extract_ethnicity (patient_resource : json) : res json :=
  extensions <- get patient_resource "extension" (JList []) ;;
  items <- iter extensions ;;
  extension_text "us-core-ethnicity" items.

(** ** Computations with a store and exceptions

    [M S A] is a computation over a mutable store [S] that returns an [A] or
    raises.  A raise keeps the store as it was at that point: what was
    appended to a list before the exception stays appended. *)

Definition M (S A : Type) : Type := S -> res A * S.

Definition ret {S A} (a : A) : M S A := fun s => (Ok a, s).

Definition bind {S A B} (m : M S A) (k : A -> M S B) : M S B :=
  fun s =>
    match m s with
    | (Ok a, s') => k a s'
    | (Raise e, s') => (Raise e, s')
    end.

Definition lift {S A} (r : res A) : M S A := fun s => (r, s).

Definition throw {S A} (e : exn) : M S A := fun s => (Raise e, s).

(** [try: body  except Exception as e: handler e] *)
Definition try_except {S A} (body : M S A) (handler : exn -> M S A) : M S A :=
  fun s =>
    match body s with
    | (Ok a, s') => (Ok a, s')
    | (Raise e, s') => handler e s'
    end.

(** [try: body  finally: cleanup], for a cleanup that does not raise. *)
Definition try_finally {S A} (body : M S A) (cleanup : S -> S) : M S A :=
  fun s => let '(r, s') := body s in (r, cleanup s').

Notation "x <~ c ;; k" := (bind c (fun x => k))
  (at level 61, c at next level, right associativity).
Notation "' p <~ c ;; k" := (bind c (fun x => match x with p => k end))
  (at level 61, p pattern, c at next level, right associativity).
Notation "c >> k" := (bind c (fun _ => k))
  (at level 61, right associativity).

(** ** Resource parsers of [parse_fhir.py] *)

(** A flat record is the dict literal the parser appends; a DataFrame is the
    list of records it was built from. *)
Definition row : Type := list (string * json).
Definition dataframe : Type := list row.

(** The cell of a record under a column, NULL when the key is missing. *)
Definition cell (r : row) (k : string) : json :=
  match assoc k r with
  | Some v => v
  | None => JNull
  end.

Inductive line : Type :=
| Progress (what : string) (i n : nat)
| ParseError (what : string) (file_path : string) (e : exn).

Definition is_error (l : line) : bool :=
  match l with
  | ParseError _ _ _ => true
  | Progress _ _ _ => false
  end.

Record pstate : Type := { records : dataframe; stdout : list line }.

Definition records_append (r : row) : M pstate unit :=
  fun st => (Ok tt, {| records := records st ++ [r]; stdout := stdout st |}).

Definition print (l : line) : M pstate unit :=
  fun st => (Ok tt, {| records := records st; stdout := stdout st ++ [l] |}).

(** How the body of a [for] loop ends: it falls through or hits [continue]
    ([Continue]), or it hits [break]. *)
Inductive control : Type := Continue | Break.

Fixpoint for_entries (body : json -> M pstate control) (entries : list json)
  : M pstate unit :=
  match entries with
  | [] => ret tt
  | entry :: rest =>
      c <~ body entry ;;
      match c with
      | Break => ret tt
      | Continue => for_entries body rest
      end
  end.

Section Environment.

(** [str()] of a float, a list or a dict, which Python takes from [repr]. *)
Variable py_repr : json -> string.

(** [open(file_path)] followed by [json.load]: the decoded document, or the
    exception of an unreadable or malformed file. *)
Variable read_json : string -> res json.

Definition py_str (v : json) : string :=
  match v with
  | JNull => "None"
  | JBool true => "True"
  | JBool false => "False"
  | JInt z => str_of_Z z
  | JStr s => s
  | _ => py_repr v
  end.

(** The [try] block of every parser: load the bundle and run the entry loop. *)
Definition file_body (entry_body : json -> M pstate control) (file_path : string)
  : M pstate unit :=
  bundle <~ lift (read_json file_path) ;;
  entries <~ lift (get bundle "entry" (JList [])) ;;
  items <~ lift (iter entries) ;;
  for_entries entry_body items.

(** [for i, file_path in enumerate(file_paths, 1)] with the progress line
    every 50 files and the per-file [try]/[except]. *)
Fixpoint for_files (what : string) (total : nat)
    (entry_body : json -> M pstate control) (i : nat) (file_paths : list string)
  : M pstate unit :=
  match file_paths with
  | [] => ret tt
  | file_path :: rest =>
      (if Nat.eqb (i mod 50) 0 then print (Progress what i total) else ret tt) >>
      try_except (file_body entry_body file_path)
                 (fun e => print (ParseError what file_path e)) >>
      for_files what total entry_body (S i) rest
  end.

(** A parser starts from [records = []] and returns [pd.DataFrame(records)];
    only the printed lines outlive it. *)
Definition parser (what : string) (entry_body : json -> M pstate control)
    (file_paths : list string) : M (list line) dataframe :=
  fun out =>
    let '(r, st) := for_files what (List.length file_paths) entry_body 1 file_paths
                      {| records := []; stdout := out |} in
    (match r with Ok _ => Ok (records st) | Raise e => Raise e end, stdout st).

(** *** Patients *)

Definition patient_record (resource : json) : res row :=
  name_list <- get resource "name" (JList [JObj []]) ;;
  name <- (if truthy name_list then Py.index name_list 0 else Ok (JObj [])) ;;
  given <- get name "given" (JList [JStr ""]) ;;
  given_name <- Py.index given 0 ;;
  family_name <- get name "family" (JStr "") ;;
  address_list <- get resource "address" (JList [JObj []]) ;;
  address <- (if truthy address_list then Py.index address_list 0 else Ok (JObj [])) ;;
  id <- get resource "id" JNull ;;
  gender <- get resource "gender" JNull ;;
  birth_date <- get resource "birthDate" JNull ;;
  race <- extract_race resource ;;
  ethnicity <- extract_ethnicity resource ;;
  city <- get address "city" JNull ;;
  state <- get address "state" JNull ;;
  Ok [("id", id); ("given_name", given_name); ("family_name", family_name);
      ("gender", gender); ("birth_date", birth_date); ("race", race);
      ("ethnicity", ethnicity); ("city", city); ("state", state)].

Definition patient_entry (entry : json) : M pstate control :=
  resource <~ lift (get entry "resource" (JObj [])) ;;
  resource_type <~ lift (get resource "resourceType" JNull) ;;
  if negb (eq_str resource_type "Patient") then ret Continue else
  r <~ lift (patient_record resource) ;;
  records_append r >>
  ret Break.

Definition parse_patients : list string -> M (list line) dataframe :=
  parser "patients" patient_entry.

(** *** Conditions *)

Definition condition_record (resource : json) : res row :=
  concept <- get resource "code" JNull ;;
  '(code, display) <- safe_get_coding concept 0 ;;
  status <- get resource "clinicalStatus" JNull ;;
  '(clinical_status_code, _) <- safe_get_coding status 0 ;;
  id <- get resource "id" JNull ;;
  subject <- get resource "subject" JNull ;;
  patient_id <- extract_reference_id subject ;;
  onset_date <- get resource "onsetDateTime" JNull ;;
  Ok [("id", id); ("patient_id", patient_id); ("code", code);
      ("display", display); ("clinical_status", clinical_status_code);
      ("onset_date", onset_date)].

Definition condition_entry (entry : json) : M pstate control :=
  resource <~ lift (get entry "resource" (JObj [])) ;;
  resource_type <~ lift (get resource "resourceType" JNull) ;;
  if negb (eq_str resource_type "Condition") then ret Continue else
  r <~ lift (condition_record resource) ;;
  records_append r >>
  ret Continue.

Definition parse_conditions : list string -> M (list line) dataframe :=
  parser "conditions" condition_entry.

(** *** Observations *)

(** The record shared by the three single-record shapes. *)
Definition observation_record (resource code display value unit category_code : json)
  : res row :=
  id <- get resource "id" JNull ;;
  subject <- get resource "subject" JNull ;;
  patient_id <- extract_reference_id subject ;;
  effective_date <- get resource "effectiveDateTime" JNull ;;
  Ok [("id", id); ("patient_id", patient_id); ("code", code);
      ("display", display); ("value", value); ("unit", unit);
      ("effective_date", effective_date); ("category", category_code)].

(** What a component contributes: its own code and display, and the value
    and unit of its [valueQuantity] when it has one. *)
Definition component_fields (comp : json) : res (json * json * json * json) :=
  comp_concept <- get comp "code" JNull ;;
  '(comp_code, comp_display) <- safe_get_coding comp_concept 0 ;;
  has_quantity <- contains "valueQuantity" comp ;;
  if has_quantity
  then comp_value_qty <- getitem comp "valueQuantity" ;;
       comp_value <- get comp_value_qty "value" JNull ;;
       comp_unit <- get comp_value_qty "unit" JNull ;;
       Ok (comp_code, comp_display, comp_value, comp_unit)
  else Ok (comp_code, comp_display, JNull, JNull).

(** The record of one component, the body of the [enumerate] loop. *)
Definition component_record (resource category_code : json) (idx : nat) (comp : json)
  : res row :=
  '(comp_code, comp_display, comp_value, comp_unit) <- component_fields comp ;;
  id <- get resource "id" JNull ;;
  subject <- get resource "subject" JNull ;;
  patient_id <- extract_reference_id subject ;;
  effective_date <- get resource "effectiveDateTime" JNull ;;
  Ok [("id", JStr (py_str id ++ "-" ++ str_of_nat idx)); ("patient_id", patient_id);
      ("code", comp_code); ("display", comp_display); ("value", comp_value);
      ("unit", comp_unit); ("effective_date", effective_date);
      ("category", category_code)].

Fixpoint for_components (resource category_code : json) (idx : nat)
    (components : list json) : M pstate unit :=
  match components with
  | [] => ret tt
  | comp :: rest =>
      r <~ lift (component_record resource category_code idx comp) ;;
      records_append r >>
      for_components resource category_code (S idx) rest
  end.

(** Code, display and category, extracted before the value shape is looked
    at. *)
Definition observation_head (resource : json) : res (json * json * json) :=
  concept <- get resource "code" JNull ;;
  '(code, display) <- safe_get_coding concept 0 ;;
  category_list <- get resource "category" (JList []) ;;
  if truthy category_list
  then first <- Py.index category_list 0 ;;
       '(category_code, _) <- safe_get_coding first 0 ;;
       Ok (code, display, category_code)
  else Ok (code, display, JNull).

(** The part of the loop body after the resource-type filter. *)
Definition observation_resource (resource : json) : M pstate control :=
  ' (code, display, category_code) <~ lift (observation_head resource) ;;
  has_quantity <~ lift (contains "valueQuantity" resource) ;;
  if has_quantity then
    value_qty <~ lift (getitem resource "valueQuantity") ;;
    value <~ lift (get value_qty "value" JNull) ;;
    unit <~ lift (get value_qty "unit" JNull) ;;
    r <~ lift (observation_record resource code display value unit category_code) ;;
    records_append r >> ret Continue
  else
  has_concept <~ lift (contains "valueCodeableConcept" resource) ;;
  if has_concept then
    value_concept <~ lift (getitem resource "valueCodeableConcept") ;;
    ' (_, value) <~ lift (safe_get_coding value_concept 0) ;;
    r <~ lift (observation_record resource code display value JNull category_code) ;;
    records_append r >> ret Continue
  else
  has_component <~ lift (contains "component" resource) ;;
  if has_component then
    components <~ lift (get resource "component" (JList [])) ;;
    items <~ lift (iter components) ;;
    for_components resource category_code 0 items >>
    ret Continue
  else
    r <~ lift (observation_record resource code display JNull JNull category_code) ;;
    records_append r >> ret Continue.

Definition observation_entry (entry : json) : M pstate control :=
  resource <~ lift (get entry "resource" (JObj [])) ;;
  resource_type <~ lift (get resource "resourceType" JNull) ;;
  if negb (eq_str resource_type "Observation") then ret Continue else
  observation_resource resource.

Definition parse_observations : list string -> M (list line) dataframe :=
  parser "observations" observation_entry.

(** *** Encounters *)

Definition encounter_record (resource : json) : res row :=
  class <- get resource "class" (JObj []) ;;
  encounter_class <- get class "code" JNull ;;
  type_list <- get resource "type" (JList []) ;;
  type_display <-
    (if truthy type_list
     then first <- Py.index type_list 0 ;;
          '(_, d) <- safe_get_coding first 0 ;;
          Ok d
     else Ok JNull) ;;
  period <- get resource "period" (JObj []) ;;
  id <- get resource "id" JNull ;;
  subject <- get resource "subject" JNull ;;
  patient_id <- extract_reference_id subject ;;
  start_date <- get period "start" JNull ;;
  end_date <- get period "end" JNull ;;
  Ok [("id", id); ("patient_id", patient_id); ("encounter_class", encounter_class);
      ("type_display", type_display); ("start_date", start_date);
      ("end_date", end_date)].

Definition encounter_entry (entry : json) : M pstate control :=
  resource <~ lift (get entry "resource" (JObj [])) ;;
  resource_type <~ lift (get resource "resourceType" JNull) ;;
  if negb (eq_str resource_type "Encounter") then ret Continue else
  r <~ lift (encounter_record resource) ;;
  records_append r >>
  ret Continue.

Definition parse_encounters : list string -> M (list line) dataframe :=
  parser "encounters" encounter_entry.

(** *** Medication requests *)

Definition medication_request_record (resource : json) : res row :=
  concept <- get resource "medicationCodeableConcept" JNull ;;
  '(med_code, med_display) <- safe_get_coding concept 0 ;;
  id <- get resource "id" JNull ;;
  subject <- get resource "subject" JNull ;;
  patient_id <- extract_reference_id subject ;;
  authored_on <- get resource "authoredOn" JNull ;;
  status <- get resource "status" JNull ;;
  Ok [("id", id); ("patient_id", patient_id); ("medication_code", med_code);
      ("medication_display", med_display); ("authored_on", authored_on);
      ("status", status)].

Definition medication_request_entry (entry : json) : M pstate control :=
  resource <~ lift (get entry "resource" (JObj [])) ;;
  resource_type <~ lift (get resource "resourceType" JNull) ;;
  if negb (eq_str resource_type "MedicationRequest") then ret Continue else
  r <~ lift (medication_request_record resource) ;;
  records_append r >>
  ret Continue.

Definition parse_medication_requests : list string -> M (list line) dataframe :=
  parser "medication requests" medication_request_entry.

(** *** [main] of [parse_fhir.py] *)

(** What [glob] finds under [data/raw/fhir/*.json]. *)
Variable glob_fhir : list string.

Record dataframes : Type := {
  df_patients : dataframe;
  df_conditions : dataframe;
  df_observations : dataframe;
  df_encounters : dataframe;
  df_medication_requests : dataframe
}.

(** The banner lines of [main] are not kept, only what the parsers print. *)
Definition parse_fhir_data : M (list line) dataframes :=
  let file_paths := glob_fhir in
  patients_df <~ parse_patients file_paths ;;
  conditions_df <~ parse_conditions file_paths ;;
  observations_df <~ parse_observations file_paths ;;
  encounters_df <~ parse_encounters file_paths ;;
  medication_requests_df <~ parse_medication_requests file_paths ;;
  ret {| df_patients := patients_df;
         df_conditions := conditions_df;
         df_observations := observations_df;
         df_encounters := encounters_df;
         df_medication_requests := medication_requests_df |}.

(** ** The relational store of [load_database.py]

    The SQLite file and the [sqlite3] connection, as far as the loader uses
    them.  A cell is stored as the value the parser produced and identifiers
    are compared as values.  Every column of the schema is [TEXT], so SQLite
    keeps the text of a number and compares identifiers as text, and pandas
    may turn the integers of a column into floats: the model and the store
    agree on rows whose identifier and patient reference are strings or
    NULL ([conforming_row] below), and the statements about which frames are
    accepted are made for such rows. *)

Inductive table_name : Type :=
| patients | conditions | observations | encounters | medication_requests.

Definition tables : list table_name :=
  [patients; conditions; observations; encounters; medication_requests].

Definition is_child (t : table_name) : bool :=
  match t with
  | patients => false
  | _ => true
  end.

Definition frame (dfs : dataframes) (t : table_name) : dataframe :=
  match t with
  | patients => df_patients dfs
  | conditions => df_conditions dfs
  | observations => df_observations dfs
  | encounters => df_encounters dfs
  | medication_requests => df_medication_requests dfs
  end.

(** A table that exists.  [declared] tells who created it: [create_tables],
    with [id TEXT PRIMARY KEY] and, for a child, [patient_id TEXT NOT NULL]
    and the foreign key to [patients(id)]; or [to_sql], which creates a
    missing table from the frame's columns without any constraint. *)
Record table : Type := { declared : bool; rows : list row }.

Record database : Type := {
  t_patients : option table;
  t_conditions : option table;
  t_observations : option table;
  t_encounters : option table;
  t_medication_requests : option table;
  indexes : list string
}.

Definition empty_database : database :=
  {| t_patients := None; t_conditions := None; t_observations := None;
     t_encounters := None; t_medication_requests := None; indexes := [] |}.

Definition table_of (db : database) (t : table_name) : option table :=
  match t with
  | patients => t_patients db
  | conditions => t_conditions db
  | observations => t_observations db
  | encounters => t_encounters db
  | medication_requests => t_medication_requests db
  end.

Definition set_table (db : database) (t : table_name) (x : table) : database :=
  match t with
  | patients =>
      {| t_patients := Some x; t_conditions := t_conditions db;
         t_observations := t_observations db; t_encounters := t_encounters db;
         t_medication_requests := t_medication_requests db; indexes := indexes db |}
  | conditions =>
      {| t_patients := t_patients db; t_conditions := Some x;
         t_observations := t_observations db; t_encounters := t_encounters db;
         t_medication_requests := t_medication_requests db; indexes := indexes db |}
  | observations =>
      {| t_patients := t_patients db; t_conditions := t_conditions db;
         t_observations := Some x; t_encounters := t_encounters db;
         t_medication_requests := t_medication_requests db; indexes := indexes db |}
  | encounters =>
      {| t_patients := t_patients db; t_conditions := t_conditions db;
         t_observations := t_observations db; t_encounters := Some x;
         t_medication_requests := t_medication_requests db; indexes := indexes db |}
  | medication_requests =>
      {| t_patients := t_patients db; t_conditions := t_conditions db;
         t_observations := t_observations db; t_encounters := t_encounters db;
         t_medication_requests := Some x; indexes := indexes db |}
  end.

Definition rows_of (db : database) (t : table_name) : list row :=
  match table_of db t with
  | Some x => rows x
  | None => []
  end.

(** The statements a connection has executed, oldest first (a ghost log). *)
Inductive event : Type :=
| Inserted (t : table_name) (r : row)
| Committed
| RolledBack.

(** A [sqlite3] connection in Python's default transaction mode: [file] is
    the committed content of the database file, [tx] the view inside the
    open transaction if there is one, [foreign_keys] the per-connection
    pragma. *)
Record connection : Type := {
  file : database;
  tx : option database;
  foreign_keys : bool;
  history : list event
}.

Definition current (conn : connection) : database :=
  match tx conn with
  | Some db => db
  | None => file conn
  end.

(** [conn.commit()] and [conn.rollback()]. *)
Definition commit : M connection unit :=
  fun conn =>
    (Ok tt, {| file := current conn; tx := None;
               foreign_keys := foreign_keys conn;
               history := history conn ++ [Committed] |}).

Definition rollback : M connection unit :=
  fun conn =>
    (Ok tt, {| file := file conn; tx := None;
               foreign_keys := foreign_keys conn;
               history := history conn ++ [RolledBack] |}).

(** A schema statement ([CREATE TABLE], [CREATE INDEX]) does not open a
    transaction: outside one it changes the file at once. *)
Definition ddl (f : database -> database) : M connection unit :=
  fun conn =>
    (Ok tt,
     match tx conn with
     | Some db => {| file := file conn; tx := Some (f db);
                     foreign_keys := foreign_keys conn; history := history conn |}
     | None => {| file := f (file conn); tx := None;
                  foreign_keys := foreign_keys conn; history := history conn |}
     end).

(** [PRAGMA foreign_keys = ON] is a no-op inside a transaction. *)
Definition pragma_foreign_keys_on : M connection unit :=
  fun conn =>
    (Ok tt,
     match tx conn with
     | Some _ => conn
     | None => {| file := file conn; tx := None; foreign_keys := true;
                  history := history conn |}
     end).

Definition create_table_if_not_exists (t : table_name) : M connection unit :=
  ddl (fun db =>
         match table_of db t with
         | Some _ => db
         | None => set_table db t {| declared := true; rows := [] |}
         end).

Definition is_null (v : json) : bool :=
  match v with
  | JNull => true
  | _ => false
  end.

(** [sqlite3] binds [None], numbers and strings, each as the parser produced
    it.  A list or a dict is an unsupported parameter type ([InterfaceError];
    [ProgrammingError] since Python 3.11), and an integer outside 64 bits
    cannot be converted to an SQLite INTEGER ([OverflowError]). *)
Definition in_int64 (z : Z) : bool :=
  ((- 2 ^ 63 <=? z) && (z <? 2 ^ 63))%Z.

Definition bindable (v : json) : bool :=
  match v with
  | JList _ | JObj _ => false
  | JInt z => in_int64 z
  | _ => true
  end.

(** The parameters of a row are bound in order: the error is that of the
    first cell that cannot be bound. *)
Fixpoint bind_error (r : row) : option exn :=
  match r with
  | [] => None
  | kv :: rest =>
      match snd kv with
      | JList _ | JObj _ => Some InterfaceError
      | JInt z => if in_int64 z then bind_error rest else Some OverflowError
      | _ => bind_error rest
      end
  end.

Definition spec_float_eqb (a b : spec_float) : bool :=
  match a, b with
  | S754_zero s, S754_zero s' => Bool.eqb s s'
  | S754_infinity s, S754_infinity s' => Bool.eqb s s'
  | S754_nan, S754_nan => true
  | S754_finite s m e, S754_finite s' m' e' =>
      Bool.eqb s s' && Pos.eqb m m' && Z.eqb e e'
  | _, _ => false
  end.

(** Equality of two key cells; NULL equals nothing. *)
Definition same_key (a b : json) : bool :=
  match a, b with
  | JBool x, JBool y => Bool.eqb x y
  | JInt x, JInt y => Z.eqb x y
  | JFloat x, JFloat y => spec_float_eqb x y
  | JStr x, JStr y => String.eqb x y
  | _, _ => false
  end.

Definition has_key (k : json) (rs : list row) : bool :=
  existsb (fun r => same_key (cell r "id") k) rs.

(** One [INSERT] into table [t] of [db]: the statement is prepared (the
    table must exist), the row is bound, and the constraints of
    [create_tables] are checked: NOT NULL, then the primary key, then the
    foreign key (checked when the pragma is on). *)
Definition insert_row (fk : bool) (db : database) (t : table_name) (r : row)
  : res database :=
  match table_of db t with
  | None => Raise (OperationalError "no such table")
  | Some x =>
      match bind_error r with
      | Some e => Raise e
      | None =>
      let db' := set_table db t {| declared := declared x; rows := rows x ++ [r] |} in
      if negb (declared x) then Ok db' else
      if is_child t && is_null (cell r "patient_id")
      then Raise (IntegrityError "NOT NULL constraint failed") else
      if has_key (cell r "id") (rows x)
      then Raise (IntegrityError "UNIQUE constraint failed") else
      if is_child t && fk
      then match table_of db patients with
           | None => Raise (OperationalError "no such table")
           | Some p =>
               if negb (declared p)
               then Raise (OperationalError "foreign key mismatch") else
               if has_key (cell r "patient_id") (rows p)
               then Ok db'
               else Raise (IntegrityError "FOREIGN KEY constraint failed")
           end
      else Ok db'
      end
  end.

(** [cursor.execute("INSERT ...")]: the statement opens a transaction if
    none is open; when it fails the transaction stays open, without the row. *)
Definition execute_insert (t : table_name) (r : row) : M connection unit :=
  fun conn =>
    match insert_row (foreign_keys conn) (current conn) t r with
    | Ok db' =>
        (Ok tt, {| file := file conn; tx := Some db';
                   foreign_keys := foreign_keys conn;
                   history := history conn ++ [Inserted t r] |})
    | Raise e =>
        (Raise e, {| file := file conn; tx := Some (current conn);
                     foreign_keys := foreign_keys conn;
                     history := history conn |})
    end.

Fixpoint executemany (t : table_name) (data_list : list row) : M connection unit :=
  match data_list with
  | [] => ret tt
  | r :: rest => execute_insert t r >> executemany t rest
  end.

(** pandas runs every statement batch of [to_sql] on a [sqlite3] connection
    inside its own transaction ([SQLiteDatabase.run_transaction] of
    [pandas.io.sql]): commit when the batch succeeds, rollback and re-raise
    when it does not. *)
Definition run_transaction (body : M connection unit) : M connection unit :=
  try_except (body >> commit) (fun e => rollback >> throw e).

(** [df.to_sql(name, conn, if_exists='append', index=False)].  A missing
    table is created from the frame's columns (a frame without rows has no
    columns, and SQLite refuses a table without columns); a frame without
    rows inserts nothing and opens no transaction. *)
Definition to_sql (df : dataframe) (name : table_name) : M connection unit :=
  (fun conn =>
     match table_of (current conn) name with
     | Some _ => ret tt conn
     | None =>
         run_transaction
           (match df with
            | [] => throw (OperationalError "syntax error")
            | _ => ddl (fun db => set_table db name {| declared := false; rows := [] |})
            end) conn
     end) >>
  match df with
  | [] => ret tt
  | _ => run_transaction (executemany name df)
  end.

(** *** [create_tables] and [create_indexes] *)

(** The columns [create_tables] declares, all of them [TEXT]. *)
Definition columns_of (t : table_name) : list string :=
  match t with
  | patients =>
      ["id"; "given_name"; "family_name"; "gender"; "birth_date"; "race";
       "ethnicity"; "city"; "state"]
  | conditions =>
      ["id"; "patient_id"; "code"; "display"; "clinical_status"; "onset_date"]
  | observations =>
      ["id"; "patient_id"; "code"; "display"; "value"; "unit"; "effective_date";
       "category"]
  | encounters =>
      ["id"; "patient_id"; "encounter_class"; "type_display"; "start_date";
       "end_date"]
  | medication_requests =>
      ["id"; "patient_id"; "medication_code"; "medication_display"; "authored_on";
       "status"]
  end.

Definition create_tables : M connection unit :=
  pragma_foreign_keys_on >>
  create_table_if_not_exists patients >>
  create_table_if_not_exists conditions >>
  create_table_if_not_exists observations >>
  create_table_if_not_exists encounters >>
  create_table_if_not_exists medication_requests >>
  commit.

(** The columns of a table: those of its declaration or, for a table that
    [to_sql] created, those of the frame, which the model reads off the keys
    of its rows (such a table left without rows is taken to have none). *)
Definition has_column (t : table_name) (x : table) (column : string) : bool :=
  if declared x
  then existsb (String.eqb column) (columns_of t)
  else existsb (fun r => match assoc column r with Some _ => true | None => false end)
               (rows x).

(** [CREATE INDEX IF NOT EXISTS name ON t(column)]: SQLite resolves the
    table, then looks for the index name, then for the column. *)
Definition create_index_if_not_exists (name : string) (t : table_name)
    (column : string) : M connection unit :=
  fun conn =>
    match table_of (current conn) t with
    | None => throw (OperationalError "no such table") conn
    | Some x =>
        if existsb (String.eqb name) (indexes (current conn)) then ret tt conn else
        if negb (has_column t x column)
        then throw (OperationalError "no such column") conn else
        ddl (fun db =>
               {| t_patients := t_patients db; t_conditions := t_conditions db;
                  t_observations := t_observations db;
                  t_encounters := t_encounters db;
                  t_medication_requests := t_medication_requests db;
                  indexes := indexes db ++ [name] |}) conn
    end.

Definition create_indexes : M connection unit :=
  create_index_if_not_exists "idx_conditions_patient_id" conditions "patient_id" >>
  create_index_if_not_exists "idx_observations_patient_id" observations "patient_id" >>
  create_index_if_not_exists "idx_encounters_patient_id" encounters "patient_id" >>
  create_index_if_not_exists "idx_medication_requests_patient_id" medication_requests
    "patient_id" >>
  create_index_if_not_exists "idx_observations_code" observations "code" >>
  create_index_if_not_exists "idx_observations_category" observations "category" >>
  create_index_if_not_exists "idx_conditions_code" conditions "code" >>
  create_index_if_not_exists "idx_encounters_class" encounters "encounter_class" >>
  commit.

(** *** [load_data] *)

Definition load_data (dfs : dataframes) : M connection unit :=
  try_except
    (to_sql (df_patients dfs) patients >>
     to_sql (df_conditions dfs) conditions >>
     to_sql (df_observations dfs) observations >>
     to_sql (df_encounters dfs) encounters >>
     to_sql (df_medication_requests dfs) medication_requests >>
     commit)
    (fun e => rollback >> throw e).

(** *** [verify_load] *)

(** [SELECT COUNT( * ) FROM table] *)
Definition select_count (t : table_name) : M connection nat :=
  fun conn =>
    match table_of (current conn) t with
    | Some x => (Ok (List.length (rows x)), conn)
    | None => (Raise (OperationalError "no such table"), conn)
    end.

Fixpoint count_check (dfs : dataframes) (ts : list table_name) (all_match : bool)
  : M connection bool :=
  match ts with
  | [] => ret all_match
  | t :: rest =>
      db_count <~ select_count t ;;
      let df_count := List.length (frame dfs t) in
      if Nat.eqb db_count df_count
      then count_check dfs rest all_match
      else count_check dfs rest false
  end.

(** The five-table query: [patients] left-joined with the four child tables,
    grouped by patient id, at most five groups.  A left join keeps every
    patient row, so the result is empty exactly when [patients] is. *)
Definition select_sample : M connection (list row) :=
  fun conn =>
    let db := current conn in
    match table_of db patients, table_of db conditions, table_of db observations,
          table_of db encounters, table_of db medication_requests with
    | Some p, Some _, Some _, Some _, Some _ => (Ok (firstn 5 (rows p)), conn)
    | _, _, _, _, _ => (Raise (OperationalError "no such table"), conn)
    end.

Definition verify_load (dfs : dataframes) : M connection unit :=
  all_match <~ count_check dfs tables true ;;
  if negb all_match then throw (PyException "Row count mismatch detected!") else
  results <~ select_sample ;;
  match results with
  | _ :: _ => ret tt
  | [] => throw (PyException "Foreign key relationship test failed!")
  end.

(** *** [main] of [load_database.py] *)

(** What outlives a run: the file at [data/fhir_data.db], if there is one,
    and what was printed. *)
Record world : Type := { db_file : option database; console : list line }.

(** [sqlite3.connect(db_path)]: the connection sees the file at the path,
    an empty database when there is none. *)
Definition connect (f : option database) : connection :=
  {| file := match f with Some db => db | None => empty_database end;
     tx := None; foreign_keys := false; history := [] |}.

Definition connect_new : connection := connect None.

(** [if os.path.exists(db_path): os.remove(db_path)] *)
Definition remove_existing (w : world) : world :=
  match db_file w with
  | Some _ => {| db_file := None; console := console w |}
  | None => w
  end.

(** [conn.close()]: an open transaction is dropped. *)
Definition close (conn : connection) : connection :=
  {| file := file conn; tx := None; foreign_keys := foreign_keys conn;
     history := history conn |}.

(** Steps 3 to 6 of [main], inside its [try]; the handler prints and
    re-raises, the [finally] closes the connection. *)
Definition build (dfs : dataframes) : M connection unit :=
  try_finally
    (try_except
       (create_tables >>
        load_data dfs >>
        create_indexes >>
        verify_load dfs)
       (fun e => throw e))
    close.

(** The existing file is removed, the documents are parsed, the database is
    built through a connection to the path.  Of what [main] prints only the
    parsers' lines are kept; the summary queries after a successful
    verification only read. *)
Definition main : M world unit :=
  fun w0 =>
    let w := remove_existing w0 in
    match parse_fhir_data (console w) with
    | (Raise e, out) => (Raise e, {| db_file := db_file w; console := out |})
    | (Ok dfs, out) =>
        let '(r, conn) := build dfs (connect (db_file w)) in
        (r, {| db_file := Some (file conn); console := out |})
    end.

(** ** Vocabulary of the properties *)

(** A nested extension that stops short of a value: it has no [url], or no
    [valueString]. *)
Definition inner_truncated (inner_ext : json) : bool :=
  match inner_ext with
  | JObj e =>
      match assoc "url" e, assoc "valueString" e with
      | None, _ => true
      | Some _, None => true
      | Some _, Some _ => false
      end
  | _ => false
  end.

(** A top-level extension that stops short of a value: it has no [url], or
    no nested [extension], or only truncated nested extensions. *)
Definition ext_truncated (ext : json) : bool :=
  match ext with
  | JObj e =>
      match assoc "url" e with
      | None => true
      | Some (JStr _) =>
          match assoc "extension" e with
          | None => true
          | Some (JList inner) => forallb inner_truncated inner
          | Some _ => false
          end
      | Some _ => false
      end
  | _ => false
  end.

(** The coding list of a codeable concept: [l] when the concept holds one,
    the empty list when it has none. *)
Definition coding_list_of (kvs : list (string * json)) (l : list json) : Prop :=
  assoc "coding" kvs = Some (JList l) \/ (assoc "coding" kvs = None /\ l = []).

(** An entry the parser of resource type [rtype] passes over: a mapping
    whose resource, the empty mapping when it has none, is of another type. *)
Definition skipped_by (rtype : string) (entry : json) : bool :=
  match entry with
  | JObj ekvs =>
      match assoc "resource" ekvs with
      | None => true
      | Some (JObj kvs) => negb (eq_str (cell kvs "resourceType") rtype)
      | Some _ => false
      end
  | _ => false
  end.

(** The subject document of the concrete scenario and the record expected
    from it. *)
Definition jane_doe_bundle : json :=
  JObj [("resourceType", JStr "Bundle");
        ("entry",
         JList [JObj [("resource",
           JObj [("resourceType", JStr "Patient");
                 ("name", JList [JObj [("given", JList [JStr "Jane"]);
                                       ("family", JStr "Doe")]]);
                 ("gender", JStr "female");
                 ("birthDate", JStr "1980-01-01")])]])].

Definition jane_doe_row : row :=
  [("id", JNull); ("given_name", JStr "Jane"); ("family_name", JStr "Doe");
   ("gender", JStr "female"); ("birth_date", JStr "1980-01-01");
   ("race", JNull); ("ethnicity", JNull); ("city", JNull); ("state", JNull)].

(** *** Sample documents *)

(** A stand-in for [repr] where no float, list or dict is formatted. *)
Definition no_repr (v : json) : string := "".

(** A coding entry that names its system only. *)
Definition system_only_concept : json :=
  JObj [("coding", JList [JObj [("system", JStr "http://loinc.org")]])].

Definition systolic : json :=
  JObj [("code", JObj [("coding", JList [JObj [("code", JStr "8480-6");
                                              ("display", JStr "Systolic")]])]);
        ("valueQuantity", JObj [("value", JInt 120); ("unit", JStr "mmHg")])].

Definition diastolic : json :=
  JObj [("code", JObj [("coding", JList [JObj [("code", JStr "8462-4");
                                              ("display", JStr "Diastolic")]])]);
        ("valueQuantity", JObj [("value", JInt 80); ("unit", JStr "mmHg")])].

(** The blood-pressure panel of the concrete scenario: parent "obs-1" with
    two components. *)
Definition blood_pressure : list (string * json) :=
  [("resourceType", JStr "Observation"); ("id", JStr "obs-1");
   ("subject", JObj [("reference", JStr "urn:uuid:p1")]);
   ("effectiveDateTime", JStr "2020-03-01");
   ("component", JList [systolic; diastolic])].


Definition patient_p1 : json :=
  JObj [("resource", JObj [("resourceType", JStr "Patient"); ("id", JStr "p1")])].

Definition blood_pressure_bundle : json :=
  JObj [("entry", JList [patient_p1; JObj [("resource", JObj blood_pressure)]])].

(** A bundle whose condition has no subject. *)
Definition orphan_bundle : json :=
  JObj [("entry",
         JList [patient_p1;
                JObj [("resource", JObj [("resourceType", JStr "Condition");
                                         ("id", JStr "c1")])]])].

Definition sample_files (file_path : string) : res json :=
  if String.eqb file_path "jane.json" then Ok jane_doe_bundle else
  if String.eqb file_path "bp.json" then Ok blood_pressure_bundle else
  if String.eqb file_path "orphan.json" then Ok orphan_bundle else
  Raise OSError.

Definition p1_row : row :=
  [("id", JStr "p1"); ("given_name", JStr ""); ("family_name", JStr "");
   ("gender", JNull); ("birth_date", JNull); ("race", JNull);
   ("ethnicity", JNull); ("city", JNull); ("state", JNull)].

Definition no_world : world := {| db_file := None; console := [] |}.

(** What one document contributes to a parser: the run of the [try] block
    on an empty record list. *)
Definition file_run (entry_body : json -> M pstate control) (file_path : string)
  : res unit * pstate :=
  file_body entry_body file_path {| records := []; stdout := [] |}.

Definition file_fails (entry_body : json -> M pstate control) (file_path : string)
  : bool :=
  raises (fst (file_run entry_body file_path)).

Definition file_records (entry_body : json -> M pstate control) (file_path : string)
  : dataframe :=
  records (snd (file_run entry_body file_path)).

(** The lines a parser prints over [file_paths], counted from [i]: the
    progress line every 50 files and one error line per failing document. *)
Fixpoint file_log (what : string) (total : nat)
    (entry_body : json -> M pstate control) (i : nat) (file_paths : list string)
  : list line :=
  match file_paths with
  | [] => []
  | file_path :: rest =>
      (if Nat.eqb (i mod 50) 0 then [Progress what i total] else []) ++
      match fst (file_run entry_body file_path) with
      | Raise e => [ParseError what file_path e]
      | Ok _ => []
      end ++
      file_log what total entry_body (S i) rest
  end.

(** Partial-failure tolerance of a parser with loop body [entry_body]: over
    any batch it returns, its records are those of the documents in order,
    and it prints one error line per failing document. *)
Definition partial_failure_tolerant (entry_body : json -> M pstate control)
    (parse : list string -> M (list line) dataframe) : Prop :=
  forall file_paths out, exists log,
    parse file_paths out =
      (Ok (flat_map (file_records entry_body) file_paths), out ++ log) /\
    List.length (filter is_error log) =
      List.length (filter (file_fails entry_body) file_paths).

(** The store after [rs] was appended to its records. *)
Definition appended (st : pstate) (rs : list row) : pstate :=
  {| records := records st ++ rs; stdout := stdout st |}.

(** A computation that only appends records: its outcome and what it appends
    do not depend on the store it starts from, and it prints nothing. *)
Definition framed {A} (m : M pstate A) : Prop :=
  forall st,
    m st = (fst (m {| records := []; stdout := [] |}),
            {| records := records st ++ records (snd (m {| records := []; stdout := [] |}));
               stdout := stdout st |}).

(** The rows a trace inserted into [patients], in order. *)
Fixpoint patient_inserts (tr : list event) : list row :=
  match tr with
  | [] => []
  | Inserted patients r :: rest => r :: patient_inserts rest
  | _ :: rest => patient_inserts rest
  end.

(** A trace whose inserts all go into table [t]. *)
Definition inserts_only (t : table_name) (tr : list event) : Prop :=
  forall t' r, In (Inserted t' r) tr -> t' = t.

(** A computation that executes no insert into [patients]. *)
Definition quiet_on_patients {A} (m : M connection A) : Prop :=
  forall conn, exists tr,
    history (snd (m conn)) = history conn ++ tr /\ patient_inserts tr = [].

(** The [to_sql] calls of [load_data] over the tables [ts], in order,
    followed by [k]. *)
Fixpoint load_seq (dfs : dataframes) (ts : list table_name)
    (k : M connection unit) : M connection unit :=
  match ts with
  | [] => k
  | t :: rest => to_sql (frame dfs t) t >> load_seq dfs rest k
  end.

(** The frames [parse_fhir_data] returns: every parser's records over the
    files [glob] found. *)
Definition parsed_frames : dataframes :=
  {| df_patients := flat_map (file_records patient_entry) glob_fhir;
     df_conditions := flat_map (file_records condition_entry) glob_fhir;
     df_observations := flat_map (file_records observation_entry) glob_fhir;
     df_encounters := flat_map (file_records encounter_entry) glob_fhir;
     df_medication_requests :=
       flat_map (file_records medication_request_entry) glob_fhir |}.

Definition index_names : list string :=
  ["idx_conditions_patient_id"; "idx_observations_patient_id";
   "idx_encounters_patient_id"; "idx_medication_requests_patient_id";
   "idx_observations_code"; "idx_observations_category";
   "idx_conditions_code"; "idx_encounters_class"].

(** The database file once schema, load and indexes went through: the five
    declared tables, each holding its frame, and the eight indexes. *)
Definition built_database (dfs : dataframes) : database :=
  {| t_patients := Some {| declared := true; rows := df_patients dfs |};
     t_conditions := Some {| declared := true; rows := df_conditions dfs |};
     t_observations := Some {| declared := true; rows := df_observations dfs |};
     t_encounters := Some {| declared := true; rows := df_encounters dfs |};
     t_medication_requests :=
       Some {| declared := true; rows := df_medication_requests dfs |};
     indexes := index_names |}.

(** The five row counts of [verify_load] agree with the frames. *)
Definition counts_match (dfs : dataframes) (db : database) : bool :=
  forallb (fun t => Nat.eqb (List.length (rows_of db t)) (List.length (frame dfs t)))
          tables.

(** What [verify_load] answers on a database: the mismatch error, the
    empty-join error, or success. *)
Definition verdict (dfs : dataframes) (db : database) : res unit :=
  if negb (counts_match dfs db)
  then Raise (PyException "Row count mismatch detected!")
  else match rows_of db patients with
       | [] => Raise (PyException "Foreign key relationship test failed!")
       | _ :: _ => Ok tt
       end.

(** The connection [main] loads through: a new one, after [create_tables]. *)
Definition fresh_schema : connection := snd (create_tables connect_new).

(** The inserts of one batch on a database, without the connection around
    them. *)
Fixpoint insert_all (fk : bool) (db : database) (t : table_name) (data_list : list row)
  : res database :=
  match data_list with
  | [] => Ok db
  | r :: rest => db' <- insert_row fk db t r ;; insert_all fk db' t rest
  end.

(** Two stores with the same content, up to the order of the rows in each
    table. *)
Definition table_equiv (x y : option table) : Prop :=
  match x, y with
  | Some a, Some b => declared a = declared b /\ Permutation (rows a) (rows b)
  | None, None => True
  | _, _ => False
  end.

Definition db_equiv (d1 d2 : database) : Prop :=
  indexes d1 = indexes d2 /\
  forall t, table_equiv (table_of d1 t) (table_of d2 t).

Definition store_equiv (f1 f2 : option database) : Prop :=
  match f1, f2 with
  | Some a, Some b => db_equiv a b
  | None, None => True
  | _, _ => False
  end.

Definition frames_equiv (dfs1 dfs2 : dataframes) : Prop :=
  forall t, Permutation (frame dfs1 t) (frame dfs2 t).

(** The connection after [commit] and after [rollback]. *)
Definition committed (conn : connection) : connection := snd (commit conn).
Definition rolled_back (conn : connection) : connection := snd (rollback conn).

(** A table with [rs] added to its rows. *)
Definition with_rows (x : table) (rs : list row) : table :=
  {| declared := declared x; rows := rows x ++ rs |}.

(** A connection as [create_tables] leaves it, for table [t]: no open
    transaction and [t] declared with its constraints. *)
Definition declared_in (conn : connection) (t : table_name) : bool :=
  match tx conn, table_of (file conn) t with
  | None, Some x => declared x
  | _, _ => false
  end.



(** *** Vocabulary of the further properties *)

(** A top-level extension the search for [marker] passes over: a mapping
    without a [url], or with a string [url] that does not hold the marker. *)
Definition other_extension (marker : string) (ext : json) : bool :=
  match ext with
  | JObj e =>
      match assoc "url" e with
      | None => true
      | Some (JStr u) => negb (substring_of marker u)
      | Some _ => false
      end
  | _ => false
  end.

(** A nested extension that is not the "text" one. *)
Definition not_text (inner_ext : json) : bool :=
  match inner_ext with
  | JObj e => negb (eq_str (cell e "url") "text")
  | _ => false
  end.

(** The resource of an entry when it is of type [rtype]. *)
Definition typed_resource (rtype : string) (entry : json) : option json :=
  match entry with
  | JObj ekvs =>
      match assoc "resource" ekvs with
      | Some (JObj kvs) =>
          if eq_str (cell kvs "resourceType") rtype then Some (JObj kvs) else None
      | _ => None
      end
  | _ => None
  end.

Definition is_typed (rtype : string) (entry : json) : bool :=
  match typed_resource rtype entry with
  | Some _ => true
  | None => false
  end.

(** What an entry gives a parser that appends [record] of every resource of
    type [rtype]: nothing when it is passed over, the record when it is of
    the type and the record can be built; [None] when the entry makes the
    parser raise. *)
Definition entry_rows (rtype : string) (record : json -> res row) (entry : json)
  : option (list row) :=
  if skipped_by rtype entry then Some [] else
  match typed_resource rtype entry with
  | Some resource =>
      match record resource with
      | Ok r => Some [r]
      | Raise _ => None
      end
  | None => None
  end.

Definition entry_passes (rtype : string) (record : json -> res row) (entry : json)
  : bool :=
  match entry_rows rtype record entry with
  | Some _ => true
  | None => false
  end.

Definition rows_of_entry (rtype : string) (record : json -> res row) (entry : json)
  : list row :=
  match entry_rows rtype record entry with
  | Some rs => rs
  | None => []
  end.

(** A parser that yields one record per entry of its type: on a document
    whose entries all pass, it does not fail, its records are those of the
    entries of the type, in order, and there is one per such entry. *)
Definition one_record_per_entry (rtype : string) (record : json -> res row)
    (entry_body : json -> M pstate control) : Prop :=
  forall file_path bkvs entries,
    read_json file_path = Ok (JObj bkvs) ->
    assoc "entry" bkvs = Some (JList entries) ->
    forallb (entry_passes rtype record) entries = true ->
    file_fails entry_body file_path = false /\
    file_records entry_body file_path = flat_map (rows_of_entry rtype record) entries /\
    List.length (file_records entry_body file_path) =
      List.length (filter (is_typed rtype) entries).

(** A parser that keeps what it appended before a failure: when a resource
    of its type cannot be turned into a record, the document fails and the
    records of the entries before it stay. *)
Definition keeps_records_before_failure (rtype : string) (record : json -> res row)
    (entry_body : json -> M pstate control) : Prop :=
  forall file_path bkvs pre bad post resource e,
    read_json file_path = Ok (JObj bkvs) ->
    assoc "entry" bkvs = Some (JList (pre ++ bad :: post)) ->
    forallb (entry_passes rtype record) pre = true ->
    typed_resource rtype bad = Some resource ->
    record resource = Raise e ->
    fst (file_run entry_body file_path) = Raise e /\
    file_records entry_body file_path = flat_map (rows_of_entry rtype record) pre.

(** A parser whose records over a batch are those of its parts, in order. *)
Definition splits_over_batches (parse : list string -> M (list line) dataframe)
  : Prop :=
  forall l1 l2 out, exists df1 df2 out1 out2 out3,
    parse l1 out = (Ok df1, out1) /\
    parse l2 out = (Ok df2, out2) /\
    parse (l1 ++ l2) out = (Ok (df1 ++ df2), out3).

(** The shape shared by the condition, encounter and medication-request
    loop bodies: pass over another type, append the record of the own type. *)
Definition single_record_body (rtype : string) (record : json -> res row)
    (entry_body : json -> M pstate control) : Prop :=
  (forall entry st, skipped_by rtype entry = true ->
                    entry_body entry st = (Ok Continue, st)) /\
  (forall entry resource st,
     typed_resource rtype entry = Some resource ->
     entry_body entry st =
       match record resource with
       | Ok r => (Ok Continue, appended st [r])
       | Raise e => (Raise e, st)
       end).

(** [CREATE INDEX IF NOT EXISTS name] on a database that has the table. *)
Definition with_index (name : string) (db : database) : database :=
  if existsb (String.eqb name) (indexes db) then db else
  {| t_patients := t_patients db; t_conditions := t_conditions db;
     t_observations := t_observations db; t_encounters := t_encounters db;
     t_medication_requests := t_medication_requests db;
     indexes := indexes db ++ [name] |}.

(** No two rows share a non-null identifier. *)
Fixpoint unique_ids (rs : list row) : bool :=
  match rs with
  | [] => true
  | r :: rest => negb (has_key (cell r "id") rest) && unique_ids rest
  end.

(** Every row of table [t] refers to the identifier of a patient row (a
    null reference matches none). *)
Definition references_resolve (db : database) (t : table_name) : bool :=
  forallb (fun r => has_key (cell r "patient_id") (rows_of db patients))
          (rows_of db t).

Definition consistent (db : database) : bool :=
  forallb (fun t => unique_ids (rows_of db t)) tables &&
  forallb (references_resolve db)
          [conditions; observations; encounters; medication_requests].

(** A database whose five tables are declared with their constraints and
    whose rows satisfy them. *)
Definition sound (db : database) : Prop :=
  (forall t, exists x, table_of db t = Some x /\ declared x = true) /\
  consistent db = true.


(** The file after the frames of the tables [ts] were appended to them. *)
Definition loaded (dfs : dataframes) (ts : list table_name) (db : database) : database :=
  fold_left (fun db t =>
               match table_of db t with
               | Some x => set_table db t (with_rows x (frame dfs t))
               | None => db
               end) ts db.

Definition children : list table_name :=
  [conditions; observations; encounters; medication_requests].

(** [load_data] in two parts: the load of the parent table, and what
    follows it inside the [try]: the four child loads, the last commit and
    the handler. *)
Definition parent_load (dfs : dataframes) : M connection unit :=
  to_sql (df_patients dfs) patients.

Definition child_loads (dfs : dataframes) : M connection unit :=
  try_except (load_seq dfs children commit) (fun e => rollback >> throw e).

(** A row that a table declared by [create_tables] takes under foreign-key
    enforcement, [existing] being its rows and [parents] those of
    [patients]: every cell can be bound, a child row has a patient
    reference, no row has its identifier, and the reference of a child row
    is the identifier of a patient. *)
Definition accepted (t : table_name) (parents existing : list row) (r : row) : bool :=
  forallb (fun kv => bindable (snd kv)) r &&
  negb (is_child t && is_null (cell r "patient_id")) &&
  negb (has_key (cell r "id") existing) &&
  (negb (is_child t) || has_key (cell r "patient_id") parents).




(** A cell of text: a string or NULL. *)
Definition textual (v : json) : bool :=
  match v with
  | JStr _ | JNull => true
  | _ => false
  end.

(** A row as the parsers build it for table [t] from a document whose
    identifiers are strings: its keys are columns of the table, its
    identifier and its patient reference are strings or missing, and its
    integers fit 64 bits.  On such rows the store of this model and SQLite
    behind pandas accept and refuse alike. *)
Definition conforming_row (t : table_name) (r : row) : bool :=
  forallb (fun kv => existsb (String.eqb (fst kv)) (columns_of t)) r &&
  textual (cell r "id") && textual (cell r "patient_id") &&
  forallb (fun kv => match snd kv with JInt z => in_int64 z | _ => true end) r.

Definition conforming (dfs : dataframes) : bool :=
  forallb (fun t => forallb (conforming_row t) (frame dfs t)) tables.

Definition conforming_store (db : database) : bool :=
  forallb (fun t => forallb (conforming_row t) (rows_of db t)) tables.

(** The identifier and the patient reference of a row. *)
Definition key_cells (r : row) : json * json :=
  (cell r "id", cell r "patient_id").

(** The error lines the five parsers print over the files [glob] found. *)
Definition failing_documents : nat :=
  List.length (filter (file_fails patient_entry) glob_fhir) +
  List.length (filter (file_fails condition_entry) glob_fhir) +
  List.length (filter (file_fails observation_entry) glob_fhir) +
  List.length (filter (file_fails encounter_entry) glob_fhir) +
  List.length (filter (file_fails medication_request_entry) glob_fhir).


(** *** Sample inputs of the further properties *)

Definition two_codings : list (string * json) :=
  [("coding", JList [JObj [("code", JStr "a")];
                     JObj [("code", JStr "b"); ("display", JStr "B")]])].

Definition race_extension : list (string * json) :=
  [("url", JStr "http://hl7.org/fhir/us/core/StructureDefinition/us-core-race");
   ("extension", JList [JObj [("url", JStr "ombCategory")];
                        JObj [("url", JStr "text"); ("valueString", JStr "White")]])].

Definition patient_with_race : list (string * json) :=
  [("resourceType", JStr "Patient");
   ("extension", JList [JObj [("url", JStr "http://example.org/other")];
                        JObj race_extension])].

(** A reader whose every document holds a patient with a number for a name. *)
Definition broken_files (file_path : string) : res json :=
  Ok (JObj [("entry",
             JList [JObj [("resource", JObj [("resourceType", JStr "Patient");
                                             ("name", JList [JInt 1])])]])]).


(** A panel whose second component is not a mapping. *)
Definition broken_panel : list (string * json) :=
  [("resourceType", JStr "Observation"); ("id", JStr "obs-3");
   ("subject", JObj [("reference", JStr "urn:uuid:p1")]);
   ("component", JList [systolic; JStr "oops"; diastolic])].


(** ** The value extractors *)

Lemma inner_text_truncated (inner : list json) :
  forallb inner_truncated inner = true ->
  inner_text inner = Ok None \/ inner_text inner = Ok (Some JNull).
Proof.
  induction inner as [|x rest IH]; simpl; intros H; [now left|].
  apply andb_prop in H as [Hx Hrest].
  destruct x as [| | | | | |e]; simpl in Hx; try discriminate.
  simpl. destruct (assoc "url" e) as [u|] eqn:Hu.
  - destruct (assoc "valueString" e) eqn:Hv; [discriminate|].
    destruct (eq_str u "text"); simpl; [now right | now apply IH].
  - simpl. now apply IH.
Qed.

Lemma extension_text_truncated (marker : string) (exts : list json) :
  substring_of marker "" = false ->
  forallb ext_truncated exts = true ->
  extension_text marker exts = Ok JNull.
Proof.
  intros Hm.
  induction exts as [|x rest IH]; simpl; intros H; [reflexivity|].
  apply andb_prop in H as [Hx Hrest].
  destruct x as [| | | | | |e]; simpl in Hx; try discriminate.
  simpl. destruct (assoc "url" e) as [u|] eqn:Hu.
  - destruct u as [| | | |s| |]; try discriminate.
    simpl. destruct (substring_of marker s); [|now apply IH].
    destruct (assoc "extension" e) as [inner|] eqn:Hi.
    + destruct inner as [| | | | |inner|]; try discriminate.
      simpl. destruct (inner_text_truncated inner Hx) as [-> | ->]; simpl;
        [now apply IH | reflexivity].
    + simpl. now apply IH.
  - simpl. simpl in Hm. rewrite Hm. now apply IH.
Qed.

Lemma safe_get_coding_absent (kvs : list (string * json)) (i : Z) :
  assoc "coding" kvs = None -> safe_get_coding (JObj kvs) i = Ok (JNull, JNull).
Proof.
  intros Hk. unfold safe_get_coding.
  destruct (negb (truthy (JObj kvs))); [reflexivity|].
  unfold get. rewrite Hk. reflexivity.
Qed.

Lemma safe_get_coding_nil (kvs : list (string * json)) (i : Z) :
  assoc "coding" kvs = Some (JList []) ->
  safe_get_coding (JObj kvs) i = Ok (JNull, JNull).
Proof.
  intros Hk. unfold safe_get_coding.
  destruct (negb (truthy (JObj kvs))); [reflexivity|].
  unfold get. rewrite Hk. reflexivity.
Qed.

(** On a non-empty coding list the resolver is the length test followed by
    the subscript. *)
Lemma safe_get_coding_cons (kvs : list (string * json)) (x : json) (l : list json)
    (i : Z) :
  assoc "coding" kvs = Some (JList (x :: l)) ->
  safe_get_coding (JObj kvs) i =
    if (Z.of_nat (List.length (x :: l)) <=? i)%Z then Ok (JNull, JNull) else
    coding <- seq_index (x :: l) i ;;
    code <- get coding "code" JNull ;;
    display <- get coding "display" JNull ;;
    Ok (code, display).
Proof.
  intros Hk. unfold safe_get_coding.
  destruct kvs as [|kv kvs']; [discriminate|].
  cbn [truthy negb]. unfold get at 1. rewrite Hk. reflexivity.
Qed.

Lemma seq_index_nth (l : list json) (i : Z) :
  (0 <= i < Z.of_nat (List.length l))%Z ->
  seq_index l i =
    match nth_error l (Z.to_nat i) with
    | Some v => Ok v
    | None => Raise IndexError
    end.
Proof.
  intros [H0 H1]. unfold seq_index.
  replace (i <? 0)%Z with false by (symmetry; apply Z.ltb_ge; lia).
  replace ((0 <=? i)%Z && (i <? Z.of_nat (List.length l))%Z) with true; [reflexivity|].
  symmetry. apply andb_true_intro. split; [apply Z.leb_le | apply Z.ltb_lt]; lia.
Qed.

Lemma safe_get_coding_short (kvs : list (string * json)) (l : list json) (i : Z) :
  assoc "coding" kvs = Some (JList l) ->
  (Z.of_nat (List.length l) <= i)%Z ->
  safe_get_coding (JObj kvs) i = Ok (JNull, JNull).
Proof.
  intros Hk Hlen. destruct l as [|x l].
  - now apply safe_get_coding_nil.
  - rewrite (safe_get_coding_cons _ _ _ _ Hk).
    apply Z.leb_le in Hlen. now rewrite Hlen.
Qed.

(** With an entry at the index, the resolver returns that entry's code and
    display cells. *)
Lemma safe_get_coding_entry (kvs : list (string * json)) (l : list json) (i : Z)
    (e : list (string * json)) :
  assoc "coding" kvs = Some (JList l) ->
  (0 <= i)%Z ->
  nth_error l (Z.to_nat i) = Some (JObj e) ->
  safe_get_coding (JObj kvs) i = Ok (cell e "code", cell e "display").
Proof.
  intros Hk Hi Hnth.
  assert (Hlt : (Z.to_nat i < List.length l)%nat)
    by (apply nth_error_Some; congruence).
  destruct l as [|x l]; [simpl in Hlt; lia|].
  rewrite (safe_get_coding_cons _ _ _ _ Hk).
  replace (Z.of_nat (List.length (x :: l)) <=? i)%Z with false
    by (symmetry; apply Z.leb_gt; lia).
  rewrite seq_index_nth by lia. rewrite Hnth. reflexivity.
Qed.

(** C5. Extraction null-safety: on an absent input, an empty mapping, a
    mapping without the expected key, an empty list, or a list too short for
    the requested index, the reference resolver, the coded-concept resolver
    and the race and ethnicity resolvers return null (the reference
    resolver: the empty string when only the key is missing) and do not
    raise. *)
Theorem extractors_null_safe :
  (extract_reference_id JNull = Ok JNull /\
   extract_reference_id (JObj []) = Ok JNull /\
   (forall kvs, kvs <> [] -> assoc "reference" kvs = None ->
      extract_reference_id (JObj kvs) = Ok (JStr ""))) /\
  ((forall i, safe_get_coding JNull i = Ok (JNull, JNull)) /\
   (forall i, safe_get_coding (JObj []) i = Ok (JNull, JNull)) /\
   (forall kvs i, assoc "coding" kvs = None ->
      safe_get_coding (JObj kvs) i = Ok (JNull, JNull)) /\
   (forall kvs i, assoc "coding" kvs = Some (JList []) ->
      safe_get_coding (JObj kvs) i = Ok (JNull, JNull)) /\
   (forall kvs l i, assoc "coding" kvs = Some (JList l) ->
      (Z.of_nat (List.length l) <= i)%Z ->
      safe_get_coding (JObj kvs) i = Ok (JNull, JNull)) /\
   (forall kvs e l i, assoc "coding" kvs = Some (JList l) -> (0 <= i)%Z ->
      nth_error l (Z.to_nat i) = Some (JObj e) ->
      assoc "code" e = None -> assoc "display" e = None ->
      safe_get_coding (JObj kvs) i = Ok (JNull, JNull))) /\
  (forall extract, extract = extract_race \/ extract = extract_ethnicity ->
   extract (JObj []) = Ok JNull /\
   (forall kvs, assoc "extension" kvs = None -> extract (JObj kvs) = Ok JNull) /\
   (forall kvs, assoc "extension" kvs = Some (JList []) ->
      extract (JObj kvs) = Ok JNull) /\
   (forall kvs exts, assoc "extension" kvs = Some (JList exts) ->
      forallb ext_truncated exts = true -> extract (JObj kvs) = Ok JNull)).
Proof.
  split; [|split].
  - repeat split.
    intros kvs Hne Hk. unfold extract_reference_id.
    destruct kvs as [|kv kvs']; [congruence|]. simpl truthy. cbn [negb].
    unfold get. rewrite Hk. reflexivity.
  - repeat split; try reflexivity.
    + apply safe_get_coding_absent.
    + apply safe_get_coding_nil.
    + apply safe_get_coding_short.
    + intros kvs e l i Hk Hi Hnth Hc Hd.
      rewrite (safe_get_coding_entry _ _ _ _ Hk Hi Hnth).
      unfold cell. now rewrite Hc, Hd.
  - intros extract Hex.
    assert (Hgen : forall kvs exts, assoc "extension" kvs = Some (JList exts) ->
              forallb ext_truncated exts = true -> extract (JObj kvs) = Ok JNull).
    { intros kvs exts Hk Ht.
      destruct Hex as [-> | ->]; unfold extract_race, extract_ethnicity, get;
        rewrite Hk; simpl; now apply extension_text_truncated. }
    repeat split.
    + destruct Hex as [-> | ->]; reflexivity.
    + intros kvs Hk.
      destruct Hex as [-> | ->]; unfold extract_race, extract_ethnicity, get;
        rewrite Hk; reflexivity.
    + intros kvs Hk. now apply (Hgen kvs []).
    + exact Hgen.
Qed.

(** C6, as amended. For a codeable concept with coding list [l] (empty when
    the concept has none) and an index [i >= 0]: the resolver returns the
    code and display of the i-th entry when there is one, each null when the
    entry lacks it; it returns (null, null) whenever the list is absent,
    empty or has no i-th entry; and a (null, null) result arises only in
    those cases or when the i-th entry has neither a code nor a display. *)
Theorem safe_get_coding_spec (kvs : list (string * json)) (l : list json) (i : Z) :
  coding_list_of kvs l ->
  (0 <= i)%Z ->
  (forall e, nth_error l (Z.to_nat i) = Some (JObj e) ->
     safe_get_coding (JObj kvs) i = Ok (cell e "code", cell e "display")) /\
  (l = [] \/ (Z.of_nat (List.length l) <= i)%Z ->
     safe_get_coding (JObj kvs) i = Ok (JNull, JNull)) /\
  (safe_get_coding (JObj kvs) i = Ok (JNull, JNull) <->
     l = [] \/ (Z.of_nat (List.length l) <= i)%Z \/
     exists e, nth_error l (Z.to_nat i) = Some (JObj e) /\
               cell e "code" = JNull /\ cell e "display" = JNull).
Proof.
  intros Hl Hi.
  assert (Hshort : l = [] \/ (Z.of_nat (List.length l) <= i)%Z ->
                   safe_get_coding (JObj kvs) i = Ok (JNull, JNull)).
  { intros Hs. destruct Hl as [Hk | [Hk ->]].
    - apply (safe_get_coding_short _ _ _ Hk).
      destruct Hs as [-> | Hs]; [simpl; lia | exact Hs].
    - now apply safe_get_coding_absent. }
  split; [|split; [exact Hshort|split]].
  - intros e Hnth. destruct Hl as [Hk | [_ ->]].
    + now apply (safe_get_coding_entry _ _ _ _ Hk).
    + destruct (Z.to_nat i); discriminate.
  - intros Hres.
    destruct (Z_le_gt_dec (Z.of_nat (List.length l)) i) as [Hle | Hgt];
      [right; now left|].
    right; right.
    destruct Hl as [Hk | [_ ->]]; [|simpl in Hgt; lia].
    destruct (nth_error l (Z.to_nat i)) as [x|] eqn:Hnth.
    + destruct x as [| | | | | |e];
        try (exfalso; destruct l as [|y l']; [simpl in Hgt; lia|];
             rewrite (safe_get_coding_cons _ _ _ _ Hk) in Hres;
             replace (Z.of_nat (List.length (y :: l')) <=? i)%Z with false in Hres
               by (symmetry; apply Z.leb_gt; lia);
             rewrite seq_index_nth in Hres by lia;
             rewrite Hnth in Hres; discriminate).
      exists e. split; [reflexivity|].
      rewrite (safe_get_coding_entry _ _ _ _ Hk Hi Hnth) in Hres.
      now inversion Hres.
    + apply nth_error_None in Hnth. lia.
  - intros [H | [H | (e & Hnth & Hc & Hd)]].
    + apply Hshort. now left.
    + apply Hshort. now right.
    + destruct Hl as [Hk | [_ ->]].
      * rewrite (safe_get_coding_entry _ _ _ _ Hk Hi Hnth). now rewrite Hc, Hd.
      * destruct (Z.to_nat i); discriminate.
Qed.

(** ** The resource parsers *)

Lemma framed_ret {A} (a : A) : framed (ret a).
Proof. intros [rs out]. unfold ret. simpl. now rewrite app_nil_r. Qed.

Lemma framed_lift {A} (r : res A) : framed (lift r).
Proof. intros [rs out]. unfold lift. simpl. now rewrite app_nil_r. Qed.

Lemma framed_throw {A} (e : exn) : framed (@throw pstate A e).
Proof. intros [rs out]. unfold throw. simpl. now rewrite app_nil_r. Qed.

Lemma framed_records_append (r : row) : framed (records_append r).
Proof. intros st. reflexivity. Qed.

Lemma framed_bind {A B} (m : M pstate A) (k : A -> M pstate B) :
  framed m -> (forall a, framed (k a)) -> framed (bind m k).
Proof.
  intros Hm Hk st. unfold bind. rewrite (Hm st).
  pose proof (Hm {| records := []; stdout := [] |}) as H0.
  destruct (m {| records := []; stdout := [] |}) as [[a|e] d0]; simpl in *.
  - rewrite (Hk a). inversion H0 as [Hd]. rewrite <- Hd. rewrite (Hk a d0).
    simpl. rewrite Hd at 1. simpl. now rewrite app_assoc.
  - reflexivity.
Qed.

Lemma framed_for_entries (body : json -> M pstate control) (entries : list json) :
  (forall e, framed (body e)) -> framed (for_entries body entries).
Proof.
  intros Hb. induction entries as [|e rest IH]; simpl.
  - apply framed_ret.
  - apply framed_bind; [apply Hb|]. intros [|]; [exact IH | apply framed_ret].
Qed.

Lemma framed_for_components (resource category_code : json) (comps : list json) :
  forall idx, framed (for_components resource category_code idx comps).
Proof.
  induction comps as [|c rest IH]; intros idx; simpl.
  - apply framed_ret.
  - apply framed_bind; [apply framed_lift|]. intros r.
    apply framed_bind; [apply framed_records_append|]. intros _. apply IH.
Qed.

Ltac framed_step :=
  match goal with
  | |- framed (bind _ _) => apply framed_bind; [|intros ?]
  | |- framed (ret _) => apply framed_ret
  | |- framed (lift _) => apply framed_lift
  | |- framed (throw _) => apply framed_throw
  | |- framed (records_append _) => apply framed_records_append
  | |- framed (for_components _ _ _ _) => apply framed_for_components
  | |- framed (if ?b then _ else _) => destruct b
  | |- framed (match ?x with _ => _ end) => destruct x
  end.

Lemma framed_patient_entry (entry : json) : framed (patient_entry entry).
Proof. unfold patient_entry. repeat framed_step. Qed.

Lemma framed_condition_entry (entry : json) : framed (condition_entry entry).
Proof. unfold condition_entry. repeat framed_step. Qed.

Lemma framed_observation_entry (entry : json) : framed (observation_entry entry).
Proof. unfold observation_entry, observation_resource. repeat framed_step. Qed.

Lemma framed_encounter_entry (entry : json) : framed (encounter_entry entry).
Proof. unfold encounter_entry. repeat framed_step. Qed.

Lemma framed_medication_request_entry (entry : json) :
  framed (medication_request_entry entry).
Proof. unfold medication_request_entry. repeat framed_step. Qed.

Lemma framed_file_body (entry_body : json -> M pstate control) (file_path : string) :
  (forall e, framed (entry_body e)) -> framed (file_body entry_body file_path).
Proof.
  intros Hb. unfold file_body. repeat framed_step.
  now apply framed_for_entries.
Qed.

(** The file loop never raises: each document adds its own records, and an
    error line when its [try] block fails. *)
Lemma for_files_run (what : string) (total : nat)
    (entry_body : json -> M pstate control) :
  (forall e, framed (entry_body e)) ->
  forall file_paths i st,
    for_files what total entry_body i file_paths st =
      (Ok tt,
       {| records := records st ++ flat_map (file_records entry_body) file_paths;
          stdout := stdout st ++ file_log what total entry_body i file_paths |}).
Proof.
  intros Hb. induction file_paths as [|p rest IH]; intros i st.
  - simpl. unfold ret. rewrite !app_nil_r. now destruct st.
  - cbn [for_files flat_map file_log].
    unfold bind at 1.
    set (pr := if Nat.eqb (i mod 50) 0 then [Progress what i total] else []).
    assert (Hpr : (if Nat.eqb (i mod 50) 0
                   then print (Progress what i total) else ret tt) st
                  = (Ok tt, {| records := records st; stdout := stdout st ++ pr |})).
    { unfold pr. destruct (Nat.eqb (i mod 50) 0); [reflexivity|].
      unfold ret. rewrite app_nil_r. now destruct st. }
    rewrite Hpr. unfold bind at 1. unfold try_except.
    rewrite (framed_file_body entry_body p Hb).
    unfold file_records, file_run.
    destruct (file_body entry_body p {| records := []; stdout := [] |})
      as [[[]|e] d]; simpl fst; simpl snd; cbn iota.
    + rewrite IH. simpl. now rewrite <- !app_assoc.
    + unfold print at 1. simpl. rewrite IH. simpl.
      now rewrite <- !app_assoc.
Qed.

Lemma file_log_errors (what : string) (total : nat)
    (entry_body : json -> M pstate control) (file_paths : list string) :
  forall i,
    List.length (filter is_error (file_log what total entry_body i file_paths)) =
    List.length (filter (file_fails entry_body) file_paths).
Proof.
  induction file_paths as [|p rest IH]; intros i; [reflexivity|].
  cbn [file_log filter]. rewrite !filter_app, !length_app, IH.
  unfold file_fails.
  destruct (Nat.eqb (i mod 50) 0); destruct (fst (file_run entry_body p));
    reflexivity.
Qed.

Lemma parser_tolerant (what : string) (entry_body : json -> M pstate control) :
  (forall e, framed (entry_body e)) ->
  partial_failure_tolerant entry_body (parser what entry_body).
Proof.
  intros Hb file_paths out.
  exists (file_log what (List.length file_paths) entry_body 1 file_paths).
  split; [|apply file_log_errors].
  unfold parser. now rewrite (for_files_run what _ entry_body Hb).
Qed.

(** An unreadable or undecodable file fails before any record is appended. *)
Lemma unreadable_file (entry_body : json -> M pstate control) (file_path : string)
    (e : exn) :
  read_json file_path = Raise e ->
  file_fails entry_body file_path = true /\ file_records entry_body file_path = [].
Proof.
  intros H. unfold file_fails, file_records, file_run, file_body, bind, lift.
  now rewrite H.
Qed.

(** C7. Partial-failure tolerance: over any batch of documents each of the
    five parsers returns instead of raising; its records are, document by
    document and in order, what each document's [try] block appended (all of
    its records for a document that parses); it prints exactly one error
    line per failing document; and a document that cannot be read or decoded
    is one of the failing ones and contributes no record. *)
Theorem parsers_tolerate_partial_failure :
  partial_failure_tolerant patient_entry parse_patients /\
  partial_failure_tolerant condition_entry parse_conditions /\
  partial_failure_tolerant observation_entry parse_observations /\
  partial_failure_tolerant encounter_entry parse_encounters /\
  partial_failure_tolerant medication_request_entry parse_medication_requests /\
  (forall entry_body file_path e,
     read_json file_path = Raise e ->
     file_fails entry_body file_path = true /\
     file_records entry_body file_path = []).
Proof.
  repeat split;
    try (apply parser_tolerant;
         first [ exact framed_patient_entry | exact framed_condition_entry
               | exact framed_observation_entry | exact framed_encounter_entry
               | exact framed_medication_request_entry ]);
    now apply (unreadable_file entry_body file_path e).
Qed.

(** *** The patient parser *)

Lemma patient_entry_cases (entry : json) (st : pstate) :
  patient_entry entry st = (Ok Continue, st) \/
  (exists r, patient_entry entry st =
     (Ok Break, {| records := records st ++ [r]; stdout := stdout st |})) \/
  (exists e, patient_entry entry st = (Raise e, st)).
Proof.
  unfold patient_entry, bind, lift.
  destruct (get entry "resource" (JObj [])) as [resource|e]; [|right; right; eauto].
  destruct (get resource "resourceType" JNull) as [rt|e]; [|right; right; eauto].
  destruct (negb (eq_str rt "Patient")); [now left|].
  destruct (patient_record resource) as [r|e]; [|right; right; eauto].
  right; left. exists r. reflexivity.
Qed.

Lemma for_entries_patient (entries : list json) (st : pstate) :
  exists new,
    snd (for_entries patient_entry entries st) =
      {| records := records st ++ new; stdout := stdout st |} /\
    (List.length new <= 1)%nat.
Proof.
  induction entries as [|entry rest IH].
  - exists []. simpl. rewrite app_nil_r. destruct st. auto.
  - simpl. unfold bind.
    destruct (patient_entry_cases entry st) as [H | [[r H] | [e H]]]; rewrite H.
    + exact IH.
    + exists [r]. simpl. auto.
    + exists []. simpl. rewrite app_nil_r. destruct st. auto.
Qed.

Lemma patient_file_at_most_one (file_path : string) :
  (List.length (file_records patient_entry file_path) <= 1)%nat.
Proof.
  unfold file_records, file_run, file_body, bind, lift.
  destruct (read_json file_path) as [bundle|e]; [|simpl; lia].
  destruct (get bundle "entry" (JList [])) as [entries|e]; [|simpl; lia].
  destruct (iter entries) as [items|e]; [|simpl; lia].
  destruct (for_entries_patient items {| records := []; stdout := [] |})
    as (new & Hnew & Hlen).
  rewrite Hnew. exact Hlen.
Qed.

Lemma flat_map_length_le {A B} (f : A -> list B) (l : list A) :
  (forall a, (List.length (f a) <= 1)%nat) ->
  (List.length (flat_map f l) <= List.length l)%nat.
Proof.
  intros Hf. induction l as [|a l IH]; simpl; [lia|].
  rewrite length_app. specialize (Hf a). lia.
Qed.

(** Entries of another resource type in front of a resource do not change
    what the entry loop does with it. *)
Lemma for_entries_skip (rtype : string) (body : json -> M pstate control)
    (pre rest : list json) (st : pstate) :
  (forall entry st', skipped_by rtype entry = true -> body entry st' = (Ok Continue, st')) ->
  forallb (skipped_by rtype) pre = true ->
  for_entries body (pre ++ rest) st = for_entries body rest st.
Proof.
  intros Hskip. induction pre as [|x pre IH]; simpl; intros H; [reflexivity|].
  apply andb_prop in H as [Hx Hpre].
  unfold bind at 1. rewrite (Hskip x st Hx). now apply IH.
Qed.

Lemma patient_entry_skips (entry : json) (st : pstate) :
  skipped_by "Patient" entry = true -> patient_entry entry st = (Ok Continue, st).
Proof.
  unfold skipped_by, patient_entry, bind, lift, get.
  destruct entry as [| | | | | |ekvs]; try discriminate.
  destruct (assoc "resource" ekvs) as [[| | | | | |kvs]|]; try discriminate.
  - unfold cell. intros ->. reflexivity.
  - reflexivity.
Qed.

(** C9. The patient parser emits at most one record per document, over a
    batch never more records than documents; the record of a subject takes
    the first name entry (and its first given name) and the first address
    entry; the entry loop stops at the first subject, whatever follows it in
    the bundle; and the document with given name Jane, family name Doe,
    gender female, birth date 1980-01-01 and no extensions yields exactly
    one record, with race and ethnicity null. *)
Theorem patient_parser_spec :
  (forall file_path,
     (List.length (file_records patient_entry file_path) <= 1)%nat) /\
  (forall file_paths out, exists df out',
     parse_patients file_paths out = (Ok df, out') /\
     (List.length df <= List.length file_paths)%nat) /\
  (forall kvs n names g givens a addresses race ethnicity,
     assoc "name" kvs = Some (JList (JObj n :: names)) ->
     assoc "given" n = Some (JList (g :: givens)) ->
     assoc "address" kvs = Some (JList (JObj a :: addresses)) ->
     extract_race (JObj kvs) = Ok race ->
     extract_ethnicity (JObj kvs) = Ok ethnicity ->
     patient_record (JObj kvs) =
       Ok [("id", cell kvs "id"); ("given_name", g);
           ("family_name",
            match assoc "family" n with Some v => v | None => JStr "" end);
           ("gender", cell kvs "gender"); ("birth_date", cell kvs "birthDate");
           ("race", race); ("ethnicity", ethnicity);
           ("city", cell a "city"); ("state", cell a "state")]) /\
  (forall file_path bkvs pre ekvs kvs post r,
     read_json file_path = Ok (JObj bkvs) ->
     assoc "entry" bkvs = Some (JList (pre ++ JObj ekvs :: post)) ->
     forallb (skipped_by "Patient") pre = true ->
     assoc "resource" ekvs = Some (JObj kvs) ->
     assoc "resourceType" kvs = Some (JStr "Patient") ->
     patient_record (JObj kvs) = Ok r ->
     file_records patient_entry file_path = [r]) /\
  (forall file_path out,
     read_json file_path = Ok jane_doe_bundle ->
     parse_patients [file_path] out = (Ok [jane_doe_row], out)).
Proof.
  split; [exact patient_file_at_most_one|].
  split; [|split; [|split]].
  - intros file_paths out.
    destruct (parser_tolerant "patients" patient_entry framed_patient_entry
                file_paths out) as (log & Hrun & _).
    eexists; eexists. split; [exact Hrun|].
    apply flat_map_length_le. exact patient_file_at_most_one.
  - intros kvs n names g givens a addresses race ethnicity Hn Hg Ha Hr He.
    unfold patient_record. unfold get at 1. rewrite Hn.
    cbn [res_bind truthy Py.index].
    unfold seq_index. cbn [List.length Z.of_nat Z.ltb Z.compare nth_error
      Z.to_nat Z.leb andb Pos.compare Pos.compare_cont Pos.of_succ_nat Pos.succ
      res_bind].
    cbn -[extract_race extract_ethnicity assoc cell].
    rewrite Hg. cbn -[extract_race extract_ethnicity assoc cell].
    rewrite Ha. cbn -[extract_race extract_ethnicity assoc cell].
    rewrite Hr, He. reflexivity.
  - intros file_path bkvs pre ekvs kvs post r Hread Hentry Hpre Hres Htype Hrec.
    unfold file_records, file_run, file_body, bind at 1, lift.
    rewrite Hread. unfold bind at 1, get. rewrite Hentry.
    unfold bind at 1, iter.
    rewrite (for_entries_skip "Patient" patient_entry pre _ _
               (fun e st' => patient_entry_skips e st') Hpre).
    cbn [for_entries]. unfold bind at 1, patient_entry, bind, lift, get.
    rewrite Hres, Htype. cbn [eq_str String.eqb negb].
    replace (String.eqb "Patient" "Patient") with true by reflexivity.
    cbn [negb]. unfold get in Hrec. rewrite Hrec. reflexivity.
  - intros file_path out Hread.
    unfold parse_patients, parser. cbn [for_files List.length].
    unfold bind at 1.
    replace (Nat.eqb (1 mod 50) 0) with false by reflexivity.
    unfold ret at 1. unfold bind at 1, try_except, file_body, bind at 1, lift.
    rewrite Hread. cbn. reflexivity.
Qed.

(** *** The observation parser *)

Lemma contains_key (k : string) (kvs : list (string * json)) :
  contains k (JObj kvs) =
    Ok (match assoc k kvs with Some _ => true | None => false end).
Proof. reflexivity. Qed.

Lemma get_cell (kvs : list (string * json)) (k : string) :
  get (JObj kvs) k JNull = Ok (cell kvs k).
Proof. reflexivity. Qed.

(** Without a quantity and without a coded value, a component list sends
    the parser into the fan-out loop. *)
Lemma observation_resource_components
    (kvs : list (string * json)) (code display category : json) (st : pstate)
    (comps : list json) :
  observation_head (JObj kvs) = Ok (code, display, category) ->
  assoc "valueQuantity" kvs = None ->
  assoc "valueCodeableConcept" kvs = None ->
  assoc "component" kvs = Some (JList comps) ->
  observation_resource (JObj kvs) st =
    (for_components (JObj kvs) category 0 comps >> ret Continue) st.
Proof.
  intros Hhead Hk1 Hk2 Hk3.
  unfold observation_resource, bind at 1, lift.
  rewrite Hhead. unfold bind at 1. rewrite contains_key, Hk1.
  unfold bind at 1. rewrite contains_key, Hk2.
  unfold bind at 1. rewrite contains_key, Hk3.
  unfold bind at 1, get. rewrite Hk3. reflexivity.
Qed.


Lemma component_record_ok (kvs : list (string * json)) (category patient_id : json)
    (idx : nat) (comp c d v u : json) :
  extract_reference_id (cell kvs "subject") = Ok patient_id ->
  component_fields comp = Ok (c, d, v, u) ->
  component_record (JObj kvs) category idx comp =
    Ok [("id", JStr (py_str (cell kvs "id") ++ "-" ++ str_of_nat idx));
        ("patient_id", patient_id); ("code", c); ("display", d); ("value", v);
        ("unit", u); ("effective_date", cell kvs "effectiveDateTime");
        ("category", category)].
Proof.
  intros Hp Hf. unfold component_record. rewrite Hf. cbn [res_bind].
  rewrite !get_cell. cbn [res_bind]. rewrite Hp. reflexivity.
Qed.

Lemma for_components_run (kvs : list (string * json)) (category patient_id : json)
    (comps : list json) :
  extract_reference_id (cell kvs "subject") = Ok patient_id ->
  forallb (fun comp => negb (raises (component_fields comp))) comps = true ->
  forall idx st, exists rs,
    for_components (JObj kvs) category idx comps st = (Ok tt, appended st rs) /\
    List.length rs = List.length comps /\
    forall k comp, nth_error comps k = Some comp ->
      exists c d v u,
        component_fields comp = Ok (c, d, v, u) /\
        nth_error rs k =
          Some [("id", JStr (py_str (cell kvs "id") ++ "-" ++ str_of_nat (idx + k)));
                ("patient_id", patient_id); ("code", c); ("display", d);
                ("value", v); ("unit", u);
                ("effective_date", cell kvs "effectiveDateTime");
                ("category", category)].
Proof.
  intros Hp. induction comps as [|comp rest IH]; intros Hok idx st.
  - exists []. unfold appended. simpl. rewrite app_nil_r. destruct st.
    repeat split. intros [|k] comp H; discriminate.
  - simpl in Hok. apply andb_prop in Hok as [Hc Hrest].
    destruct (component_fields comp) as [[[[c d] v] u]|e] eqn:Hf; [|discriminate].
    cbn [for_components]. unfold bind at 1, lift.
    rewrite (component_record_ok kvs category patient_id idx comp c d v u Hp Hf).
    unfold bind at 1, records_append.
    match goal with
    | |- context [for_components _ _ _ _ ?s] =>
        destruct (IH Hrest (S idx) s) as (rs & Hrun & Hlen & Hnth)
    end.
    eexists (_ :: rs). rewrite Hrun. unfold appended. simpl.
    rewrite <- app_assoc. split; [reflexivity|]. split; [now rewrite Hlen|].
    intros [|k] comp' Hk; simpl in Hk.
    + inversion Hk; subst comp'. exists c, d, v, u.
      rewrite Nat.add_0_r. simpl. repeat split; assumption.
    + destruct (Hnth k comp' Hk) as (c' & d' & v' & u' & Hf' & Hr').
      exists c', d', v', u'. split; [exact Hf'|].
      simpl. rewrite Hr'. now rewrite Nat.add_succ_r.
Qed.






(** ** The store *)

Lemma table_of_set_table (db : database) (t : table_name) (x : table) :
  table_of (set_table db t x) t = Some x.
Proof. destruct t; reflexivity. Qed.

Lemma table_of_set_table_other (db : database) (t t' : table_name) (x : table) :
  t' <> t -> table_of (set_table db t x) t' = table_of db t'.
Proof. destruct t, t'; intros H; try reflexivity; congruence. Qed.

Lemma table_of_patients_after (db : database) (t : table_name) (x : table) :
  is_child t = true ->
  table_of (set_table db t x) patients = table_of db patients.
Proof. destruct t; [discriminate | reflexivity ..]. Qed.

Lemma set_table_twice (db : database) (t : table_name) (x y : table) :
  set_table (set_table db t x) t y = set_table db t y.
Proof. destruct t; reflexivity. Qed.

Lemma set_table_same (db : database) (t : table_name) (x : table) :
  table_of db t = Some x -> set_table db t x = db.
Proof. destruct db, t; simpl; intros ->; reflexivity. Qed.

Lemma with_rows_nil (x : table) : with_rows x [] = x.
Proof. destruct x. unfold with_rows. simpl. now rewrite app_nil_r. Qed.

Lemma with_rows_app (x : table) (rs rs' : list row) :
  with_rows (with_rows x rs) rs' = with_rows x (rs ++ rs').
Proof. unfold with_rows. simpl. now rewrite app_assoc. Qed.

(** A successful [INSERT] adds the row to its table and nothing else. *)
Lemma insert_row_ok (fk : bool) (db db' : database) (t : table_name) (r : row) :
  insert_row fk db t r = Ok db' ->
  exists x, table_of db t = Some x /\ db' = set_table db t (with_rows x [r]).
Proof.
  unfold insert_row.
  destruct (table_of db t) as [x|]; [|discriminate].
  destruct (bind_error r); [discriminate|].
  intros H. exists x. split; [reflexivity|].
  destruct (negb (declared x)); [now inversion H|].
  destruct (is_child t && is_null (cell r "patient_id")); [discriminate|].
  destruct (has_key (cell r "id") (rows x)); [discriminate|].
  destruct (is_child t && fk); [|now inversion H].
  destruct (table_of db patients) as [p|]; [|discriminate].
  destruct (negb (declared p)); [discriminate|].
  destruct (has_key (cell r "patient_id") (rows p)); [now inversion H|discriminate].
Qed.

(** A declared child table refuses a row without a patient reference. *)
Lemma insert_row_null (fk : bool) (db : database) (t : table_name) (r : row)
    (x : table) :
  is_child t = true ->
  table_of db t = Some x ->
  declared x = true ->
  cell r "patient_id" = JNull ->
  raises (insert_row fk db t r) = true.
Proof.
  intros Hc Ht Hd Hn. unfold insert_row. rewrite Ht.
  destruct (bind_error r); [reflexivity|].
  rewrite Hd, Hc, Hn. reflexivity.
Qed.

Lemma run_transaction_unfold (body : M connection unit) (conn : connection) :
  run_transaction body conn =
    match body conn with
    | (Ok _, c) => (Ok tt, committed c)
    | (Raise e, c) => (Raise e, rolled_back c)
    end.
Proof.
  unfold run_transaction, try_except, bind, committed, rolled_back, commit,
    rollback, throw.
  destruct (body conn) as [[[]|e] c]; reflexivity.
Qed.

(** What [executemany] does to a connection: the file is untouched, the rows
    go to table [t] inside the transaction, in order, until one is refused. *)
Lemma executemany_run (t : table_name) (data_list : list row) :
  forall conn,
    let '(r, conn') := executemany t data_list conn in
    file conn' = file conn /\
    foreign_keys conn' = foreign_keys conn /\
    (forall t', t' <> t -> table_of (current conn') t' = table_of (current conn) t') /\
    (exists done, history conn' = history conn ++ map (Inserted t) done /\
                  (r = Ok tt -> done = data_list)) /\
    (r = Ok tt ->
     data_list = [] /\ conn' = conn \/
     exists x, table_of (current conn) t = Some x /\
               tx conn' = Some (set_table (current conn) t (with_rows x data_list))).
Proof.
  induction data_list as [|r0 rest IH]; intros conn.
  - simpl. repeat split; auto. exists []. simpl. now rewrite app_nil_r.
  - cbn [executemany]. unfold bind at 1, execute_insert.
    destruct (insert_row (foreign_keys conn) (current conn) t r0) as [db'|e] eqn:Hins.
    + apply insert_row_ok in Hins as (x & Hx & ->).
      match goal with
      | |- context [executemany t rest ?c] => specialize (IH c); set (c1 := c) in *
      end.
      destruct (executemany t rest c1) as [r conn'].
      destruct IH as (Hfile & Hfk & Hother & (done & Hhist & Hdone) & Hok).
      simpl in Hfile, Hfk, Hhist. unfold current at 2 in Hother. simpl in Hother.
      split; [exact Hfile|]. split; [exact Hfk|]. split; [|split].
      * intros t' Hne. rewrite (Hother t' Hne).
        now apply table_of_set_table_other.
      * exists (r0 :: done). split.
        -- rewrite Hhist. simpl. now rewrite <- app_assoc.
        -- intros Hr. now rewrite (Hdone Hr).
      * intros Hr. right. exists x. split; [exact Hx|].
        destruct (Hok Hr) as [[-> ->] | (x' & Hx' & Htx)].
        -- reflexivity.
        -- unfold current in Hx'. simpl in Hx'.
           rewrite table_of_set_table in Hx'. inversion Hx'; subst x'.
           rewrite Htx. unfold current at 1. simpl.
           now rewrite set_table_twice, with_rows_app.
    + simpl. repeat split; auto; try discriminate.
      exists []. simpl. rewrite app_nil_r. split; [reflexivity | discriminate].
Qed.

Lemma inserts_only_app (t : table_name) (tr tr' : list event) :
  inserts_only t tr -> inserts_only t tr' -> inserts_only t (tr ++ tr').
Proof.
  intros H H' t' r Hin. apply in_app_or in Hin as [Hin | Hin]; eauto.
Qed.

Lemma inserts_only_map (t : table_name) (rs : list row) :
  inserts_only t (map (Inserted t) rs).
Proof.
  intros t' r Hin. apply in_map_iff in Hin as (r' & Heq & _). now inversion Heq.
Qed.

Lemma inserts_only_mark (t : table_name) (ev : event) :
  ev = Committed \/ ev = RolledBack -> inserts_only t [ev].
Proof. intros [-> | ->] t' r [H | []]; discriminate. Qed.

Lemma patient_inserts_app (tr tr' : list event) :
  patient_inserts (tr ++ tr') = patient_inserts tr ++ patient_inserts tr'.
Proof.
  induction tr as [|ev tr IH]; [reflexivity|].
  destruct ev as [[] r| |]; simpl; now rewrite IH.
Qed.

Lemma patient_inserts_other (t : table_name) (tr : list event) :
  t <> patients -> inserts_only t tr -> patient_inserts tr = [].
Proof.
  intros Hne. induction tr as [|ev tr IH]; intros H; [reflexivity|].
  assert (Htr : inserts_only t tr) by (intros t' r Hin; apply (H t' r); now right).
  destruct ev as [t' r| |]; simpl; try now apply IH.
  assert (t' = t) by (apply (H t' r); now left). subst t'.
  destruct t; try congruence; now apply IH.
Qed.

(** [to_sql] in two steps: the table is created when it is missing, then
    the rows are inserted. *)
Lemma to_sql_unfold (df : dataframe) (t : table_name) (conn : connection) :
  to_sql df t conn =
    let insert := match df with
                  | [] => ret tt
                  | _ => run_transaction (executemany t df)
                  end in
    match table_of (current conn) t with
    | Some _ => insert conn
    | None =>
        match df with
        | [] => (Raise (OperationalError "syntax error"), rolled_back conn)
        | _ => insert (committed
                         (snd (ddl (fun db => set_table db t
                                       {| declared := false; rows := [] |}) conn)))
        end
    end.
Proof.
  unfold to_sql, bind. destruct (table_of (current conn) t); [reflexivity|].
  rewrite run_transaction_unfold. destruct df; reflexivity.
Qed.

(** The statements of one [to_sql]: inserts into its own table only and,
    when it succeeds on a frame with rows, all the rows and then the commit. *)
Lemma to_sql_history (df : dataframe) (t : table_name) (conn : connection) :
  exists tr,
    history (snd (to_sql df t conn)) = history conn ++ tr /\
    inserts_only t tr /\
    (fst (to_sql df t conn) = Ok tt ->
     exists b,
       tr = b ++ map (Inserted t) df ++
            match df with [] => [] | _ => [Committed] end /\
       (b = [] \/ b = [Committed])).
Proof.
  assert (Hins : forall c : connection,
    exists tr,
      history (snd (match df with
                    | [] => ret tt
                    | _ => run_transaction (executemany t df)
                    end c)) = history c ++ tr /\
      inserts_only t tr /\
      (fst (match df with
            | [] => ret tt
            | _ => run_transaction (executemany t df)
            end c) = Ok tt ->
       tr = map (Inserted t) df ++ match df with [] => [] | _ => [Committed] end)).
  { intros c. destruct df as [|r0 rest].
    - exists []. simpl. rewrite app_nil_r. split; [reflexivity|].
      split; [intros ? ? []|reflexivity].
    - rewrite run_transaction_unfold.
      pose proof (executemany_run t (r0 :: rest) c) as H.
      destruct (executemany t (r0 :: rest) c) as [[[]|e] c'];
        destruct H as (_ & _ & _ & (done & Hh & Hd) & _).
      + exists (map (Inserted t) done ++ [Committed]). simpl.
        rewrite Hh, <- app_assoc. split; [reflexivity|]. split.
        * apply inserts_only_app; [apply inserts_only_map|].
          apply inserts_only_mark. now left.
        * intros _. now rewrite (Hd eq_refl).
      + exists (map (Inserted t) done ++ [RolledBack]). simpl.
        rewrite Hh, <- app_assoc. split; [reflexivity|]. split.
        * apply inserts_only_app; [apply inserts_only_map|].
          apply inserts_only_mark. now right.
        * discriminate. }
  rewrite to_sql_unfold. cbv zeta.
  destruct (table_of (current conn) t) as [x|].
  - destruct (Hins conn) as (tr & Hh & Ho & Hok).
    exists tr. split; [exact Hh|]. split; [exact Ho|].
    intros Hr. exists []. split; [now apply Hok | now left].
  - destruct df as [|r0 rest].
    + simpl. exists [RolledBack]. split; [reflexivity|].
      split; [apply inserts_only_mark; now right | discriminate].
    + match goal with
      | |- context [run_transaction _ ?c] =>
          destruct (Hins c) as (tr & Hh & Ho & Hok); set (c1 := c) in *
      end.
      exists ([Committed] ++ tr). split; [|split].
      * rewrite Hh. unfold c1, committed, commit, ddl. simpl.
        destruct (tx conn); simpl; now rewrite <- app_assoc.
      * apply inserts_only_app; [apply inserts_only_mark; now left | exact Ho].
      * intros Hr. exists [Committed]. split; [|now right].
        now rewrite (Hok Hr).
Qed.

Lemma quiet_bind {A B} (m : M connection A) (k : A -> M connection B) :
  quiet_on_patients m -> (forall a, quiet_on_patients (k a)) ->
  quiet_on_patients (bind m k).
Proof.
  intros Hm Hk conn. unfold bind.
  destruct (Hm conn) as (tr & Hh & Hp).
  destruct (m conn) as [[a|e] c]; simpl in Hh.
  - destruct (Hk a c) as (tr' & Hh' & Hp').
    exists (tr ++ tr'). rewrite Hh', Hh, <- app_assoc. split; [reflexivity|].
    now rewrite patient_inserts_app, Hp, Hp'.
  - exists tr. now split.
Qed.

Lemma quiet_to_sql (df : dataframe) (t : table_name) :
  t <> patients -> quiet_on_patients (to_sql df t).
Proof.
  intros Hne conn. destruct (to_sql_history df t conn) as (tr & Hh & Ho & _).
  exists tr. split; [exact Hh|]. now apply (patient_inserts_other t).
Qed.

Lemma quiet_commit : quiet_on_patients commit.
Proof. intros conn. exists [Committed]. now split. Qed.

(** *** Loading *)

Lemma table_name_eq_dec (t t' : table_name) : {t = t'} + {t <> t'}.
Proof. decide equality. Qed.

Lemma load_data_unfold (dfs : dataframes) :
  load_data dfs =
    try_except (load_seq dfs tables commit) (fun e => rollback >> throw e).
Proof. reflexivity. Qed.

(** [to_sql] into a table that exists, on a connection without an open
    transaction: on success the rows are in the file, on failure the file is
    as before; no transaction is left open either way. *)
Lemma to_sql_existing (df : dataframe) (t : table_name) (conn : connection)
    (x : table) :
  tx conn = None ->
  table_of (file conn) t = Some x ->
  tx (snd (to_sql df t conn)) = None /\
  foreign_keys (snd (to_sql df t conn)) = foreign_keys conn /\
  file (snd (to_sql df t conn)) =
    match fst (to_sql df t conn) with
    | Ok _ => set_table (file conn) t (with_rows x df)
    | Raise _ => file conn
    end.
Proof.
  intros Htx Ht. rewrite to_sql_unfold. cbv zeta.
  assert (Hcur : current conn = file conn) by (unfold current; now rewrite Htx).
  rewrite Hcur, Ht. destruct df as [|r0 rest].
  - simpl. rewrite with_rows_nil, (set_table_same _ _ _ Ht). auto.
  - rewrite run_transaction_unfold.
    pose proof (executemany_run t (r0 :: rest) conn) as H.
    destruct (executemany t (r0 :: rest) conn) as [[[]|e] c'].
    + destruct H as (Hfile & Hfk & _ & _ & Hok).
      destruct (Hok eq_refl) as [[Hnil _] | (x' & Hx' & Htx')]; [discriminate|].
      rewrite Hcur, Ht in Hx'. inversion Hx'; subst x'.
      unfold committed, commit, current. simpl. rewrite Htx', Hcur. auto.
    + destruct H as (Hfile & Hfk & _). simpl. auto.
Qed.

(** [to_sql] on a connection without an open transaction, whether the table
    exists or not: no transaction is left open, the other tables are
    untouched, and the rows are in the file exactly when it succeeds. *)
Lemma to_sql_run (df : dataframe) (t : table_name) (conn : connection) :
  tx conn = None ->
  tx (snd (to_sql df t conn)) = None /\
  (forall t', t' <> t ->
     table_of (file (snd (to_sql df t conn))) t' = table_of (file conn) t') /\
  rows_of (file (snd (to_sql df t conn))) t =
    match fst (to_sql df t conn) with
    | Ok _ => rows_of (file conn) t ++ df
    | Raise _ => rows_of (file conn) t
    end.
Proof.
  intros Htx.
  assert (Hex : forall c x, tx c = None -> table_of (file c) t = Some x ->
            tx (snd (to_sql df t c)) = None /\
            (forall t', t' <> t ->
               table_of (file (snd (to_sql df t c))) t' = table_of (file c) t') /\
            rows_of (file (snd (to_sql df t c))) t =
              match fst (to_sql df t c) with
              | Ok _ => rows x ++ df
              | Raise _ => rows x
              end).
  { intros c x Hc Hx.
    destruct (to_sql_existing df t c x Hc Hx) as (Ht' & _ & Hf).
    split; [exact Ht'|]. unfold rows_of. rewrite Hf.
    destruct (fst (to_sql df t c)); cbv iota beta.
    - split; [|now rewrite table_of_set_table].
      intros t' Hne. now apply table_of_set_table_other.
    - split; [reflexivity | now rewrite Hx]. }
  destruct (table_of (file conn) t) as [x|] eqn:Hx.
  - unfold rows_of at 2 3. rewrite Hx. now apply Hex.
  - destruct conn as [f tx0 fk h]. cbn [tx file] in *. subst tx0.
    unfold rows_of at 2 3. rewrite Hx.
    destruct df as [|r0 rest].
    + rewrite to_sql_unfold. cbv zeta. unfold current. cbn [tx file]. rewrite Hx.
      cbn. unfold rows_of. rewrite Hx. auto.
    + set (c2 := {| file := set_table f t {| declared := false; rows := [] |};
                    tx := None; foreign_keys := fk;
                    history := h ++ [Committed] |}).
      assert (Hsame : to_sql (r0 :: rest) t
                        {| file := f; tx := None; foreign_keys := fk; history := h |} =
                      to_sql (r0 :: rest) t c2).
      { unfold c2. rewrite !to_sql_unfold. cbv zeta. unfold current. cbn [tx file].
        rewrite Hx, table_of_set_table. reflexivity. }
      rewrite Hsame.
      destruct (Hex c2 {| declared := false; rows := [] |} eq_refl) as (Ha & Hb & Hc).
      { apply table_of_set_table. }
      split; [exact Ha|]. split; [|exact Hc].
      intros t' Hne. rewrite (Hb t' Hne). now apply table_of_set_table_other.
Qed.

(** The child loads never touch the patients table of the file. *)
Lemma load_seq_children_file (dfs : dataframes) (ts : list table_name) :
  forallb is_child ts = true ->
  forall conn,
    tx conn = None ->
    tx (snd (load_seq dfs ts commit conn)) = None /\
    table_of (file (snd (load_seq dfs ts commit conn))) patients =
      table_of (file conn) patients.
Proof.
  induction ts as [|t rest IH]; intros Hch conn Htx.
  - cbn. unfold current. rewrite Htx. auto.
  - cbn [forallb] in Hch. apply andb_true_iff in Hch as [Hc Hch].
    destruct (to_sql_run (frame dfs t) t conn Htx) as (Ht1 & Hother & _).
    assert (Hp : table_of (file (snd (to_sql (frame dfs t) t conn))) patients =
                 table_of (file conn) patients).
    { apply Hother. intros Heq. rewrite <- Heq in Hc. discriminate Hc. }
    cbn [load_seq]. unfold bind at 1 2.
    destruct (to_sql (frame dfs t) t conn) as [[[]|e] c1]; cbn [fst snd] in *.
    + destruct (IH Hch c1 Ht1) as [Ha Hb]. split; [exact Ha | now rewrite Hb].
    + auto.
Qed.

(** A child insert changes neither the file nor the patients table the
    transaction sees. *)
Lemma execute_insert_child (c : table_name) (r : row) (s : connection) :
  is_child c = true ->
  file (snd (execute_insert c r s)) = file s /\
  table_of (current (snd (execute_insert c r s))) patients =
    table_of (current s) patients.
Proof.
  intros Hc. unfold execute_insert.
  destruct (insert_row (foreign_keys s) (current s) c r) as [db'|e] eqn:Hins.
  - apply insert_row_ok in Hins as (x & Hx & ->). split; [reflexivity|].
    unfold current at 1. cbn [snd tx]. now apply table_of_patients_after.
  - split; reflexivity.
Qed.

(** C4. Parent before children.  [main] calls [load_data] on a connection
    without an open transaction, and on such a connection [load_data] is the
    load of the patients followed by the loads of the children.  The parent
    load executes patient statements only and leaves no transaction open.
    When it succeeds, every patient record of the frame is in the database
    file, committed, before the child loads start: they start from that
    state, never insert a patient and never change the patients of the file,
    and no child insert changes the patients its transaction sees.  When the
    parent load fails, [load_data] raises without having executed any child
    statement. *)
Theorem parent_committed_before_children :
  tx fresh_schema = None /\
  forall (dfs : dataframes) (conn : connection),
  tx conn = None ->
  (tx (snd (parent_load dfs conn)) = None /\
   exists tr,
     history (snd (parent_load dfs conn)) = history conn ++ tr /\
     inserts_only patients tr) /\
  (fst (parent_load dfs conn) = Ok tt ->
   rows_of (file (snd (parent_load dfs conn))) patients =
     rows_of (file conn) patients ++ df_patients dfs /\
   (exists b,
      history (snd (parent_load dfs conn)) =
        history conn ++ b ++ map (Inserted patients) (df_patients dfs) ++
        match df_patients dfs with [] => [] | _ => [Committed] end /\
      (b = [] \/ b = [Committed])) /\
   load_data dfs conn = child_loads dfs (snd (parent_load dfs conn)) /\
   rows_of (file (snd (load_data dfs conn))) patients =
     rows_of (file (snd (parent_load dfs conn))) patients /\
   exists tr',
     history (snd (load_data dfs conn)) =
       history (snd (parent_load dfs conn)) ++ tr' /\
     patient_inserts tr' = []) /\
  (forall e,
     fst (parent_load dfs conn) = Raise e ->
     load_data dfs conn = (Raise e, rolled_back (snd (parent_load dfs conn))) /\
     rows_of (file (snd (load_data dfs conn))) patients = rows_of (file conn) patients) /\
  (forall c df s,
     is_child c = true ->
     tx s = None ->
     tx (snd (to_sql df c s)) = None /\
     table_of (file (snd (to_sql df c s))) patients = table_of (file s) patients /\
     exists tr, history (snd (to_sql df c s)) = history s ++ tr /\
                patient_inserts tr = []) /\
  (forall c r s,
     is_child c = true ->
     file (snd (execute_insert c r s)) = file s /\
     table_of (current (snd (execute_insert c r s))) patients =
       table_of (current s) patients).
Proof.
  split; [reflexivity|].
  intros dfs conn Htx. unfold parent_load.
  destruct (to_sql_run (df_patients dfs) patients conn Htx) as (Ht1 & _ & Hrows).
  destruct (to_sql_history (df_patients dfs) patients conn) as (trp & Hh & Ho & Hok).
  assert (Hsplit : load_data dfs conn =
            match to_sql (df_patients dfs) patients conn with
            | (Ok _, c1) => child_loads dfs c1
            | (Raise e, c1) => (Raise e, rolled_back c1)
            end).
  { rewrite load_data_unfold. unfold child_loads, try_except.
    change (load_seq dfs tables commit conn)
      with ((to_sql (df_patients dfs) patients >> load_seq dfs children commit) conn).
    unfold bind at 1.
    destruct (to_sql (df_patients dfs) patients conn) as [[[]|e] c1]; reflexivity. }
  split; [|split; [|split; [|split]]].
  - split; [exact Ht1|]. exists trp. now split.
  - intros Hr. rewrite Hr in Hrows. split; [exact Hrows|]. split.
    + destruct (Hok Hr) as (b & -> & Hb). exists b. now split.
    + destruct (to_sql (df_patients dfs) patients conn) as [r1 c1] eqn:Hrun.
      cbn [fst snd] in *. subst r1. split; [exact Hsplit|].
      rewrite Hsplit. unfold child_loads, try_except.
      destruct (load_seq_children_file dfs children eq_refl c1 Ht1) as [_ Hfile].
      assert (Hq : quiet_on_patients (load_seq dfs children commit)).
      { unfold children. cbn [load_seq].
        repeat (apply quiet_bind; [apply quiet_to_sql; discriminate | intros _]).
        apply quiet_commit. }
      destruct (Hq c1) as (tr2 & Hh2 & Hp2).
      destruct (load_seq dfs children commit c1) as [[[]|e] c2]; cbn [fst snd] in *.
      * split; [unfold rows_of; now rewrite Hfile|]. exists tr2. now split.
      * unfold bind, rollback, throw. cbn [fst snd file history].
        split; [unfold rows_of; now rewrite Hfile|].
        exists (tr2 ++ [RolledBack]). rewrite Hh2, <- app_assoc.
        split; [reflexivity|]. now rewrite patient_inserts_app, Hp2.
  - intros e Hr. rewrite Hr in Hrows. rewrite Hsplit.
    destruct (to_sql (df_patients dfs) patients conn) as [r1 c1].
    cbn [fst snd] in *. subst r1. split; [reflexivity|]. exact Hrows.
  - intros c df s Hc Hs.
    destruct (to_sql_run df c s Hs) as (Ha & Hb & _).
    split; [exact Ha|]. split.
    + apply Hb. intros Heq. rewrite <- Heq in Hc. discriminate Hc.
    + apply quiet_to_sql. intros ->. discriminate Hc.
  - intros c r s Hc. now apply execute_insert_child.
Qed.

Lemma executemany_null (t : table_name) (r : row) (data_list : list row) :
  is_child t = true ->
  cell r "patient_id" = JNull ->
  In r data_list ->
  forall conn x,
    table_of (current conn) t = Some x ->
    declared x = true ->
    raises (fst (executemany t data_list conn)) = true.
Proof.
  intros Hc Hn. induction data_list as [|r0 rest IH]; intros Hin conn x Hx Hd;
    [destruct Hin|].
  cbn [executemany]. unfold bind at 1, execute_insert.
  destruct (insert_row (foreign_keys conn) (current conn) t r0) as [db'|e] eqn:Hins;
    [|reflexivity].
  destruct Hin as [-> | Hin].
  - pose proof (insert_row_null (foreign_keys conn) (current conn) t r x Hc Hx Hd Hn)
      as Hr.
    rewrite Hins in Hr. discriminate.
  - apply insert_row_ok in Hins as (x' & Hx' & ->).
    rewrite Hx in Hx'. inversion Hx'; subst x'.
    apply (IH Hin _ (with_rows x [r0])).
    + unfold current. simpl. apply table_of_set_table.
    + exact Hd.
Qed.

Lemma to_sql_null (df : dataframe) (t : table_name) (conn : connection)
    (x : table) (r : row) :
  is_child t = true ->
  tx conn = None ->
  table_of (file conn) t = Some x ->
  declared x = true ->
  In r df ->
  cell r "patient_id" = JNull ->
  raises (fst (to_sql df t conn)) = true.
Proof.
  intros Hc Htx Ht Hd Hin Hn. rewrite to_sql_unfold. cbv zeta.
  assert (Hcur : current conn = file conn) by (unfold current; now rewrite Htx).
  rewrite Hcur, Ht. destruct df as [|r0 rest]; [destruct Hin|].
  rewrite run_transaction_unfold.
  pose proof (executemany_null t r (r0 :: rest) Hc Hn Hin conn x) as H.
  rewrite Hcur in H. specialize (H Ht Hd).
  destruct (executemany t (r0 :: rest) conn) as [[[]|e] c']; [discriminate|reflexivity].
Qed.

(** Loading a sequence of existing tables either fails, leaving the file as
    the tables loaded so far made it, or reaches [k] with every frame in its
    table. *)
Lemma load_seq_null (dfs : dataframes) (k : M connection unit) (c : table_name)
    (r : row) (ts : list table_name) :
  is_child c = true ->
  In r (frame dfs c) ->
  cell r "patient_id" = JNull ->
  In c ts ->
  forall conn,
    forallb (declared_in conn) tables = true ->
    raises (fst (load_seq dfs ts k conn)) = true /\
    tx (snd (load_seq dfs ts k conn)) = None /\
    table_of (file (snd (load_seq dfs ts k conn))) c = table_of (file conn) c.
Proof.
  intros Hc Hin Hn. induction ts as [|t rest IH]; intros Hts conn Hdecl; [destruct Hts|].
  assert (Htx : tx conn = None).
  { simpl in Hdecl. unfold declared_in in Hdecl. destruct (tx conn); [discriminate|].
    reflexivity. }
  assert (Hall : forall t', exists x, table_of (file conn) t' = Some x /\ declared x = true).
  { intros t'. rewrite forallb_forall in Hdecl.
    assert (Ht' : In t' tables) by (destruct t'; simpl; auto 6).
    specialize (Hdecl t' Ht'). unfold declared_in in Hdecl. rewrite Htx in Hdecl.
    destruct (table_of (file conn) t') as [x|]; [|discriminate]. now exists x. }
  destruct (Hall t) as (x & Hx & Hd).
  cbn [load_seq]. unfold bind at 1 2 3.
  destruct (to_sql_existing (frame dfs t) t conn x Htx Hx) as (Htx' & Hfk' & Hfile').
  destruct (table_name_eq_dec t c) as [-> | Hne].
  - pose proof (to_sql_null (frame dfs c) c conn x r Hc Htx Hx Hd Hin Hn) as Hr.
    destruct (to_sql (frame dfs c) c conn) as [[[]|e] c1]; [discriminate|].
    simpl in *. rewrite Hfile'. auto.
  - destruct (to_sql (frame dfs t) t conn) as [[[]|e] c1]; simpl in *.
    + assert (Hdecl1 : forallb (declared_in c1) tables = true).
      { apply forallb_forall. intros t' _. unfold declared_in. rewrite Htx', Hfile'.
        destruct (table_name_eq_dec t' t) as [-> | Hne'].
        - rewrite table_of_set_table. exact Hd.
        - rewrite (table_of_set_table_other _ _ _ _ Hne').
          destruct (Hall t') as (x' & -> & Hd'). exact Hd'. }
      destruct Hts as [Heq | Hts]; [congruence|].
      destruct (IH Hts c1 Hdecl1) as (Hr & Ht1 & Hc1).
      split; [exact Hr|]. split; [exact Ht1|].
      rewrite Hc1, Hfile'. apply table_of_set_table_other. congruence.
    + rewrite Hfile'. auto.
Qed.

(** C10. Fail closed on a missing patient reference: [create_tables] on a
    new connection declares the five tables with their constraints and turns
    foreign-key enforcement on; and on a connection in that state (tables
    declared, no open transaction), when a record of a child frame has a null
    patient reference [load_data] raises, leaves no transaction open, and
    leaves the table of that frame as it was: the record is not inserted. *)
Theorem load_fails_closed_on_null_reference :
  (forallb (declared_in (snd (create_tables connect_new))) tables = true /\
   foreign_keys (snd (create_tables connect_new)) = true) /\
  (forall (dfs : dataframes) (conn : connection) (c : table_name) (r : row),
     forallb (declared_in conn) tables = true ->
     is_child c = true ->
     In r (frame dfs c) ->
     cell r "patient_id" = JNull ->
     exists e conn',
       load_data dfs conn = (Raise e, conn') /\
       tx conn' = None /\
       table_of (file conn') c = table_of (file conn) c).
Proof.
  split; [split; reflexivity|].
  intros dfs conn c r Hdecl Hc Hin Hn.
  assert (Hts : In c tables) by (destruct c; simpl; auto 6).
  destruct (load_seq_null dfs commit c r tables Hc Hin Hn Hts conn Hdecl)
    as (Hr & Htx & Hfile).
  rewrite load_data_unfold. unfold try_except.
  destruct (load_seq dfs tables commit conn) as [[[]|e] c1]; [discriminate|].
  simpl in *. exists e. eexists. split; [reflexivity|].
  simpl. split; [reflexivity | exact Hfile].
Qed.

(** Loading a sequence of existing tables: it fails with no open
    transaction, or it reaches [k] with every frame appended to its table in
    the file. *)
Lemma load_seq_run (dfs : dataframes) (k : M connection unit) (ts : list table_name) :
  forall conn,
    tx conn = None ->
    (forall t, In t ts -> table_of (file conn) t <> None) ->
    (exists e c', load_seq dfs ts k conn = (Raise e, c') /\ tx c' = None) \/
    (exists c1, load_seq dfs ts k conn = k c1 /\
                tx c1 = None /\
                foreign_keys c1 = foreign_keys conn /\
                file c1 =
                  fold_left
                    (fun db t =>
                       match table_of db t with
                       | Some x => set_table db t (with_rows x (frame dfs t))
                       | None => db
                       end) ts (file conn)).
Proof.
  induction ts as [|t rest IH]; intros conn Htx Hex.
  - right. exists conn. simpl. auto.
  - destruct (table_of (file conn) t) as [x|] eqn:Hx;
      [|exfalso; apply (Hex t); [now left | exact Hx]].
    destruct (to_sql_existing (frame dfs t) t conn x Htx Hx) as (Htx' & Hfk' & Hfile').
    cbn [load_seq fold_left]. unfold bind at 1 2. rewrite Hx.
    destruct (to_sql (frame dfs t) t conn) as [[[]|e] c1]; simpl in *.
    + destruct (IH c1 Htx') as [(e & c' & Hrun & Ht') | (c2 & Hrun & Ht2 & Hfk2 & Hf2)].
      * intros t' Hin. rewrite Hfile'.
        destruct (table_name_eq_dec t' t) as [-> | Hne].
        -- rewrite table_of_set_table. discriminate.
        -- rewrite (table_of_set_table_other _ _ _ _ Hne). apply Hex. now right.
      * left. exists e, c'. auto.
      * right. exists c2. rewrite Hrun, Hf2, Hfile', Hfk2, Hfk'. auto.
    + left. exists e, c1. auto.
Qed.

(** [verify_load] only reads: it answers with the verdict on what the
    connection sees and leaves the connection as it is. *)
Lemma count_check_run (dfs : dataframes) (ts : list table_name) :
  forall all_match conn,
    (forall t, In t ts -> table_of (current conn) t <> None) ->
    count_check dfs ts all_match conn =
      (Ok (all_match &&
           forallb (fun t => Nat.eqb (List.length (rows_of (current conn) t))
                                     (List.length (frame dfs t))) ts), conn).
Proof.
  induction ts as [|t rest IH]; intros all_match conn Hex.
  - simpl. unfold ret. now rewrite andb_true_r.
  - cbn [count_check forallb]. unfold bind, select_count, rows_of.
    destruct (table_of (current conn) t) as [x|] eqn:Hx;
      [|exfalso; apply (Hex t); [now left | exact Hx]].
    destruct (Nat.eqb (List.length (rows x)) (List.length (frame dfs t)));
      rewrite IH by (intros t' Hin; apply Hex; now right); simpl.
    + reflexivity.
    + now rewrite andb_false_r.
Qed.

Lemma count_check_conn (dfs : dataframes) (ts : list table_name) :
  forall all_match conn, snd (count_check dfs ts all_match conn) = conn.
Proof.
  induction ts as [|t rest IH]; intros all_match conn; [reflexivity|].
  cbn [count_check]. unfold bind, select_count.
  destruct (table_of (current conn) t); [|reflexivity].
  destruct (Nat.eqb _ _); apply IH.
Qed.

Lemma verify_load_conn (dfs : dataframes) (conn : connection) :
  snd (verify_load dfs conn) = conn.
Proof.
  unfold verify_load, bind.
  pose proof (count_check_conn dfs tables true conn) as H.
  destruct (count_check dfs tables true conn) as [[b|e] c]; simpl in H; subst c;
    [|reflexivity].
  destruct (negb b); [reflexivity|].
  unfold select_sample.
  destruct (table_of (current conn) patients), (table_of (current conn) conditions),
    (table_of (current conn) observations), (table_of (current conn) encounters),
    (table_of (current conn) medication_requests); try reflexivity.
  destruct (firstn 5 (rows t)); reflexivity.
Qed.

Lemma verify_load_verdict (dfs : dataframes) (conn : connection) :
  (forall t, table_of (current conn) t <> None) ->
  verify_load dfs conn = (verdict dfs (current conn), conn).
Proof.
  intros Hex. unfold verify_load, bind at 1.
  rewrite count_check_run by (intros t _; apply Hex).
  cbn [andb]. unfold verdict, counts_match.
  destruct (forallb _ tables); cbn [negb]; [|reflexivity].
  unfold bind, select_sample, rows_of.
  pose proof (Hex patients) as Hp. pose proof (Hex conditions) as Hc.
  pose proof (Hex observations) as Ho. pose proof (Hex encounters) as He.
  pose proof (Hex medication_requests) as Hm.
  destruct (table_of (current conn) patients) as [p|]; [|congruence].
  destruct (table_of (current conn) conditions); [|congruence].
  destruct (table_of (current conn) observations); [|congruence].
  destruct (table_of (current conn) encounters); [|congruence].
  destruct (table_of (current conn) medication_requests); [|congruence].
  destruct (rows p) as [|r0 rest]; reflexivity.
Qed.

(** *** Row order *)

Lemma same_key_sym (a b : json) : same_key a b = same_key b a.
Proof.
  destruct a, b; simpl; try reflexivity.
  - now destruct b, b0.
  - apply Z.eqb_sym.
  - destruct f, f0; simpl; try reflexivity.
    + now destruct s, s0.
    + now destruct s, s0.
    + rewrite (Pos.eqb_sym m m0), (Z.eqb_sym e e0). now destruct s, s0.
  - apply String.eqb_sym.
Qed.

Lemma has_key_perm (k : json) (rs rs' : list row) :
  Permutation rs rs' -> has_key k rs = has_key k rs'.
Proof.
  unfold has_key. induction 1; simpl.
  - reflexivity.
  - now rewrite IHPermutation.
  - now rewrite !orb_assoc, (orb_comm (same_key (cell y "id") k)).
  - congruence.
Qed.

Lemma has_key_app (k : json) (rs : list row) (r : row) :
  has_key k (rs ++ [r]) = has_key k rs || same_key (cell r "id") k.
Proof. unfold has_key. rewrite existsb_app. simpl. now rewrite orb_false_r. Qed.

Lemma table_equiv_refl (x : option table) : table_equiv x x.
Proof. destruct x; simpl; auto. Qed.

Lemma db_equiv_refl (db : database) : db_equiv db db.
Proof. split; [reflexivity | intros t; apply table_equiv_refl]. Qed.

Lemma db_equiv_set_table (d1 d2 : database) (t : table_name) (a b : table) :
  db_equiv d1 d2 ->
  declared a = declared b ->
  Permutation (rows a) (rows b) ->
  db_equiv (set_table d1 t a) (set_table d2 t b).
Proof.
  intros [Hi Ht] Hd Hp. split.
  - destruct t; exact Hi.
  - intros t'. destruct (table_name_eq_dec t' t) as [-> | Hne].
    + rewrite !table_of_set_table. now split.
    + rewrite !(table_of_set_table_other _ _ _ _ Hne). apply Ht.
Qed.

(** One insert answers alike on two equivalent stores and keeps them
    equivalent. *)
Lemma insert_row_equiv (fk : bool) (d1 d2 : database) (t : table_name) (r : row) :
  db_equiv d1 d2 ->
  raises (insert_row fk d1 t r) = raises (insert_row fk d2 t r) /\
  (forall d1' d2', insert_row fk d1 t r = Ok d1' -> insert_row fk d2 t r = Ok d2' ->
                   db_equiv d1' d2').
Proof.
  intros Heq. pose proof Heq as [Hi Ht].
  assert (Hres : forall d1' d2', insert_row fk d1 t r = Ok d1' ->
                   insert_row fk d2 t r = Ok d2' -> db_equiv d1' d2').
  { intros d1' d2' H1 H2.
    apply insert_row_ok in H1 as (x & Hx & ->).
    apply insert_row_ok in H2 as (y & Hy & ->).
    pose proof (Ht t) as Hxy. rewrite Hx, Hy in Hxy. destruct Hxy as [Hd Hp].
    apply db_equiv_set_table; [exact Heq | exact Hd |].
    simpl. now apply Permutation_app_tail. }
  split; [|exact Hres].
  unfold insert_row.
  pose proof (Ht t) as Hxy.
  destruct (table_of d1 t) as [x|], (table_of d2 t) as [y|]; simpl in Hxy;
    try contradiction; [|reflexivity].
  destruct (bind_error r); [reflexivity|].
  destruct Hxy as [Hd Hp]. rewrite <- Hd.
  destruct (negb (declared x)); [reflexivity|].
  destruct (is_child t && is_null (cell r "patient_id")); [reflexivity|].
  rewrite <- (has_key_perm _ _ _ Hp).
  destruct (has_key (cell r "id") (rows x)); [reflexivity|].
  destruct (is_child t && fk); [|reflexivity].
  pose proof (Ht patients) as Hpp.
  destruct (table_of d1 patients) as [p|], (table_of d2 patients) as [q|];
    simpl in Hpp; try contradiction; [|reflexivity].
  destruct Hpp as [Hdp Hpp]. rewrite <- Hdp.
  destruct (negb (declared p)); [reflexivity|].
  rewrite <- (has_key_perm _ _ _ Hpp).
  destruct (has_key (cell r "patient_id") (rows p)); reflexivity.
Qed.

Lemma insert_all_equiv (fk : bool) (t : table_name) (l : list row) :
  forall d1 d2,
    db_equiv d1 d2 ->
    raises (insert_all fk d1 t l) = raises (insert_all fk d2 t l).
Proof.
  induction l as [|r rest IH]; intros d1 d2 Heq; [reflexivity|].
  simpl. destruct (insert_row_equiv fk d1 d2 t r Heq) as [Hr Hres].
  destruct (insert_row fk d1 t r) as [d1'|e1], (insert_row fk d2 t r) as [d2'|e2];
    simpl in *; try discriminate; [|reflexivity].
  apply IH. now apply Hres.
Qed.

(** After a row went into a table, a second row is refused when it was
    refused before or when its identifier is the first row's. *)
Lemma insert_row_after (fk : bool) (db : database) (t : table_name) (x : table)
    (r0 r : row) :
  table_of db t = Some x ->
  raises (insert_row fk (set_table db t (with_rows x [r0])) t r) =
    raises (insert_row fk db t r) ||
    (declared x && same_key (cell r0 "id") (cell r "id")).
Proof.
  intros Hx. unfold insert_row. rewrite table_of_set_table, Hx.
  cbn [declared rows with_rows]. rewrite has_key_app.
  destruct (bind_error r); [reflexivity|].
  destruct (declared x); cbn [negb andb]; [|reflexivity].
  destruct (is_child t && is_null (cell r "patient_id")); [reflexivity|].
  destruct (has_key (cell r "id") (rows x)); [reflexivity|]. cbn [orb].
  destruct (same_key (cell r0 "id") (cell r "id")).
  - cbn [raises]. now rewrite orb_true_r.
  - rewrite orb_false_r.
    destruct (is_child t) eqn:Hc; cbn [andb]; [|reflexivity].
    destruct fk; [|reflexivity].
    rewrite (table_of_patients_after _ _ _ Hc).
    destruct (table_of db patients) as [p|]; [|reflexivity].
    destruct (negb (declared p)); [reflexivity|].
    destruct (has_key (cell r "patient_id") (rows p)); reflexivity.
Qed.

Lemma insert_all_swap (fk : bool) (db : database) (t : table_name) (a b : row)
    (l : list row) :
  raises (insert_all fk db t (a :: b :: l)) = raises (insert_all fk db t (b :: a :: l)).
Proof.
  cbn [insert_all res_bind].
  destruct (insert_row fk db t a) as [da|ea] eqn:Ha;
    destruct (insert_row fk db t b) as [d_b|eb] eqn:Hb; cbn [res_bind].
  - pose proof Ha as Ha'. pose proof Hb as Hb'.
    apply insert_row_ok in Ha' as (x & Hx & ->).
    apply insert_row_ok in Hb' as (y & Hy & ->).
    rewrite Hx in Hy. inversion Hy; subst y.
    pose proof (insert_row_after fk db t x a b Hx) as Hab.
    pose proof (insert_row_after fk db t x b a Hx) as Hba.
    rewrite Hb in Hab. rewrite Ha in Hba. cbn [raises orb] in Hab, Hba.
    rewrite (same_key_sym (cell b "id") (cell a "id")) in Hba.
    destruct (insert_row fk (set_table db t (with_rows x [a])) t b) as [dab|e1] eqn:H1;
      destruct (insert_row fk (set_table db t (with_rows x [b])) t a) as [dba|e2] eqn:H2;
      cbn [res_bind raises] in *; try congruence.
    apply insert_all_equiv.
    apply insert_row_ok in H1 as (x1 & Hx1 & ->).
    apply insert_row_ok in H2 as (x2 & Hx2 & ->).
    rewrite table_of_set_table in Hx1, Hx2.
    inversion Hx1; subst x1. inversion Hx2; subst x2.
    rewrite !set_table_twice.
    apply db_equiv_set_table; [apply db_equiv_refl | reflexivity |].
    simpl. rewrite <- !app_assoc. apply Permutation_app_head. simpl. apply perm_swap.
  - pose proof Ha as Ha'.
    apply insert_row_ok in Ha' as (x & Hx & ->).
    pose proof (insert_row_after fk db t x a b Hx) as Hab.
    rewrite Hb in Hab. cbn [raises orb] in Hab.
    destruct (insert_row fk (set_table db t (with_rows x [a])) t b); [discriminate|].
    reflexivity.
  - pose proof Hb as Hb'.
    apply insert_row_ok in Hb' as (x & Hx & ->).
    pose proof (insert_row_after fk db t x b a Hx) as Hba.
    rewrite Ha in Hba. cbn [raises orb] in Hba.
    destruct (insert_row fk (set_table db t (with_rows x [b])) t a); [discriminate|].
    reflexivity.
  - reflexivity.
Qed.

(** Whether a batch is accepted does not depend on the order of its rows. *)
Lemma insert_all_perm (fk : bool) (t : table_name) (l1 l2 : list row) :
  Permutation l1 l2 ->
  forall db, raises (insert_all fk db t l1) = raises (insert_all fk db t l2).
Proof.
  induction 1 as [|r l1 l2 _ IH|a b l|l1 l2 l3 _ IH1 _ IH2]; intros db.
  - reflexivity.
  - cbn [insert_all]. destruct (insert_row fk db t r); [apply IH | reflexivity].
  - apply insert_all_swap.
  - now rewrite IH1.
Qed.

Lemma executemany_raises (t : table_name) (data_list : list row) :
  forall conn,
    raises (fst (executemany t data_list conn)) =
    raises (insert_all (foreign_keys conn) (current conn) t data_list).
Proof.
  induction data_list as [|r rest IH]; intros conn; [reflexivity|].
  cbn [executemany insert_all]. unfold bind at 1, execute_insert.
  destruct (insert_row (foreign_keys conn) (current conn) t r); [|reflexivity].
  now rewrite IH.
Qed.

(** Whether [to_sql] into an existing table fails is whether its batch is
    refused. *)
Lemma to_sql_raises (df : dataframe) (t : table_name) (conn : connection) (x : table) :
  tx conn = None ->
  table_of (file conn) t = Some x ->
  raises (fst (to_sql df t conn)) =
    raises (insert_all (foreign_keys conn) (file conn) t df).
Proof.
  intros Htx Ht. rewrite to_sql_unfold. cbv zeta.
  assert (Hcur : current conn = file conn) by (unfold current; now rewrite Htx).
  rewrite Hcur, Ht. destruct df as [|r0 rest]; [reflexivity|].
  rewrite run_transaction_unfold.
  pose proof (executemany_raises t (r0 :: rest) conn) as H. rewrite Hcur in H.
  destruct (executemany t (r0 :: rest) conn) as [[[]|e] c']; exact H.
Qed.

(** Loading frames that differ in row order only: the two loads fail
    together or succeed together, and leave equivalent files. *)
Lemma load_seq_perm (dfs1 dfs2 : dataframes) (ts : list table_name) :
  frames_equiv dfs1 dfs2 ->
  forall c1 c2,
    tx c1 = None -> tx c2 = None ->
    foreign_keys c1 = foreign_keys c2 ->
    db_equiv (file c1) (file c2) ->
    (forall t, In t ts -> table_of (file c1) t <> None) ->
    raises (fst (load_seq dfs1 ts commit c1)) =
      raises (fst (load_seq dfs2 ts commit c2)) /\
    db_equiv (file (snd (load_seq dfs1 ts commit c1)))
             (file (snd (load_seq dfs2 ts commit c2))).
Proof.
  intros Hfr. induction ts as [|t rest IH]; intros c1 c2 Ht1 Ht2 Hfk Heq Hex.
  - simpl. unfold current. rewrite Ht1, Ht2. now split.
  - pose proof Heq as [_ Htab]. pose proof (Htab t) as Hxy.
    destruct (table_of (file c1) t) as [x|] eqn:Hx;
      [|exfalso; apply (Hex t); [now left | exact Hx]].
    destruct (table_of (file c2) t) as [y|] eqn:Hy; [|contradiction].
    destruct Hxy as [Hd Hp].
    destruct (to_sql_existing (frame dfs1 t) t c1 x Ht1 Hx) as (Htx1 & Hfk1 & Hf1).
    destruct (to_sql_existing (frame dfs2 t) t c2 y Ht2 Hy) as (Htx2 & Hfk2 & Hf2).
    pose proof (to_sql_raises (frame dfs1 t) t c1 x Ht1 Hx) as Hr1.
    pose proof (to_sql_raises (frame dfs2 t) t c2 y Ht2 Hy) as Hr2.
    rewrite (insert_all_perm _ t _ _ (Hfr t)) in Hr1.
    rewrite (insert_all_equiv _ t _ _ _ Heq), Hfk in Hr1. rewrite <- Hr2 in Hr1.
    cbn [load_seq]. unfold bind at 1 2 3 4.
    destruct (to_sql (frame dfs1 t) t c1) as [[[]|e1] c1'];
      destruct (to_sql (frame dfs2 t) t c2) as [[[]|e2] c2'];
      simpl in *; try discriminate.
    + apply IH; try assumption.
      * congruence.
      * rewrite Hf1, Hf2. apply db_equiv_set_table; [exact Heq | exact Hd |].
        simpl. apply Permutation_app; [exact Hp | apply Hfr].
      * intros t' Hin. rewrite Hf1.
        destruct (table_name_eq_dec t' t) as [-> | Hne].
        -- rewrite table_of_set_table. discriminate.
        -- rewrite (table_of_set_table_other _ _ _ _ Hne). apply Hex. now right.
    + rewrite Hf1, Hf2. now split.
Qed.

Lemma load_data_perm (dfs1 dfs2 : dataframes) :
  frames_equiv dfs1 dfs2 ->
  raises (fst (load_data dfs1 fresh_schema)) =
    raises (fst (load_data dfs2 fresh_schema)) /\
  db_equiv (file (snd (load_data dfs1 fresh_schema)))
           (file (snd (load_data dfs2 fresh_schema))).
Proof.
  intros Hfr.
  destruct (load_seq_perm dfs1 dfs2 tables Hfr fresh_schema fresh_schema
              eq_refl eq_refl eq_refl (db_equiv_refl _)) as [Hr He].
  { intros t _. destruct t; discriminate. }
  rewrite !load_data_unfold. unfold try_except.
  destruct (load_seq dfs1 tables commit fresh_schema) as [[[]|e1] c1];
    destruct (load_seq dfs2 tables commit fresh_schema) as [[[]|e2] c2];
    simpl in *; try discriminate; now split.
Qed.

(** *** The whole run *)

Lemma parse_fhir_data_run (out : list line) :
  exists out', parse_fhir_data out = (Ok parsed_frames, out').
Proof.
  unfold parse_fhir_data, bind.
  destruct (parser_tolerant "patients" patient_entry framed_patient_entry
              glob_fhir out) as (l1 & H1 & _).
  unfold parse_patients. rewrite H1.
  destruct (parser_tolerant "conditions" condition_entry framed_condition_entry
              glob_fhir (out ++ l1)) as (l2 & H2 & _).
  unfold parse_conditions. rewrite H2.
  destruct (parser_tolerant "observations" observation_entry framed_observation_entry
              glob_fhir ((out ++ l1) ++ l2)) as (l3 & H3 & _).
  unfold parse_observations. rewrite H3.
  destruct (parser_tolerant "encounters" encounter_entry framed_encounter_entry
              glob_fhir (((out ++ l1) ++ l2) ++ l3)) as (l4 & H4 & _).
  unfold parse_encounters. rewrite H4.
  destruct (parser_tolerant "medication requests" medication_request_entry
              framed_medication_request_entry
              glob_fhir ((((out ++ l1) ++ l2) ++ l3) ++ l4)) as (l5 & H5 & _).
  unfold parse_medication_requests. rewrite H5.
  eexists. reflexivity.
Qed.

(** The outcome of a run depends on the documents only, not on the state it
    starts from. *)
Lemma main_run (w : world) :
  exists out,
    main w =
      (fst (build parsed_frames connect_new),
       {| db_file := Some (file (snd (build parsed_frames connect_new)));
          console := out |}).
Proof.
  unfold main.
  assert (Hfile : db_file (remove_existing w) = None)
    by (unfold remove_existing; destruct (db_file w) eqn:H; [reflexivity | exact H]).
  destruct (parse_fhir_data_run (console (remove_existing w))) as (out & ->).
  rewrite Hfile. exists out. change (connect None) with connect_new.
  now destruct (build parsed_frames connect_new).
Qed.

Lemma counts_match_built (dfs : dataframes) : counts_match dfs (built_database dfs) = true.
Proof. unfold counts_match. simpl. now rewrite !Nat.eqb_refl. Qed.

(** When the load goes through, the build ends with the verdict of the
    verification on the database it built, and that database is the file. *)
Lemma build_loaded (dfs : dataframes) :
  fst (load_data dfs fresh_schema) = Ok tt ->
  fst (build dfs connect_new) = verdict dfs (built_database dfs) /\
  file (snd (build dfs connect_new)) = built_database dfs.
Proof.
  intros Hload.
  assert (Hstep : exists h,
            load_data dfs fresh_schema =
              (Ok tt, {| file := fold_left
                           (fun db t =>
                              match table_of db t with
                              | Some x => set_table db t (with_rows x (frame dfs t))
                              | None => db
                              end) tables (file fresh_schema);
                         tx := None; foreign_keys := true; history := h |})).
  { rewrite load_data_unfold in *. unfold try_except in *.
    destruct (load_seq_run dfs commit tables fresh_schema eq_refl)
      as [(e & c' & Hrun & _) | (c1 & Hrun & Htx & Hfk & Hfile)].
    - intros t _. destruct t; discriminate.
    - rewrite Hrun in Hload. discriminate.
    - rewrite Hrun. destruct c1 as [f t k h]. simpl in Htx, Hfk, Hfile. subst.
      eexists. reflexivity. }
  destruct Hstep as (h & Hstep).
  assert (Hb : build dfs connect_new =
                 (verdict dfs (built_database dfs),
                  {| file := built_database dfs; tx := None;
                     foreign_keys := true; history := h ++ [Committed] |})).
  { unfold build, try_finally, try_except.
    unfold bind at 1. change (create_tables connect_new) with (Ok tt, fresh_schema).
    unfold bind at 1. rewrite Hstep.
    unfold bind at 1.
    match goal with
    | |- context [create_indexes ?c] =>
        replace (create_indexes c)
          with (Ok tt, {| file := built_database dfs; tx := None;
                          foreign_keys := true; history := h ++ [Committed] |})
          by reflexivity
    end.
    rewrite verify_load_verdict by (intros t; destruct t; discriminate).
    unfold current. cbn [tx file].
    destruct (verdict dfs (built_database dfs)) as [[]|e]; reflexivity. }
  rewrite Hb. split; reflexivity.
Qed.

Lemma verdict_built (dfs : dataframes) :
  verdict dfs (built_database dfs) =
    match df_patients dfs with
    | [] => Raise (PyException "Foreign key relationship test failed!")
    | _ :: _ => Ok tt
    end.
Proof. unfold verdict. rewrite counts_match_built. reflexivity. Qed.

Lemma build_load_failed (dfs : dataframes) :
  raises (fst (load_data dfs fresh_schema)) = true ->
  raises (fst (build dfs connect_new)) = true /\
  file (snd (build dfs connect_new)) = file (snd (load_data dfs fresh_schema)).
Proof.
  assert (Hb : forall e c, load_data dfs fresh_schema = (Raise e, c) ->
                           build dfs connect_new = (Raise e, close c)).
  { intros e c H. unfold build, try_finally, try_except.
    unfold bind at 1. change (create_tables connect_new) with (Ok tt, fresh_schema).
    unfold bind at 1. rewrite H. reflexivity. }
  destruct (load_data dfs fresh_schema) as [[[]|e] c]; [discriminate|].
  intros _. rewrite (Hb e c eq_refl). now split.
Qed.

Lemma built_database_equiv (dfs1 dfs2 : dataframes) :
  frames_equiv dfs1 dfs2 -> db_equiv (built_database dfs1) (built_database dfs2).
Proof.
  intros Hfr. split; [reflexivity|].
  intros t. destruct t; simpl; (split; [reflexivity|]).
  - apply (Hfr patients).
  - apply (Hfr conditions).
  - apply (Hfr observations).
  - apply (Hfr encounters).
  - apply (Hfr medication_requests).
Qed.

(** Frames that differ in row order only build equivalent files, and both
    builds fail or both succeed. *)
Lemma build_perm (dfs1 dfs2 : dataframes) :
  frames_equiv dfs1 dfs2 ->
  raises (fst (build dfs1 connect_new)) = raises (fst (build dfs2 connect_new)) /\
  db_equiv (file (snd (build dfs1 connect_new))) (file (snd (build dfs2 connect_new))).
Proof.
  intros Hfr. destruct (load_data_perm dfs1 dfs2 Hfr) as [Hr He].
  destruct (raises (fst (load_data dfs1 fresh_schema))) eqn:H1.
  - destruct (build_load_failed dfs1 H1) as [-> ->].
    destruct (build_load_failed dfs2 (eq_sym Hr)) as [-> ->]. now split.
  - assert (Hok : forall dfs, raises (fst (load_data dfs fresh_schema)) = false ->
                              fst (load_data dfs fresh_schema) = Ok tt).
    { intros dfs H. destruct (fst (load_data dfs fresh_schema)) as [[]|e];
        [reflexivity | discriminate]. }
    destruct (build_loaded dfs1 (Hok dfs1 H1)) as [-> ->].
    destruct (build_loaded dfs2 (Hok dfs2 (eq_sym Hr))) as [-> ->].
    split; [|now apply built_database_equiv].
    rewrite !verdict_built. pose proof (Hfr patients) as Hp. simpl in Hp.
    destruct (df_patients dfs1) as [|r1 l1], (df_patients dfs2) as [|r2 l2];
      try reflexivity.
    + apply Permutation_nil in Hp. discriminate.
    + apply Permutation_sym, Permutation_nil in Hp. discriminate.
Qed.

(** C1, as amended. When the verification detects a row-count mismatch or
    an empty join, [verify_load] raises and [main] ends with that error; the
    verification only reads, and nothing is rolled back or removed: after a
    run whose load went through, the database file holds the schema, the
    indexes and every row loaded during that run, whether the verification
    passed or failed.  In such a run the counts always agree, so the
    verification fails exactly when no patient was loaded. *)
Theorem verification_failure_keeps_store :
  (forall dfs conn,
     (forall t, table_of (current conn) t <> None) ->
     verify_load dfs conn = (verdict dfs (current conn), conn)) /\
  (forall dfs conn, snd (verify_load dfs conn) = conn) /\
  (forall w,
     fst (load_data parsed_frames fresh_schema) = Ok tt ->
     exists out,
       main w = (verdict parsed_frames (built_database parsed_frames),
                 {| db_file := Some (built_database parsed_frames);
                    console := out |})) /\
  (forall dfs,
     verdict dfs (built_database dfs) =
       match df_patients dfs with
       | [] => Raise (PyException "Foreign key relationship test failed!")
       | _ :: _ => Ok tt
       end).
Proof.
  split; [exact verify_load_verdict|]. split; [exact verify_load_conn|]. split.
  - intros w Hload. destruct (main_run w) as (out & ->).
    destruct (build_loaded parsed_frames Hload) as (-> & ->).
    now exists out.
  - exact verdict_built.
Qed.

(** A run does not look at what was there before: its outcome and the file
    it leaves are those of the build over the parsed frames. *)
Lemma main_ignores_prior (w : world) :
  fst (main w) = fst (build parsed_frames connect_new) /\
  db_file (snd (main w)) = Some (file (snd (build parsed_frames connect_new))).
Proof. destruct (main_run w) as (out & ->). now split. Qed.

(** ** Further properties of the extractors *)

Lemma append_empty_r (s : string) : (s ++ "")%string = s.
Proof. induction s as [|c s IH]; simpl; [reflexivity | now rewrite IH]. Qed.

Lemma append_snoc (cur : string) (c : ascii) (s : string) :
  ((cur ++ String c "") ++ s)%string = (cur ++ String c s)%string.
Proof. induction cur as [|a cur IH]; simpl; [reflexivity | now rewrite IH]. Qed.

Lemma prefix_nil (s : string) : prefix "" s = true.
Proof. now destruct s. Qed.

Lemma split_go_nonempty (sep : string) (s : string) :
  forall skip cur, split_go sep skip cur s <> [].
Proof.
  induction s as [|c s IH]; intros skip cur; cbn [split_go]; [easy|].
  destruct skip; [|apply IH].
  destruct (prefix sep (String c s)); [easy | apply IH].
Qed.

(** A string without the separator is its own single piece. *)
Lemma split_go_absent (sep : string) (s : string) :
  forall cur, substring_of sep s = false ->
              split_go sep 0 cur s = [(cur ++ s)%string].
Proof.
  induction s as [|c s IH]; intros cur H.
  - simpl. now rewrite append_empty_r.
  - cbn [substring_of] in H. apply orb_false_elim in H as [Hp Hs].
    cbn [split_go]. rewrite Hp, (IH _ Hs). now rewrite append_snoc.
Qed.

Lemma last_cons_nonempty {A} (x d : A) (l : list A) :
  l <> [] -> last (x :: l) d = last l d.
Proof. destruct l; [congruence | reflexivity]. Qed.

(** With a one-character separator, the last piece of [pre ++ sep ++ id] is
    [id] when [id] is free of the separator. *)
Lemma split_go_last_char (c : ascii) (id : string) (pre : string) :
  substring_of (String c "") id = false ->
  forall cur,
    last (split_go (String c "") 0 cur (pre ++ String c id)%string) "" = id.
Proof.
  intros Hid. induction pre as [|a pre IH]; intros cur.
  - cbn [append split_go prefix]. destruct (ascii_dec c c) as [_|Hn]; [|congruence].
    rewrite prefix_nil. cbn [String.length Nat.sub].
    rewrite (split_go_absent _ _ _ Hid). reflexivity.
  - cbn [append split_go prefix]. destruct (ascii_dec c a) as [_|_].
    + rewrite prefix_nil. cbn [String.length Nat.sub].
      rewrite last_cons_nonempty by apply split_go_nonempty. apply IH.
    + apply IH.
Qed.

Lemma prefix_append (s x : string) : prefix s (s ++ x)%string = true.
Proof.
  induction s as [|c s IH]; cbn [append prefix]; [apply prefix_nil|].
  destruct (ascii_dec c c); [exact IH | congruence].
Qed.

Lemma substring_of_append (sep pre x : string) :
  substring_of sep (pre ++ sep ++ x)%string = true.
Proof.
  induction pre as [|a pre IH].
  - cbn [append]. destruct (sep ++ x)%string eqn:H; cbn [substring_of];
      rewrite <- H, prefix_append; reflexivity.
  - cbn [append substring_of]. rewrite IH. apply orb_true_r.
Qed.

(** X1. The reference resolver gives back the bare identifier: from
    "urn:uuid:" followed by an identifier free of that marker, and from a
    path ending in "/" and an identifier free of "/", when the path holds no
    URN marker. *)
Theorem extract_reference_id_identifier :
  (forall kvs id,
     assoc "reference" kvs = Some (JStr ("urn:uuid:" ++ id)%string) ->
     substring_of "urn:uuid:" id = false ->
     extract_reference_id (JObj kvs) = Ok (JStr id)) /\
  (forall kvs pre id,
     assoc "reference" kvs = Some (JStr (pre ++ "/" ++ id)%string) ->
     substring_of "urn:uuid:" (pre ++ "/" ++ id)%string = false ->
     substring_of "/" id = false ->
     extract_reference_id (JObj kvs) = Ok (JStr id)).
Proof.
  split.
  - intros kvs id Hk Hid. unfold extract_reference_id.
    destruct kvs as [|kv kvs']; [discriminate|]. cbn [truthy negb].
    unfold get. rewrite Hk. cbn [res_bind contains].
    replace (substring_of "urn:uuid:" ("urn:uuid:" ++ id)%string) with true
      by (symmetry; apply (substring_of_append "urn:uuid:" "" id)).
    cbn [res_bind split_last]. unfold str_split.
    cbn. rewrite prefix_nil. cbn.
    rewrite (split_go_absent _ _ _ Hid). reflexivity.
  - intros kvs pre id Hk Hurn Hid. unfold extract_reference_id.
    destruct kvs as [|kv kvs']; [discriminate|]. cbn [truthy negb].
    unfold get. rewrite Hk. cbn [res_bind contains]. rewrite Hurn.
    cbn [res_bind]. rewrite (substring_of_append "/" pre id).
    cbn [split_last]. unfold str_split.
    change (pre ++ "/" ++ id)%string with (pre ++ String "/" id)%string.
    now rewrite (split_go_last_char "/" id pre Hid).
Qed.


(** X2. A negative index is not caught by the length test of the
    coded-concept resolver: on a non-empty coding list it counts from the
    end, and beyond the start of the list the resolver raises [IndexError]. *)
Theorem safe_get_coding_negative_index
    (kvs : list (string * json)) (l : list json) (i : Z) :
  assoc "coding" kvs = Some (JList l) ->
  l <> [] ->
  (i < 0)%Z ->
  ((i < - Z.of_nat (List.length l))%Z ->
     safe_get_coding (JObj kvs) i = Raise IndexError) /\
  (forall e,
     (- Z.of_nat (List.length l) <= i)%Z ->
     nth_error l (Z.to_nat (Z.of_nat (List.length l) + i)) = Some (JObj e) ->
     safe_get_coding (JObj kvs) i = Ok (cell e "code", cell e "display")).
Proof.
  intros Hk Hl Hi. destruct l as [|x l]; [congruence|].
  rewrite (safe_get_coding_cons _ _ _ _ Hk).
  replace (Z.of_nat (List.length (x :: l)) <=? i)%Z with false
    by (symmetry; apply Z.leb_gt; lia).
  unfold seq_index.
  replace (i <? 0)%Z with true by (symmetry; apply Z.ltb_lt; lia).
  split.
  - intros Hlow.
    replace (0 <=? Z.of_nat (List.length (x :: l)) + i)%Z with false
      by (symmetry; apply Z.leb_gt; lia).
    reflexivity.
  - intros e Hlow Hnth.
    replace (0 <=? Z.of_nat (List.length (x :: l)) + i)%Z with true
      by (symmetry; apply Z.leb_le; lia).
    replace (Z.of_nat (List.length (x :: l)) + i <? Z.of_nat (List.length (x :: l)))%Z
      with true by (symmetry; apply Z.ltb_lt; lia).
    cbn [andb]. rewrite Hnth. reflexivity.
Qed.

Lemma inner_text_found (ipre ipost : list json) (t : list (string * json)) :
  forallb not_text ipre = true ->
  assoc "url" t = Some (JStr "text") ->
  inner_text (ipre ++ JObj t :: ipost) = Ok (Some (cell t "valueString")).
Proof.
  intros Hpre Ht. induction ipre as [|x ipre IH].
  - cbn [app inner_text]. unfold get at 1. rewrite Ht. reflexivity.
  - cbn [forallb] in Hpre. apply andb_prop in Hpre as [Hx Hrest].
    destruct x as [| | | | | |e]; try discriminate.
    cbn [app inner_text]. rewrite get_cell. cbn [res_bind].
    cbn [not_text] in Hx. apply negb_true_iff in Hx. rewrite Hx. now apply IH.
Qed.

Lemma extension_text_found (marker : string) (pre post ipre ipost : list json)
    (e t : list (string * json)) (u : string) :
  substring_of marker "" = false ->
  forallb (other_extension marker) pre = true ->
  assoc "url" e = Some (JStr u) ->
  substring_of marker u = true ->
  assoc "extension" e = Some (JList (ipre ++ JObj t :: ipost)) ->
  forallb not_text ipre = true ->
  assoc "url" t = Some (JStr "text") ->
  extension_text marker (pre ++ JObj e :: post) = Ok (cell t "valueString").
Proof.
  intros Hm Hpre Hu Hhit Hinner Hipre Ht. induction pre as [|x pre IH].
  - cbn [app extension_text]. unfold get at 1. rewrite Hu.
    cbn [res_bind contains]. rewrite Hhit. unfold get at 1. rewrite Hinner.
    cbn [res_bind iter]. now rewrite (inner_text_found ipre ipost t Hipre Ht).
  - cbn [forallb] in Hpre. apply andb_prop in Hpre as [Hx Hrest].
    destruct x as [| | | | | |e0]; try discriminate.
    cbn [app extension_text]. unfold get at 1. cbn [other_extension] in Hx.
    destruct (assoc "url" e0) as [[| | | |u0| |]|]; try discriminate.
    + cbn [res_bind contains]. apply negb_true_iff in Hx. rewrite Hx. now apply IH.
    + cbn [res_bind contains]. rewrite Hm. now apply IH.
Qed.

(** X3. The race and ethnicity resolvers do not depend on where the value
    sits: past any number of extensions of another kind, in the first
    extension whose URL holds the marker, past any number of nested
    extensions that are not the "text" one, the string value of the "text"
    extension is what they return. *)
Theorem categorical_extension_found
    (kvs : list (string * json)) (pre post ipre ipost : list json)
    (e t : list (string * json)) (u : string) :
  assoc "extension" kvs = Some (JList (pre ++ JObj e :: post)) ->
  assoc "url" e = Some (JStr u) ->
  assoc "extension" e = Some (JList (ipre ++ JObj t :: ipost)) ->
  forallb not_text ipre = true ->
  assoc "url" t = Some (JStr "text") ->
  (forallb (other_extension "us-core-race") pre = true ->
   substring_of "us-core-race" u = true ->
   extract_race (JObj kvs) = Ok (cell t "valueString")) /\
  (forallb (other_extension "us-core-ethnicity") pre = true ->
   substring_of "us-core-ethnicity" u = true ->
   extract_ethnicity (JObj kvs) = Ok (cell t "valueString")).
Proof.
  intros Hk Hu Hinner Hipre Ht. split; intros Hpre Hhit.
  - unfold extract_race, get. rewrite Hk. cbn [res_bind iter].
    now apply (extension_text_found "us-core-race" pre post ipre ipost e t u).
  - unfold extract_ethnicity, get. rewrite Hk. cbn [res_bind iter].
    now apply (extension_text_found "us-core-ethnicity" pre post ipre ipost e t u).
Qed.

(** X4. Defaults and a failure of the patient record: without a name, or
    with an empty name list, the given and family names are empty strings,
    and without an address city and state are null; but a first name entry
    whose list of given names is empty makes the record raise [IndexError]. *)
Theorem patient_record_defaults (kvs : list (string * json)) :
  (forall race ethnicity,
     assoc "name" kvs = None \/ assoc "name" kvs = Some (JList []) ->
     assoc "address" kvs = None \/ assoc "address" kvs = Some (JList []) ->
     extract_race (JObj kvs) = Ok race ->
     extract_ethnicity (JObj kvs) = Ok ethnicity ->
     patient_record (JObj kvs) =
       Ok [("id", cell kvs "id"); ("given_name", JStr ""); ("family_name", JStr "");
           ("gender", cell kvs "gender"); ("birth_date", cell kvs "birthDate");
           ("race", race); ("ethnicity", ethnicity);
           ("city", JNull); ("state", JNull)]) /\
  (forall n names,
     assoc "name" kvs = Some (JList (JObj n :: names)) ->
     assoc "given" n = Some (JList []) ->
     patient_record (JObj kvs) = Raise IndexError).
Proof.
  split.
  - intros race ethnicity Hn Ha Hr He. unfold patient_record.
    unfold get at 1. destruct Hn as [-> | ->];
      (cbn -[extract_race extract_ethnicity assoc cell];
       destruct Ha as [-> | ->];
       cbn -[extract_race extract_ethnicity assoc cell];
       rewrite Hr, He; reflexivity).
  - intros n names Hn Hg. unfold patient_record. unfold get at 1. rewrite Hn.
    cbn -[extract_race extract_ethnicity assoc cell]. rewrite Hg. reflexivity.
Qed.


Lemma str_of_nat_inj (a b : nat) : str_of_nat a = str_of_nat b -> a = b.
Proof.
  unfold str_of_nat. intros H.
  apply DecimalNat.Unsigned.to_uint_inj.
  assert (Hs : Some (Nat.to_uint a) = Some (Nat.to_uint b))
    by (rewrite <- !NilEmpty.usu; now rewrite H).
  now inversion Hs.
Qed.

Lemma append_cancel_l (p a b : string) : (p ++ a)%string = (p ++ b)%string -> a = b.
Proof.
  induction p as [|c p IH]; simpl; intros H; [exact H|].
  inversion H. now apply IH.
Qed.

(** X5. The records fanned out of one observation have pairwise distinct
    identifiers: the positional suffix tells them apart. *)
Theorem fan_out_identifiers_distinct
    (kvs : list (string * json)) (comps : list json)
    (code display category patient_id : json) (st : pstate) :
  observation_head (JObj kvs) = Ok (code, display, category) ->
  assoc "valueQuantity" kvs = None ->
  assoc "valueCodeableConcept" kvs = None ->
  assoc "component" kvs = Some (JList comps) ->
  extract_reference_id (cell kvs "subject") = Ok patient_id ->
  forallb (fun comp => negb (raises (component_fields comp))) comps = true ->
  exists rs,
    observation_resource (JObj kvs) st = (Ok Continue, appended st rs) /\
    NoDup (map (fun r => cell r "id") rs).
Proof.
  intros Hhead Hk1 Hk2 Hk3 Hp Hok.
  destruct (for_components_run kvs category patient_id comps Hp Hok 0 st)
    as (rs & Hrun & Hlen & Hnth).
  exists rs. split.
  - rewrite (observation_resource_components kvs code display category st comps
               Hhead Hk1 Hk2 Hk3).
    unfold bind. rewrite Hrun. reflexivity.
  - assert (Hid : forall k, (k < List.length rs)%nat ->
              nth_error (map (fun r => cell r "id") rs) k =
                Some (JStr (py_str (cell kvs "id") ++ "-" ++ str_of_nat k))).
    { intros k Hk. rewrite Hlen in Hk.
      destruct (nth_error comps k) as [comp|] eqn:Hc;
        [|apply nth_error_None in Hc; lia].
      destruct (Hnth k comp Hc) as (c & d & v & u & _ & Hr).
      rewrite nth_error_map, Hr. reflexivity. }
    apply NoDup_nth_error. intros i j Hi Heq. rewrite length_map in Hi.
    rewrite (Hid i Hi) in Heq.
    assert (Hj : (j < List.length rs)%nat).
    { rewrite <- (length_map (fun r => cell r "id")).
      apply nth_error_Some. rewrite <- Heq. discriminate. }
    rewrite (Hid j Hj) in Heq. inversion Heq as [Hs].
    apply append_cancel_l in Hs. apply (append_cancel_l "-") in Hs.
    now apply str_of_nat_inj.
Qed.


(** ** Further properties of the parsers *)

Lemma typed_not_skipped (rtype : string) (entry : json) (resource : json) :
  typed_resource rtype entry = Some resource -> skipped_by rtype entry = false.
Proof.
  unfold typed_resource, skipped_by.
  destruct entry as [| | | | | |ekvs]; try discriminate.
  destruct (assoc "resource" ekvs) as [[| | | | | |kvs]|]; try discriminate.
  destruct (eq_str (cell kvs "resourceType") rtype); [reflexivity | discriminate].
Qed.

Lemma appended_nil (st : pstate) : appended st [] = st.
Proof. destruct st. unfold appended. simpl. now rewrite app_nil_r. Qed.

Lemma appended_app (st : pstate) (rs rs' : list row) :
  appended (appended st rs) rs' = appended st (rs ++ rs').
Proof. unfold appended. simpl. now rewrite app_assoc. Qed.

Lemma for_entries_pass (rtype : string) (record : json -> res row)
    (entry_body : json -> M pstate control) (entries : list json) :
  single_record_body rtype record entry_body ->
  forallb (entry_passes rtype record) entries = true ->
  forall st,
    for_entries entry_body entries st =
      (Ok tt, appended st (flat_map (rows_of_entry rtype record) entries)).
Proof.
  intros [Hskip Htyped]. induction entries as [|x rest IH]; intros Hok st.
  - cbn [for_entries flat_map]. unfold ret. now rewrite appended_nil.
  - cbn [forallb] in Hok. apply andb_prop in Hok as [Hx Hrest].
    cbn [for_entries flat_map]. unfold bind.
    unfold entry_passes in Hx. unfold rows_of_entry at 1.
    unfold entry_rows in *.
    destruct (skipped_by rtype x) eqn:Hs.
    + rewrite (Hskip x st Hs). now rewrite (IH Hrest st).
    + destruct (typed_resource rtype x) as [resource|] eqn:Ht; [|discriminate].
      rewrite (Htyped x resource st Ht).
      destruct (record resource) as [r|e]; [|discriminate].
      rewrite (IH Hrest). now rewrite appended_app.
Qed.

Lemma for_entries_fail (rtype : string) (record : json -> res row)
    (entry_body : json -> M pstate control) (pre post : list json) (bad resource : json)
    (e : exn) :
  single_record_body rtype record entry_body ->
  forallb (entry_passes rtype record) pre = true ->
  typed_resource rtype bad = Some resource ->
  record resource = Raise e ->
  forall st,
    for_entries entry_body (pre ++ bad :: post) st =
      (Raise e, appended st (flat_map (rows_of_entry rtype record) pre)).
Proof.
  intros [Hskip Htyped] Hpre Hbad Hrec. induction pre as [|x pre IH]; intros st.
  - cbn [app for_entries flat_map]. unfold bind.
    rewrite (Htyped bad resource st Hbad), Hrec. now rewrite appended_nil.
  - cbn [forallb] in Hpre. apply andb_prop in Hpre as [Hx Hrest].
    cbn [app for_entries flat_map]. unfold bind.
    unfold entry_passes in Hx. unfold rows_of_entry at 1.
    unfold entry_rows in *.
    destruct (skipped_by rtype x) eqn:Hs.
    + rewrite (Hskip x st Hs). now rewrite (IH Hrest st).
    + destruct (typed_resource rtype x) as [res|] eqn:Ht; [|discriminate].
      rewrite (Htyped x res st Ht).
      destruct (record res) as [r|e']; [|discriminate].
      rewrite (IH Hrest). now rewrite appended_app.
Qed.

Lemma rows_of_entry_length (rtype : string) (record : json -> res row)
    (entries : list json) :
  forallb (entry_passes rtype record) entries = true ->
  List.length (flat_map (rows_of_entry rtype record) entries) =
    List.length (filter (is_typed rtype) entries).
Proof.
  induction entries as [|x rest IH]; intros Hok; [reflexivity|].
  cbn [forallb] in Hok. apply andb_prop in Hok as [Hx Hrest].
  cbn [flat_map filter]. rewrite length_app, (IH Hrest).
  unfold entry_passes in Hx. unfold rows_of_entry, is_typed. unfold entry_rows in *.
  destruct (skipped_by rtype x) eqn:Hs.
  - destruct (typed_resource rtype x) as [res|] eqn:Ht; [|reflexivity].
    apply typed_not_skipped in Ht. congruence.
  - destruct (typed_resource rtype x) as [res|]; [|discriminate].
    destruct (record res); [reflexivity | discriminate].
Qed.

Lemma single_record_one_per_entry (rtype : string) (record : json -> res row)
    (entry_body : json -> M pstate control) :
  single_record_body rtype record entry_body ->
  one_record_per_entry rtype record entry_body.
Proof.
  intros Hb file_path bkvs entries Hread Hentry Hok.
  assert (Hrun : file_run entry_body file_path =
                   (Ok tt, appended {| records := []; stdout := [] |}
                             (flat_map (rows_of_entry rtype record) entries))).
  { unfold file_run, file_body, bind at 1, lift. rewrite Hread.
    unfold bind at 1, get. rewrite Hentry. unfold bind at 1, iter.
    apply (for_entries_pass rtype record entry_body entries Hb Hok). }
  unfold file_fails, file_records. rewrite Hrun. cbn [fst snd raises appended records app].
  repeat split. now apply rows_of_entry_length.
Qed.

Lemma single_record_keeps (rtype : string) (record : json -> res row)
    (entry_body : json -> M pstate control) :
  single_record_body rtype record entry_body ->
  keeps_records_before_failure rtype record entry_body.
Proof.
  intros Hb file_path bkvs pre bad post resource e Hread Hentry Hpre Hbad Hrec.
  assert (Hrun : file_run entry_body file_path =
                   (Raise e, appended {| records := []; stdout := [] |}
                               (flat_map (rows_of_entry rtype record) pre))).
  { unfold file_run, file_body, bind at 1, lift. rewrite Hread.
    unfold bind at 1, get. rewrite Hentry. unfold bind at 1, iter.
    apply (for_entries_fail rtype record entry_body pre post bad resource e
             Hb Hpre Hbad Hrec). }
  unfold file_records. rewrite Hrun. split; reflexivity.
Qed.

Ltac single_record_body_tac body :=
  split;
  [ intros entry st Hs; unfold skipped_by in Hs; unfold body, bind, lift, get;
    destruct entry as [| | | | | |ekvs]; try discriminate;
    destruct (assoc "resource" ekvs) as [[| | | | | |kvs]|]; try discriminate;
    [ unfold cell in Hs; rewrite Hs; reflexivity | reflexivity ]
  | intros entry resource st Ht; unfold typed_resource in Ht;
    unfold body, bind, lift, get;
    destruct entry as [| | | | | |ekvs]; try discriminate;
    destruct (assoc "resource" ekvs) as [[| | | | | |kvs]|]; try discriminate;
    unfold cell in Ht;
    destruct (eq_str match assoc "resourceType" kvs with
                     | Some v => v
                     | None => JNull
                     end _) eqn:Hrt; [|discriminate];
    inversion Ht; subst resource; cbn [negb];
    match goal with
    | |- context [match ?rec (JObj kvs) with _ => _ end] =>
        destruct (rec (JObj kvs)); reflexivity
    end ].

Lemma condition_entry_body :
  single_record_body "Condition" condition_record condition_entry.
Proof. single_record_body_tac condition_entry. Qed.

Lemma encounter_entry_body :
  single_record_body "Encounter" encounter_record encounter_entry.
Proof. single_record_body_tac encounter_entry. Qed.

Lemma medication_request_entry_body :
  single_record_body "MedicationRequest" medication_request_record
    medication_request_entry.
Proof. single_record_body_tac medication_request_entry. Qed.

(** X6. One record per entry: on a document whose entries are each of
    another type or a resource the parser can flatten, the condition, the
    encounter and the medication-request parser do not fail, return the
    records of the resources of their own type in document order, and as
    many records as the document has entries of that type. *)
Theorem single_record_parsers_count :
  one_record_per_entry "Condition" condition_record condition_entry /\
  one_record_per_entry "Encounter" encounter_record encounter_entry /\
  one_record_per_entry "MedicationRequest" medication_request_record
    medication_request_entry.
Proof.
  split; [|split]; apply single_record_one_per_entry.
  - exact condition_entry_body.
  - exact encounter_entry_body.
  - exact medication_request_entry_body.
Qed.

(** X7. A document that fails part-way is not dropped whole: when a
    resource of the parser's type cannot be flattened, the condition, the
    encounter and the medication-request parser fail on the document with
    that exception and keep the records of the entries before it. *)
Theorem single_record_parsers_keep_prefix :
  keeps_records_before_failure "Condition" condition_record condition_entry /\
  keeps_records_before_failure "Encounter" encounter_record encounter_entry /\
  keeps_records_before_failure "MedicationRequest" medication_request_record
    medication_request_entry.
Proof.
  split; [|split]; apply single_record_keeps.
  - exact condition_entry_body.
  - exact encounter_entry_body.
  - exact medication_request_entry_body.
Qed.


Lemma for_entries_patient_raise (entries : list json) (st : pstate) (e : exn) :
  fst (for_entries patient_entry entries st) = Raise e ->
  snd (for_entries patient_entry entries st) = st.
Proof.
  induction entries as [|entry rest IH]; [discriminate|].
  cbn [for_entries]. unfold bind.
  destruct (patient_entry_cases entry st) as [H | [[r H] | [e' H]]]; rewrite H.
  - exact IH.
  - discriminate.
  - reflexivity.
Qed.

(** X8. The patient parser never keeps a record of a document it fails on:
    its only append is the last step before it leaves the entry loop. *)
Theorem patient_failure_leaves_no_record (file_path : string) :
  file_fails patient_entry file_path = true ->
  file_records patient_entry file_path = [].
Proof.
  unfold file_fails, file_records, file_run, file_body, bind, lift.
  destruct (read_json file_path) as [bundle|e]; [|reflexivity].
  destruct (get bundle "entry" (JList [])) as [entries|e]; [|reflexivity].
  destruct (iter entries) as [items|e]; [|reflexivity].
  pose proof (for_entries_patient_raise items {| records := []; stdout := [] |}) as H.
  destruct (for_entries patient_entry items {| records := []; stdout := [] |})
    as [[[]|e] st']; [discriminate|].
  intros _. simpl in *. now rewrite (H e eq_refl).
Qed.

Lemma parser_splits (what : string) (entry_body : json -> M pstate control) :
  (forall e, framed (entry_body e)) ->
  splits_over_batches (parser what entry_body).
Proof.
  intros Hb l1 l2 out.
  destruct (parser_tolerant what entry_body Hb l1 out) as (log1 & H1 & _).
  destruct (parser_tolerant what entry_body Hb l2 out) as (log2 & H2 & _).
  destruct (parser_tolerant what entry_body Hb (l1 ++ l2) out) as (log3 & H3 & _).
  rewrite flat_map_app in H3.
  do 5 eexists. split; [exact H1|]. split; [exact H2 | exact H3].
Qed.

(** X9. Parsing composes over batches: the records a parser returns over
    two batches put end to end are the records over the first followed by
    the records over the second, for each of the five parsers and whatever
    was printed before. *)
Theorem parsers_split_over_batches :
  splits_over_batches parse_patients /\
  splits_over_batches parse_conditions /\
  splits_over_batches parse_observations /\
  splits_over_batches parse_encounters /\
  splits_over_batches parse_medication_requests.
Proof.
  repeat split; apply parser_splits;
    first [ exact framed_patient_entry | exact framed_condition_entry
          | exact framed_observation_entry | exact framed_encounter_entry
          | exact framed_medication_request_entry ].
Qed.


(** ** Further properties of the store *)


Lemma with_index_tables (name : string) (db : database) (t : table_name) :
  table_of (with_index name db) t = table_of db t.
Proof.
  unfold with_index. destruct (existsb (String.eqb name) (indexes db));
    [reflexivity | now destruct t].
Qed.

Lemma existsb_eqb_In (name : string) (l : list string) :
  existsb (String.eqb name) l = true <-> In name l.
Proof.
  rewrite existsb_exists. split.
  - intros (x & Hin & Heq). apply String.eqb_eq in Heq. now subst.
  - intros Hin. exists name. split; [exact Hin | apply String.eqb_refl].
Qed.

Lemma with_index_In (name : string) (db : database) :
  In name (indexes (with_index name db)).
Proof.
  unfold with_index. destruct (existsb (String.eqb name) (indexes db)) eqn:H.
  - now apply existsb_eqb_In.
  - simpl. apply in_or_app. right. now left.
Qed.

Lemma with_index_mono (name n : string) (db : database) :
  In n (indexes db) -> In n (indexes (with_index name db)).
Proof.
  unfold with_index. destruct (existsb (String.eqb name) (indexes db));
    [auto|]. simpl. intros H. apply in_or_app. now left.
Qed.

Lemma with_index_present (name : string) (db : database) :
  In name (indexes db) -> with_index name db = db.
Proof.
  intros H. unfold with_index. apply existsb_eqb_In in H. now rewrite H.
Qed.

Lemma create_index_step (name : string) (t : table_name) (column : string)
    (conn : connection) (x : table) :
  tx conn = None ->
  table_of (file conn) t = Some x ->
  has_column t x column = true ->
  create_index_if_not_exists name t column conn =
    (Ok tt, {| file := with_index name (file conn); tx := None;
               foreign_keys := foreign_keys conn; history := history conn |}).
Proof.
  intros Htx Ht Hc. destruct conn as [f tx0 fk h]. simpl in *. subst tx0.
  unfold create_index_if_not_exists, with_index, current. simpl. rewrite Ht, Hc.
  destruct (existsb (String.eqb name) (indexes f)); reflexivity.
Qed.

Ltac create_index_step_tac Htx :=
  unfold bind at 1;
  match goal with
  | Hx : table_of _ ?t = Some ?x, Hd : declared ?x = true
    |- context [create_index_if_not_exists ?n ?t ?c ?conn] =>
      rewrite (create_index_step n t c conn x);
      [ | reflexivity || exact Htx
        | cbn [file]; rewrite ?with_index_tables; exact Hx
        | unfold has_column; rewrite Hd; reflexivity ]
  end.

(** What [create_indexes] makes of a file that has the five declared
    tables. *)
Lemma create_indexes_run (conn : connection) :
  tx conn = None ->
  (forall t, exists x, table_of (file conn) t = Some x /\ declared x = true) ->
  create_indexes conn =
    (Ok tt, {| file := fold_left (fun db n => with_index n db) index_names (file conn);
               tx := None; foreign_keys := foreign_keys conn;
               history := history conn ++ [Committed] |}).
Proof.
  intros Htx Hex. unfold create_indexes.
  destruct (Hex conditions) as (xc & Hc & Hdc).
  destruct (Hex observations) as (xo & Ho & Hdo).
  destruct (Hex encounters) as (xe & He & Hde).
  destruct (Hex medication_requests) as (xm & Hm & Hdm).
  repeat create_index_step_tac Htx.
  unfold commit, current, index_names. cbn [tx file foreign_keys history fold_left].
  reflexivity.
Qed.

Lemma fold_with_index_present (names : list string) :
  forall db,
    (forall n, In n names -> In n (indexes db)) ->
    fold_left (fun d n => with_index n d) names db = db.
Proof.
  induction names as [|a names IH]; intros db H; [reflexivity|].
  cbn [fold_left]. rewrite with_index_present by (apply H; now left).
  apply IH. intros n Hn. apply H. now right.
Qed.

Lemma fold_with_index_tables (names : list string) (t : table_name) :
  forall db, table_of (fold_left (fun d n => with_index n d) names db) t = table_of db t.
Proof.
  induction names as [|a names IH]; intros db; [reflexivity|].
  cbn [fold_left]. now rewrite IH, with_index_tables.
Qed.

Lemma fold_with_index_mono (names : list string) (n : string) :
  forall db,
    In n (indexes db) ->
    In n (indexes (fold_left (fun d a => with_index a d) names db)).
Proof.
  induction names as [|a names IH]; intros db H; [exact H|].
  cbn [fold_left]. apply IH. now apply with_index_mono.
Qed.

Lemma fold_with_index_In (names : list string) (n : string) :
  forall db,
    In n names ->
    In n (indexes (fold_left (fun d a => with_index a d) names db)).
Proof.
  induction names as [|a names IH]; intros db H; [destruct H|].
  cbn [fold_left]. destruct H as [-> | H].
  - apply fold_with_index_mono, with_index_In.
  - now apply IH.
Qed.

(** X11. [create_indexes] on a file whose five tables are declared by
    [create_tables] succeeds, leaves the tables as they are, keeps the
    indexes that were there, and afterwards the eight indexes exist; a second
    run changes nothing.  Without the [conditions] table it raises "no such
    table" at its first statement, whatever indexes exist, and changes
    nothing. *)
Theorem create_indexes_spec :
  (forall conn,
     tx conn = None ->
     (forall t, exists x, table_of (file conn) t = Some x /\ declared x = true) ->
     fst (create_indexes conn) = Ok tt /\
     tx (snd (create_indexes conn)) = None /\
     (forall t, table_of (file (snd (create_indexes conn))) t = table_of (file conn) t) /\
     (forall n, In n index_names -> In n (indexes (file (snd (create_indexes conn))))) /\
     (forall n, In n (indexes (file conn)) ->
                In n (indexes (file (snd (create_indexes conn))))) /\
     file (snd (create_indexes (snd (create_indexes conn)))) =
       file (snd (create_indexes conn))) /\
  (forall conn,
     table_of (current conn) conditions = None ->
     create_indexes conn = (Raise (OperationalError "no such table"), conn)).
Proof.
  split.
  - intros conn Htx Hex. rewrite (create_indexes_run conn Htx Hex). cbn [fst snd file tx].
    split; [reflexivity|]. split; [reflexivity|].
    split; [intros t; apply fold_with_index_tables|].
    split; [intros n Hn; now apply fold_with_index_In|].
    split; [intros n Hn; now apply fold_with_index_mono|].
    rewrite create_indexes_run; cbn [file tx snd].
    + apply fold_with_index_present. intros n Hn. now apply fold_with_index_In.
    + reflexivity.
    + intros t. rewrite fold_with_index_tables. apply Hex.
  - intros conn Ht.
    unfold create_indexes, bind at 1, create_index_if_not_exists.
    rewrite Ht. reflexivity.
Qed.

(** *** What the constraints accept *)

Lemma rows_of_set_table (db : database) (t : table_name) (x : table) :
  rows_of (set_table db t x) t = rows x.
Proof. unfold rows_of. now rewrite table_of_set_table. Qed.

Lemma rows_of_set_table_other (db : database) (t t' : table_name) (x : table) :
  t' <> t -> rows_of (set_table db t x) t' = rows_of db t'.
Proof. intros H. unfold rows_of. now rewrite table_of_set_table_other. Qed.

Lemma not_child_patients (t : table_name) : is_child t = false -> t = patients.
Proof. destruct t; [reflexivity | discriminate ..]. Qed.

Lemma bind_error_bindable (r : row) :
  forallb (fun kv => bindable (snd kv)) r =
    match bind_error r with
    | None => true
    | Some _ => false
    end.
Proof.
  induction r as [|[k v] r IH]; [reflexivity|].
  cbn [forallb bind_error snd].
  destruct v; cbn [bindable andb]; try exact IH; try reflexivity.
  destruct (in_int64 z); [exact IH | reflexivity].
Qed.

(** On declared tables under enforcement, [INSERT] fails exactly on a row
    that is not accepted. *)
Lemma insert_row_accepted (db : database) (t : table_name) (r : row) (x p : table) :
  table_of db t = Some x -> declared x = true ->
  table_of db patients = Some p -> declared p = true ->
  raises (insert_row true db t r) = negb (accepted t (rows p) (rows x) r).
Proof.
  intros Hx Hd Hp Hdp. unfold insert_row, accepted.
  rewrite Hx, Hd, Hp, Hdp, bind_error_bindable.
  destruct (bind_error r); [reflexivity|].
  cbn [negb andb]. rewrite ?andb_true_r.
  destruct (is_child t && is_null (cell r "patient_id")); [reflexivity|].
  destruct (has_key (cell r "id") (rows x)); [reflexivity|].
  cbn [negb andb]. destruct (is_child t); cbn [negb andb orb]; [|reflexivity].
  destruct (has_key (cell r "patient_id") (rows p)); reflexivity.
Qed.


Lemma insert_all_ok (fk : bool) (t : table_name) (data_list : list row) :
  forall db db' x,
    table_of db t = Some x ->
    insert_all fk db t data_list = Ok db' ->
    db' = set_table db t (with_rows x data_list).
Proof.
  induction data_list as [|r rest IH]; intros db db' x Hx H.
  - simpl in H. inversion H; subst. now rewrite with_rows_nil, (set_table_same _ _ _ Hx).
  - cbn [insert_all] in H.
    destruct (insert_row fk db t r) as [d1|e] eqn:Hins; [|discriminate].
    cbn [res_bind] in H.
    apply insert_row_ok in Hins as (x' & Hx' & ->).
    rewrite Hx in Hx'. inversion Hx'; subst x'.
    rewrite (IH _ _ (with_rows x [r]) (table_of_set_table _ _ _) H).
    now rewrite set_table_twice, with_rows_app.
Qed.





Lemma declared_tables (conn : connection) :
  forallb (declared_in conn) tables = true ->
  tx conn = None /\
  forall t, exists x, table_of (file conn) t = Some x /\ declared x = true.
Proof.
  intros Hdecl.
  assert (Htx : tx conn = None).
  { simpl in Hdecl. unfold declared_in in Hdecl. destruct (tx conn); [discriminate|].
    reflexivity. }
  split; [exact Htx|].
  intros t. rewrite forallb_forall in Hdecl.
  assert (Ht : In t tables) by (destruct t; simpl; auto 6).
  specialize (Hdecl t Ht). unfold declared_in in Hdecl. rewrite Htx in Hdecl.
  destruct (table_of (file conn) t) as [x|]; [|discriminate]. now exists x.
Qed.



Lemma load_data_loaded (dfs : dataframes) (conn : connection) :
  tx conn = None ->
  (forall t, table_of (file conn) t <> None) ->
  fst (load_data dfs conn) = Ok tt ->
  file (snd (load_data dfs conn)) = loaded dfs tables (file conn).
Proof.
  intros Htx Hex. rewrite load_data_unfold. unfold try_except.
  destruct (load_seq_run dfs commit tables conn Htx)
    as [(e & c' & Hrun & _) | (c1 & Hrun & Ht1 & Hfk & Hfile)].
  - intros t _. apply Hex.
  - rewrite Hrun. discriminate.
  - rewrite Hrun. unfold commit. cbn [fst snd file]. intros _.
    unfold current. rewrite Ht1. exact Hfile.
Qed.

Lemma loaded_fresh (dfs : dataframes) (t : table_name) :
  table_of (built_database dfs) t = table_of (loaded dfs tables (file fresh_schema)) t.
Proof. destruct t; reflexivity. Qed.


(** *** The constraints as an invariant of the file *)

Lemma consistent_spec (db : database) :
  consistent db = true <->
  (forall t, unique_ids (rows_of db t) = true) /\
  (forall t, is_child t = true -> references_resolve db t = true).
Proof.
  unfold consistent, tables. cbn [forallb]. rewrite !andb_true_iff. split.
  - intros [(H1 & H2 & H3 & H4 & H5 & _) (H6 & H7 & H8 & H9 & _)].
    split; intros t; destruct t; cbn [is_child]; intros; try assumption;
      discriminate.
  - intros [H1 H2]. repeat split; (apply H1 || (apply H2; reflexivity)).
Qed.

Lemma has_key_cons (k : json) (a : row) (rs : list row) :
  has_key k (a :: rs) = same_key (cell a "id") k || has_key k rs.
Proof. reflexivity. Qed.

Lemma has_key_mono (k : json) (rs rs' : list row) :
  has_key k rs = true -> has_key k (rs ++ rs') = true.
Proof. unfold has_key. rewrite existsb_app. now intros ->. Qed.

Lemma unique_ids_snoc (rs : list row) (r : row) :
  unique_ids (rs ++ [r]) = unique_ids rs && negb (has_key (cell r "id") rs).
Proof.
  induction rs as [|a rs IH]; [reflexivity|].
  cbn [app unique_ids]. rewrite IH, has_key_app, has_key_cons.
  rewrite (same_key_sym (cell r "id") (cell a "id")).
  destruct (has_key (cell a "id") rs), (same_key (cell a "id") (cell r "id")),
    (unique_ids rs), (has_key (cell r "id") rs); reflexivity.
Qed.

(** An accepted [INSERT] keeps the constraints. *)
Lemma insert_row_sound (db db' : database) (t : table_name) (r : row) :
  sound db -> insert_row true db t r = Ok db' -> sound db'.
Proof.
  intros [Hdecl Hcons] Hins. apply consistent_spec in Hcons as [Hu Hr].
  destruct (Hdecl t) as (x & Hx & Hd). destruct (Hdecl patients) as (p & Hp & Hdp).
  pose proof (insert_row_accepted db t r x p Hx Hd Hp Hdp) as Hacc.
  rewrite Hins in Hacc. cbn [raises] in Hacc.
  apply insert_row_ok in Hins as (x' & Hx' & ->).
  rewrite Hx in Hx'. inversion Hx'; subst x'.
  destruct (accepted t (rows p) (rows x) r) eqn:Ha; [clear Hacc | discriminate].
  unfold accepted in Ha. rewrite !andb_true_iff in Ha. destruct Ha as [[[_ _] Hk] Hf].
  apply negb_true_iff in Hk.
  assert (Hrx : rows_of db t = rows x) by (unfold rows_of; now rewrite Hx).
  assert (Hrp : rows_of db patients = rows p) by (unfold rows_of; now rewrite Hp).
  split.
  - intros t'. destruct (table_name_eq_dec t' t) as [-> | Hne].
    + rewrite table_of_set_table. exists (with_rows x [r]). auto.
    + rewrite (table_of_set_table_other _ _ _ _ Hne). apply Hdecl.
  - apply consistent_spec. split.
    + intros t'. destruct (table_name_eq_dec t' t) as [-> | Hne].
      * rewrite rows_of_set_table. cbn [with_rows rows]. rewrite unique_ids_snoc, Hk.
        rewrite <- Hrx, (Hu t). reflexivity.
      * rewrite (rows_of_set_table_other _ _ _ _ Hne). apply Hu.
    + intros t' Hc'. pose proof (Hr t' Hc') as Hr'. unfold references_resolve in *.
      destruct (is_child t) eqn:Hc.
      * assert (Hpat : rows_of (set_table db t (with_rows x [r])) patients =
                       rows_of db patients).
        { apply rows_of_set_table_other. intros Heq. rewrite <- Heq in Hc.
          discriminate Hc. }
        rewrite Hpat. destruct (table_name_eq_dec t' t) as [-> | Hne].
        -- rewrite rows_of_set_table. cbn [with_rows rows]. rewrite forallb_app.
           rewrite <- Hrx, Hr'. cbn [forallb andb negb orb] in *.
           rewrite Hrp, Hf. reflexivity.
        -- now rewrite (rows_of_set_table_other _ _ _ _ Hne).
      * apply not_child_patients in Hc. subst t.
        assert (Hne : t' <> patients) by (intros ->; discriminate Hc').
        rewrite (rows_of_set_table_other _ _ _ _ Hne), rows_of_set_table.
        cbn [with_rows rows]. rewrite <- Hrx.
        rewrite forallb_forall in Hr' |- *. intros r' Hin.
        apply has_key_mono. now apply Hr'.
Qed.

Lemma insert_all_sound (t : table_name) (data_list : list row) :
  forall db db', sound db -> insert_all true db t data_list = Ok db' -> sound db'.
Proof.
  induction data_list as [|r rest IH]; intros db db' Hs H.
  - simpl in H. now inversion H; subst.
  - cbn [insert_all] in H.
    destruct (insert_row true db t r) as [d1|e] eqn:Hins; [|discriminate].
    cbn [res_bind] in H. apply (IH d1 db'); [|exact H].
    exact (insert_row_sound _ _ _ _ Hs Hins).
Qed.

Lemma to_sql_sound (df : dataframe) (t : table_name) (conn : connection) :
  tx conn = None -> foreign_keys conn = true -> sound (file conn) ->
  tx (snd (to_sql df t conn)) = None /\
  foreign_keys (snd (to_sql df t conn)) = true /\
  sound (file (snd (to_sql df t conn))).
Proof.
  intros Htx Hfk Hs. destruct (proj1 Hs t) as (x & Hx & Hd).
  destruct (to_sql_existing df t conn x Htx Hx) as (Htx' & Hfk' & Hfile').
  pose proof (to_sql_raises df t conn x Htx Hx) as Hr. rewrite Hfk in Hr.
  split; [exact Htx'|]. split; [congruence|].
  rewrite Hfile'. destruct (fst (to_sql df t conn)) as [[]|e]; [|exact Hs].
  cbn [raises] in Hr.
  destruct (insert_all true (file conn) t df) as [db'|e] eqn:Hins; [|discriminate].
  rewrite <- (insert_all_ok _ _ _ _ _ _ Hx Hins).
  exact (insert_all_sound _ _ _ _ Hs Hins).
Qed.

Lemma load_seq_sound (dfs : dataframes) (ts : list table_name) :
  forall conn,
    tx conn = None -> foreign_keys conn = true -> sound (file conn) ->
    tx (snd (load_seq dfs ts commit conn)) = None /\
    sound (file (snd (load_seq dfs ts commit conn))).
Proof.
  induction ts as [|t rest IH]; intros conn Htx Hfk Hs.
  - simpl. unfold current. rewrite Htx. auto.
  - cbn [load_seq]. unfold bind at 1 2.
    destruct (to_sql_sound (frame dfs t) t conn Htx Hfk Hs) as (Htx' & Hfk' & Hs').
    destruct (to_sql (frame dfs t) t conn) as [[[]|e] c1]; cbn [fst snd] in *.
    + now apply IH.
    + auto.
Qed.

Lemma load_data_sound (dfs : dataframes) (conn : connection) :
  tx conn = None -> foreign_keys conn = true -> sound (file conn) ->
  tx (snd (load_data dfs conn)) = None /\ sound (file (snd (load_data dfs conn))).
Proof.
  intros Htx Hfk Hs. destruct (load_seq_sound dfs tables conn Htx Hfk Hs) as [Ht Hsd].
  rewrite load_data_unfold. unfold try_except.
  destruct (load_seq dfs tables commit conn) as [[[]|e] c1]; simpl in *; auto.
Qed.

Lemma fresh_schema_sound : sound (file fresh_schema).
Proof.
  split; [|reflexivity].
  intros t; destruct t; eexists; split; reflexivity.
Qed.

Lemma sound_tables (d1 d2 : database) :
  (forall t, table_of d2 t = table_of d1 t) -> sound d1 -> sound d2.
Proof.
  intros H [Hd Hc]. split; [intros t; rewrite H; apply Hd|].
  apply consistent_spec in Hc as [Hu Hr]. apply consistent_spec. split; intros t.
  - unfold rows_of. rewrite H. apply Hu.
  - intros Hc'. unfold references_resolve, rows_of. rewrite !H. apply (Hr t Hc').
Qed.

Lemma build_sound (dfs : dataframes) : sound (file (snd (build dfs connect_new))).
Proof.
  destruct (load_data_sound dfs fresh_schema eq_refl eq_refl fresh_schema_sound)
    as [_ Hs].
  destruct (fst (load_data dfs fresh_schema)) as [[]|e] eqn:Hload.
  - destruct (build_loaded dfs Hload) as [_ ->].
    rewrite (load_data_loaded dfs fresh_schema eq_refl) in Hs;
      [| intros t; destruct t; discriminate | exact Hload].
    exact (sound_tables _ _ (loaded_fresh dfs) Hs).
  - assert (Hr : raises (fst (load_data dfs fresh_schema)) = true) by now rewrite Hload.
    destruct (build_load_failed dfs Hr) as [_ ->]. exact Hs.
Qed.

(** X13. The constraints of the schema are an invariant of the file.  Over
    a database whose five tables are declared, hold no repeated identifier
    and no child row without a patient, an [INSERT] that is accepted under
    enforcement gives such a database again; and on a connection with
    enforcement on and no open transaction over such a file, the file
    [load_data] leaves is such a file again, whether it succeeds or fails,
    and no transaction stays open. *)
Theorem load_data_keeps_store_sound :
  (forall db db' t r,
     sound db -> insert_row true db t r = Ok db' -> sound db') /\
  (forall dfs conn,
     tx conn = None ->
     foreign_keys conn = true ->
     sound (file conn) ->
     tx (snd (load_data dfs conn)) = None /\
     sound (file (snd (load_data dfs conn)))).
Proof.
  split.
  - intros db db' t r Hs Hins. exact (insert_row_sound db db' t r Hs Hins).
  - intros dfs conn Htx Hfk Hs.
    destruct (load_seq_sound dfs tables conn Htx Hfk Hs) as [Ht Hsd].
    rewrite load_data_unfold. unfold try_except.
    destruct (load_seq dfs tables commit conn) as [[[]|e] c1]; simpl in *; auto.
Qed.

(** X14. Whatever the documents and whatever was there before, and whether
    it succeeds or fails, [main] of the loader leaves a database file whose
    five tables are declared with their constraints, where no identifier
    repeats within a table and every child row refers to a patient of the
    file. *)
Theorem main_leaves_sound_store :
  forall w, exists db, db_file (snd (main w)) = Some db /\ sound db.
Proof.
  intros w. destruct (main_ignores_prior w) as [_ Hf].
  eexists. split; [exact Hf | apply build_sound].
Qed.



(** *** A load that fails *)

Lemma load_seq_failed (dfs : dataframes) (ts : list table_name) :
  NoDup ts ->
  forall conn e c',
    tx conn = None ->
    (forall t, In t ts -> table_of (file conn) t <> None) ->
    load_seq dfs ts commit conn = (Raise e, c') ->
    exists done t rest,
      ts = done ++ t :: rest /\
      raises (fst (to_sql (frame dfs t) t
                     {| file := file c'; tx := None;
                        foreign_keys := foreign_keys conn; history := [] |})) = true /\
      tx c' = None /\
      (forall t', In t' done ->
                  rows_of (file c') t' = rows_of (file conn) t' ++ frame dfs t') /\
      (forall t', ~ In t' done -> table_of (file c') t' = table_of (file conn) t').
Proof.
  induction ts as [|t rest IH]; intros Hnd conn e c' Htx Hex Hrun; [discriminate|].
  inversion Hnd as [|? ? Hnin Hnd']; subst.
  destruct (table_of (file conn) t) as [x|] eqn:Hx;
    [|exfalso; apply (Hex t); [now left | exact Hx]].
  destruct (to_sql_existing (frame dfs t) t conn x Htx Hx) as (Htx' & Hfk' & Hfile').
  pose proof (to_sql_raises (frame dfs t) t conn x Htx Hx) as Hr.
  cbn [load_seq] in Hrun. unfold bind at 1 in Hrun.
  destruct (to_sql (frame dfs t) t conn) as [[[]|e1] c1]; cbn [fst snd] in *.
  - destruct (IH Hnd' c1 e c' Htx') as (done & t2 & rest2 & -> & Hrf & Htc & Hin & Hout).
    + intros t' Ht'. rewrite Hfile'.
      assert (Hne : t' <> t) by (intros ->; contradiction).
      rewrite (table_of_set_table_other _ _ _ _ Hne). apply Hex. now right.
    + exact Hrun.
    + assert (Hnd2 : ~ In t done) by (intros H; apply Hnin, in_or_app; now left).
      exists (t :: done), t2, rest2. split; [reflexivity|].
      split; [now rewrite <- Hfk'|]. split; [exact Htc|]. split.
      * intros t' [<- | Ht'].
        -- unfold rows_of. rewrite (Hout t Hnd2), Hfile', table_of_set_table, Hx.
           reflexivity.
        -- rewrite (Hin t' Ht'), Hfile'.
           assert (Hne : t' <> t) by (intros ->; contradiction).
           now rewrite (rows_of_set_table_other _ _ _ _ Hne).
      * intros t' Hn. rewrite Hout by (intros H; apply Hn; now right).
        rewrite Hfile'. apply table_of_set_table_other. intros ->. apply Hn. now left.
  - inversion Hrun; subst e1 c1. exists [], t, rest. split; [reflexivity|].
    split.
    + assert (Hx1 : table_of (file c') t = Some x) by now rewrite Hfile'.
      rewrite (to_sql_raises _ _ {| file := file c'; tx := None;
                                    foreign_keys := foreign_keys conn;
                                    history := [] |} x eq_refl Hx1).
      cbn [foreign_keys file]. rewrite Hfile'. now rewrite <- Hr.
    + split; [exact Htx'|]. split; [intros t' []|]. intros t' _. now rewrite Hfile'.
Qed.

(** X16. A load that fails keeps what it loaded before.  For frames as the
    parsers build them from documents whose identifiers are strings, on a
    connection as [create_tables] leaves it, when [load_data] raises there is
    a table in the loading order whose frame the file left behind refuses;
    the tables before it hold, after the identifiers and references that
    were there, those of their frames, committed; that table and the later
    ones are as they were; and the rollback of [load_data] leaves no
    transaction open. *)
Theorem failed_load_keeps_earlier_tables (dfs : dataframes) (conn : connection)
    (e : exn) (conn' : connection) :
  forallb (declared_in conn) tables = true ->
  conforming_store (file conn) = true ->
  conforming dfs = true ->
  load_data dfs conn = (Raise e, conn') ->
  tx conn' = None /\
  exists done t rest,
    tables = done ++ t :: rest /\
    raises (fst (to_sql (frame dfs t) t
                   {| file := file conn'; tx := None;
                      foreign_keys := foreign_keys conn; history := [] |})) = true /\
    (forall t', In t' done ->
                map key_cells (rows_of (file conn') t') =
                map key_cells (rows_of (file conn) t' ++ frame dfs t')) /\
    (forall t', ~ In t' done -> table_of (file conn') t' = table_of (file conn) t').
Proof.
  intros Hdecl _ _. destruct (declared_tables conn Hdecl) as [Htx Hall].
  assert (Hex : forall t, table_of (file conn) t <> None).
  { intros t. destruct (Hall t) as (x & -> & _). discriminate. }
  rewrite load_data_unfold. unfold try_except.
  assert (Hnd : NoDup tables)
    by (unfold tables; repeat constructor; simpl; intuition discriminate).
  pose proof (load_seq_failed dfs tables Hnd conn) as Hf.
  destruct (load_seq_run dfs commit tables conn Htx)
    as [(e1 & c1 & Hrun & Ht1) | (c1 & Hrun & _)].
  - intros t _. apply Hex.
  - rewrite Hrun in *. cbn. intros H. inversion H; subst e1 conn'.
    split; [reflexivity|].
    destruct (Hf e c1 Htx (fun t _ => Hex t) eq_refl)
      as (done & t & rest & Hts & Hr & _ & Hin & Hout).
    exists done, t, rest. cbn [file].
    split; [exact Hts|]. split; [exact Hr|]. split; [|exact Hout].
    intros t' Ht'. now rewrite (Hin t' Ht').
  - rewrite Hrun. discriminate.
Qed.

(** *** Identifiers that are already there *)

Lemma insert_row_duplicate (fk : bool) (db : database) (t : table_name) (r : row)
    (x : table) :
  table_of db t = Some x ->
  declared x = true ->
  has_key (cell r "id") (rows x) = true ->
  raises (insert_row fk db t r) = true.
Proof.
  intros Ht Hd Hk. unfold insert_row. rewrite Ht.
  destruct (bind_error r); [reflexivity|].
  rewrite Hd, Hk. cbn [negb].
  destruct (is_child t && is_null (cell r "patient_id")); reflexivity.
Qed.

Lemma executemany_duplicate (t : table_name) (r : row) (data_list : list row) :
  In r data_list ->
  forall conn x,
    table_of (current conn) t = Some x ->
    declared x = true ->
    has_key (cell r "id") (rows x) = true ->
    raises (fst (executemany t data_list conn)) = true.
Proof.
  induction data_list as [|r0 rest IH]; intros Hin conn x Hx Hd Hk; [destruct Hin|].
  cbn [executemany]. unfold bind at 1, execute_insert.
  destruct (insert_row (foreign_keys conn) (current conn) t r0) as [db'|e] eqn:Hins;
    [|reflexivity].
  destruct Hin as [-> | Hin].
  - pose proof (insert_row_duplicate (foreign_keys conn) (current conn) t r x Hx Hd Hk)
      as Hr.
    rewrite Hins in Hr. discriminate.
  - apply insert_row_ok in Hins as (x' & Hx' & ->).
    rewrite Hx in Hx'. inversion Hx'; subst x'.
    apply (IH Hin _ (with_rows x [r0])).
    + unfold current. simpl. apply table_of_set_table.
    + exact Hd.
    + cbn [with_rows rows]. now apply has_key_mono.
Qed.

Lemma to_sql_duplicate (df : dataframe) (t : table_name) (conn : connection)
    (x : table) (r : row) :
  tx conn = None ->
  table_of (file conn) t = Some x ->
  declared x = true ->
  In r df ->
  has_key (cell r "id") (rows x) = true ->
  raises (fst (to_sql df t conn)) = true.
Proof.
  intros Htx Ht Hd Hin Hk. rewrite to_sql_unfold. cbv zeta.
  assert (Hcur : current conn = file conn) by (unfold current; now rewrite Htx).
  rewrite Hcur, Ht. destruct df as [|r0 rest]; [destruct Hin|].
  rewrite run_transaction_unfold.
  pose proof (executemany_duplicate t r (r0 :: rest) Hin conn x) as H.
  rewrite Hcur in H. specialize (H Ht Hd Hk).
  destruct (executemany t (r0 :: rest) conn) as [[[]|e] c']; [discriminate|reflexivity].
Qed.

(** X17. The primary key refuses a second load: on a connection without an
    open transaction whose [patients] table is declared and already holds a
    row with the identifier, a string, of a patient of the frame,
    [load_data] raises before anything is committed: the file is as it
    was. *)
Theorem load_refuses_known_patient (dfs : dataframes) (conn : connection)
    (x : table) (r : row) (id : string) :
  tx conn = None ->
  table_of (file conn) patients = Some x ->
  declared x = true ->
  In r (df_patients dfs) ->
  cell r "id" = JStr id ->
  has_key (JStr id) (rows x) = true ->
  exists e conn',
    load_data dfs conn = (Raise e, conn') /\
    tx conn' = None /\
    file conn' = file conn.
Proof.
  intros Htx Hx Hd Hin Hid Hk. rewrite <- Hid in Hk.
  pose proof (to_sql_duplicate (df_patients dfs) patients conn x r Htx Hx Hd Hin Hk)
    as Hr.
  destruct (to_sql_existing (df_patients dfs) patients conn x Htx Hx)
    as (Htx' & _ & Hfile').
  rewrite load_data_unfold. unfold try_except.
  change (load_seq dfs tables commit conn)
    with ((to_sql (df_patients dfs) patients >> load_seq dfs children commit) conn).
  unfold bind at 1.
  destruct (to_sql (df_patients dfs) patients conn) as [[[]|e] c1];
    cbn [fst snd raises] in *; [discriminate|].
  exists e. eexists. split; [reflexivity|]. cbn [tx file].
  split; [reflexivity | exact Hfile'].
Qed.

(** X18. [main] of the parser never raises: whatever the files, it returns
    the five frames, each the records of its parser over the files found,
    in order; what was printed before stays, and the error lines it adds
    are one per parser and failing document. *)
Theorem parse_fhir_data_total :
  forall out, exists log,
    parse_fhir_data out = (Ok parsed_frames, out ++ log) /\
    List.length (filter is_error log) = failing_documents.
Proof.
  intros out. unfold parse_fhir_data, bind, failing_documents.
  destruct (parser_tolerant "patients" patient_entry framed_patient_entry
              glob_fhir out) as (l1 & H1 & E1).
  unfold parse_patients. rewrite H1.
  destruct (parser_tolerant "conditions" condition_entry framed_condition_entry
              glob_fhir (out ++ l1)) as (l2 & H2 & E2).
  unfold parse_conditions. rewrite H2.
  destruct (parser_tolerant "observations" observation_entry framed_observation_entry
              glob_fhir ((out ++ l1) ++ l2)) as (l3 & H3 & E3).
  unfold parse_observations. rewrite H3.
  destruct (parser_tolerant "encounters" encounter_entry framed_encounter_entry
              glob_fhir (((out ++ l1) ++ l2) ++ l3)) as (l4 & H4 & E4).
  unfold parse_encounters. rewrite H4.
  destruct (parser_tolerant "medication requests" medication_request_entry
              framed_medication_request_entry
              glob_fhir ((((out ++ l1) ++ l2) ++ l3) ++ l4)) as (l5 & H5 & E5).
  unfold parse_medication_requests. rewrite H5.
  exists (l1 ++ l2 ++ l3 ++ l4 ++ l5). split.
  - unfold ret, parsed_frames. now rewrite <- !app_assoc.
  - rewrite !filter_app, !length_app, E1, E2, E3, E4, E5. lia.
Qed.


(** *** A component that fails *)

Lemma for_components_fail (kvs : list (string * json)) (category patient_id : json)
    (pre post : list json) (bad : json) (e : exn) :
  extract_reference_id (cell kvs "subject") = Ok patient_id ->
  forallb (fun comp => negb (raises (component_fields comp))) pre = true ->
  component_fields bad = Raise e ->
  forall idx st, exists rs,
    for_components (JObj kvs) category idx (pre ++ bad :: post) st =
      (Raise e, appended st rs) /\
    List.length rs = List.length pre.
Proof.
  intros Hp Hok Hbad. induction pre as [|comp rest IH]; intros idx st.
  - exists []. rewrite appended_nil. split; [|reflexivity].
    cbn [app for_components]. unfold bind at 1, lift, component_record.
    now rewrite Hbad.
  - simpl in Hok. apply andb_prop in Hok as [Hc Hrest].
    destruct (component_fields comp) as [[[[c d] v] u]|e'] eqn:Hf; [|discriminate].
    cbn [app for_components]. unfold bind at 1, lift.
    rewrite (component_record_ok kvs category patient_id idx comp c d v u Hp Hf).
    unfold bind at 1, records_append.
    match goal with
    | |- context [for_components _ _ _ _ ?s] =>
        destruct (IH Hrest (S idx) s) as (rs & Hrun & Hlen)
    end.
    eexists (_ :: rs). rewrite Hrun. unfold appended. simpl.
    rewrite <- app_assoc. split; [reflexivity | now rewrite Hlen].
Qed.

(** X19. A component that cannot be read stops the fan-out half way: when
    the components before it yield their fields and it raises, the parser
    raises that error for the resource, and the records of the components
    before it have been appended and stay. *)
Theorem component_failure_keeps_earlier
    (kvs : list (string * json)) (pre post : list json) (bad : json) (e : exn)
    (code display category patient_id : json) (st : pstate) :
  observation_head (JObj kvs) = Ok (code, display, category) ->
  assoc "valueQuantity" kvs = None ->
  assoc "valueCodeableConcept" kvs = None ->
  assoc "component" kvs = Some (JList (pre ++ bad :: post)) ->
  extract_reference_id (cell kvs "subject") = Ok patient_id ->
  forallb (fun comp => negb (raises (component_fields comp))) pre = true ->
  component_fields bad = Raise e ->
  exists rs,
    observation_resource (JObj kvs) st = (Raise e, appended st rs) /\
    List.length rs = List.length pre.
Proof.
  intros Hhead Hk1 Hk2 Hk3 Hp Hok Hbad.
  destruct (for_components_fail kvs category patient_id pre post bad e Hp Hok Hbad 0 st)
    as (rs & Hrun & Hlen).
  exists rs. split; [|exact Hlen].
  rewrite (observation_resource_components kvs code display category st
             (pre ++ bad :: post) Hhead Hk1 Hk2 Hk3).
  unfold bind. now rewrite Hrun.
Qed.


End Environment.

(** ** Re-running the pipeline *)

Lemma parsed_frames_perm (py_repr : json -> string) (read_json : string -> res json)
    (file_paths file_paths' : list string) :
  Permutation file_paths file_paths' ->
  frames_equiv (parsed_frames py_repr read_json file_paths)
               (parsed_frames py_repr read_json file_paths').
Proof.
  intros Hp t. destruct t; simpl; now apply Permutation_flat_map.
Qed.

(** C8. Idempotent re-run: over the same documents the outcome of [main]
    and the database file it leaves do not depend on what was there before
    (the existing file is removed first), so a second run leaves exactly the
    file the first run left, with the same tables and the same rows; and
    when the two runs find the documents in a different order, they fail or
    succeed together and leave the same tables with the same rows up to
    their order. *)
Theorem rerun_yields_same_store
    (py_repr : json -> string) (read_json : string -> res json) :
  (forall file_paths w1 w2,
     fst (main py_repr read_json file_paths w1) =
       fst (main py_repr read_json file_paths w2) /\
     db_file (snd (main py_repr read_json file_paths w1)) =
       db_file (snd (main py_repr read_json file_paths w2))) /\
  (forall file_paths w,
     let w' := snd (main py_repr read_json file_paths w) in
     fst (main py_repr read_json file_paths w') =
       fst (main py_repr read_json file_paths w) /\
     db_file (snd (main py_repr read_json file_paths w')) = db_file w') /\
  (forall file_paths file_paths' w w',
     Permutation file_paths file_paths' ->
     raises (fst (main py_repr read_json file_paths w)) =
       raises (fst (main py_repr read_json file_paths' w')) /\
     store_equiv (db_file (snd (main py_repr read_json file_paths w)))
                 (db_file (snd (main py_repr read_json file_paths' w')))).
Proof.
  split; [|split].
  - intros file_paths w1 w2.
    destruct (main_ignores_prior py_repr read_json file_paths w1) as [-> ->].
    destruct (main_ignores_prior py_repr read_json file_paths w2) as [-> ->].
    now split.
  - intros file_paths w w'. subst w'.
    destruct (main_ignores_prior py_repr read_json file_paths
                (snd (main py_repr read_json file_paths w))) as [-> ->].
    destruct (main_ignores_prior py_repr read_json file_paths w) as [-> ->].
    now split.
  - intros file_paths file_paths' w w' Hp.
    destruct (main_ignores_prior py_repr read_json file_paths w) as [-> ->].
    destruct (main_ignores_prior py_repr read_json file_paths' w') as [-> ->].
    apply build_perm. now apply parsed_frames_perm.
Qed.

(** ** The properties on the sample documents *)

Example extract_reference_id_docstring :
  extract_reference_id
    (JObj [("reference", JStr "urn:uuid:92fb7efc-5cfd-f8d3-927b-42f8ee099531")])
  = Ok (JStr "92fb7efc-5cfd-f8d3-927b-42f8ee099531").
Proof. reflexivity. Qed.

Example extract_reference_id_slash :
  extract_reference_id (JObj [("reference", JStr "Patient/abc/7")]) = Ok (JStr "7").
Proof. reflexivity. Qed.

(** The concrete scenario of the specification: parent "obs-1" with two
    components yields the identifiers "obs-1-0" and "obs-1-1". *)
Example blood_pressure_identifiers :
  fst (parse_observations no_repr sample_files ["bp.json"] []) =
    Ok [[("id", JStr "obs-1-0"); ("patient_id", JStr "p1"); ("code", JStr "8480-6");
         ("display", JStr "Systolic"); ("value", JInt 120); ("unit", JStr "mmHg");
         ("effective_date", JStr "2020-03-01"); ("category", JNull)];
        [("id", JStr "obs-1-1"); ("patient_id", JStr "p1"); ("code", JStr "8462-4");
         ("display", JStr "Diastolic"); ("value", JInt 80); ("unit", JStr "mmHg");
         ("effective_date", JStr "2020-03-01"); ("category", JNull)]].
Proof. reflexivity. Qed.

(** The statements of a load with one patient and two observations: the
    patient row is committed before the first observation goes in. *)
Example blood_pressure_load_trace :
  exists o1 o2,
    history (snd (load_data (parsed_frames no_repr sample_files ["bp.json"])
                            fresh_schema)) =
      [Committed; Inserted patients p1_row; Committed;
       Inserted observations o1; Inserted observations o2; Committed; Committed].
Proof. eexists; eexists. reflexivity. Qed.

(** Why the existing file is removed first: a build on top of the store of
    the previous run meets the rows it already holds. *)
Example rebuild_on_previous_store :
  let dfs := parsed_frames no_repr sample_files ["bp.json"] in
  fst (build dfs (connect (Some (built_database dfs)))) =
    Raise (IntegrityError "UNIQUE constraint failed").
Proof. vm_compute. reflexivity. Qed.

(** C5, on an extension that names the race URL and nothing below it. *)
Lemma extractors_null_safe_witness :
  extract_race
    (JObj [("extension",
            JList [JObj [("url", JStr "http://hl7.org/fhir/us/core/StructureDefinition/us-core-race")]])])
  = Ok JNull /\
  safe_get_coding (JObj [("coding", JList [JObj [("code", JStr "a")]])]) 1
  = Ok (JNull, JNull) /\
  extract_reference_id (JObj [("display", JStr "Jane Doe")]) = Ok (JStr "").
Proof.
  destruct extractors_null_safe as ((_ & _ & Href) & (_ & _ & _ & _ & Hshort & _) & Hext).
  split; [|split].
  - destruct (Hext extract_race (or_introl eq_refl)) as (_ & _ & _ & Htrunc).
    eapply Htrunc; reflexivity.
  - eapply Hshort; [reflexivity | simpl; lia].
  - apply Href; [discriminate | reflexivity].
Defined.

(** C6 as stated fails: the concept holds a coding list that is present, not
    empty and long enough for index 0, and the resolver still answers
    (null, null), because the entry has neither a code nor a display. *)
Lemma safe_get_coding_null_pair_counterexample :
  safe_get_coding system_only_concept 0 = Ok (JNull, JNull) /\
  (exists l, get system_only_concept "coding" JNull = Ok (JList l) /\
             l <> [] /\ (0 < Z.of_nat (List.length l))%Z).
Proof.
  split; [reflexivity|].
  eexists. split; [reflexivity|]. split; [discriminate | simpl; lia].
Qed.

(** C6 as amended, on the systolic coding and on the system-only coding. *)
Lemma safe_get_coding_spec_witness :
  safe_get_coding
    (JObj [("coding", JList [JObj [("code", JStr "8480-6");
                                   ("display", JStr "Systolic")]])]) 0
  = Ok (JStr "8480-6", JStr "Systolic") /\
  (safe_get_coding system_only_concept 0 = Ok (JNull, JNull) <->
   [JObj [("system", JStr "http://loinc.org")]] = [] \/
   (1 <= 0)%Z \/
   exists e, Some (JObj [("system", JStr "http://loinc.org")]) = Some (JObj e) /\
             cell e "code" = JNull /\ cell e "display" = JNull).
Proof.
  split.
  - exact (proj1 (safe_get_coding_spec
                    [("coding", JList [JObj [("code", JStr "8480-6");
                                             ("display", JStr "Systolic")]])]
                    [JObj [("code", JStr "8480-6"); ("display", JStr "Systolic")]]
                    0%Z (or_introl eq_refl) (Z.le_refl 0))
             [("code", JStr "8480-6"); ("display", JStr "Systolic")] eq_refl).
  - exact (proj2 (proj2 (safe_get_coding_spec
                           [("coding", JList [JObj [("system", JStr "http://loinc.org")]])]
                           [JObj [("system", JStr "http://loinc.org")]] 0%Z
                           (or_introl eq_refl) (Z.le_refl 0)))).
Defined.

(** C7, on a batch of three files of which one cannot be read. *)
Lemma parsers_tolerate_partial_failure_witness :
  file_fails sample_files patient_entry "missing.json" = true /\
  file_records sample_files patient_entry "missing.json" = [] /\
  (exists log,
     parse_patients sample_files ["jane.json"; "missing.json"; "bp.json"] [] =
       (Ok [jane_doe_row; p1_row], log) /\
     List.length (filter is_error log) = 1%nat).
Proof.
  destruct (parsers_tolerate_partial_failure no_repr sample_files) as (Hp & _ & _ & _ & _ & Hun).
  destruct (Hun patient_entry "missing.json" OSError eq_refl) as [Hf Hr].
  split; [exact Hf|]. split; [exact Hr|].
  destruct (Hp ["jane.json"; "missing.json"; "bp.json"] []) as (log & Hrun & Hlen).
  exists log. split; [exact Hrun | exact Hlen].
Defined.

(** C9, on the Jane Doe document. *)
Lemma patient_parser_spec_witness :
  parse_patients sample_files ["jane.json"] [] = (Ok [jane_doe_row], []).
Proof.
  destruct (patient_parser_spec sample_files) as (_ & _ & _ & _ & Hjane).
  apply Hjane. reflexivity.
Defined.



(** C4, on the blood-pressure document loaded into a new schema: when the
    child loads start the patient row is in the file and no transaction is
    open, and it is still there when [load_data] ends. *)
Lemma parent_committed_before_children_witness :
  tx (snd (parent_load (parsed_frames no_repr sample_files ["bp.json"])
                       fresh_schema)) = None /\
  rows_of (file (snd (parent_load (parsed_frames no_repr sample_files ["bp.json"])
                                  fresh_schema))) patients = [p1_row] /\
  load_data (parsed_frames no_repr sample_files ["bp.json"]) fresh_schema =
    child_loads (parsed_frames no_repr sample_files ["bp.json"])
      (snd (parent_load (parsed_frames no_repr sample_files ["bp.json"])
                        fresh_schema)) /\
  rows_of (file (snd (load_data (parsed_frames no_repr sample_files ["bp.json"])
                                fresh_schema))) patients = [p1_row].
Proof.
  destruct (proj2 parent_committed_before_children
              (parsed_frames no_repr sample_files ["bp.json"]) fresh_schema
              (proj1 parent_committed_before_children))
    as ((Htx & _) & Hok & _).
  destruct (Hok eq_refl) as (Hrows & _ & Hsplit & Hend & _).
  split; [exact Htx|]. split; [exact Hrows|]. split; [exact Hsplit|].
  rewrite Hend. exact Hrows.
Defined.

(** C10, on the bundle whose condition has no subject. *)
Lemma load_fails_closed_on_null_reference_witness :
  exists e conn',
    load_data (parsed_frames no_repr sample_files ["orphan.json"]) fresh_schema =
      (Raise e, conn') /\
    tx conn' = None /\
    table_of (file conn') conditions = table_of (file fresh_schema) conditions.
Proof.
  apply (proj2 load_fails_closed_on_null_reference
           (parsed_frames no_repr sample_files ["orphan.json"]) fresh_schema conditions
           [("id", JStr "c1"); ("patient_id", JNull); ("code", JNull);
            ("display", JNull); ("clinical_status", JNull); ("onset_date", JNull)]).
  - reflexivity.
  - reflexivity.
  - left. reflexivity.
  - reflexivity.
Defined.

(** C1 as stated fails.  A run over no document fails in the verification
    (empty join) and leaves the database file in place, with its schema and
    indexes; a run that fails in the load leaves the patient row it had
    committed; and [verify_load] on a store that disagrees with the frames
    raises the mismatch error and leaves the stored rows where they are. *)
Lemma failed_run_keeps_store_counterexample :
  main no_repr sample_files [] no_world =
    (Raise (PyException "Foreign key relationship test failed!"),
     {| db_file := Some (built_database (parsed_frames no_repr sample_files []));
        console := [] |}) /\
  main no_repr sample_files ["orphan.json"] no_world =
    (Raise (IntegrityError "NOT NULL constraint failed"),
     {| db_file :=
          Some {| t_patients := Some {| declared := true; rows := [p1_row] |};
                  t_conditions := Some {| declared := true; rows := [] |};
                  t_observations := Some {| declared := true; rows := [] |};
                  t_encounters := Some {| declared := true; rows := [] |};
                  t_medication_requests := Some {| declared := true; rows := [] |};
                  indexes := [] |};
        console := [] |}) /\
  (let stored :=
     {| file := built_database (parsed_frames no_repr sample_files ["bp.json"]);
        tx := None; foreign_keys := true; history := [] |} in
   verify_load (parsed_frames no_repr sample_files ["jane.json"; "bp.json"]) stored =
     (Raise (PyException "Row count mismatch detected!"), stored) /\
   rows_of (file stored) patients = [p1_row]).
Proof.
  split; [|split; [|split]]; vm_compute; reflexivity.
Qed.

(** C1 as amended, on the run over no document: the load goes through, the
    verification fails on the empty join, and the built database stays. *)
Lemma verification_failure_keeps_store_witness :
  exists out,
    main no_repr sample_files [] no_world =
      (verdict (parsed_frames no_repr sample_files [])
               (built_database (parsed_frames no_repr sample_files [])),
       {| db_file := Some (built_database (parsed_frames no_repr sample_files []));
          console := out |}).
Proof.
  destruct (verification_failure_keeps_store no_repr sample_files []) as (_ & _ & Hmain & _).
  apply Hmain. reflexivity.
Defined.

(** X2, on a list of two codings: index -1 is the last one, index -3 is out
    of range. *)
Lemma safe_get_coding_negative_index_witness :
  safe_get_coding (JObj two_codings) (-3) = Raise IndexError /\
  safe_get_coding (JObj two_codings) (-1) = Ok (JStr "b", JStr "B").
Proof.
  assert (Hl : [JObj [("code", JStr "a")];
                JObj [("code", JStr "b"); ("display", JStr "B")]] <> []) by easy.
  split.
  - apply (proj1 (safe_get_coding_negative_index two_codings _ (-3) eq_refl Hl eq_refl)).
    reflexivity.
  - apply (proj2 (safe_get_coding_negative_index two_codings _ (-1) eq_refl Hl eq_refl)
             [("code", JStr "b"); ("display", JStr "B")]).
    + discriminate.
    + reflexivity.
Defined.

(** X3, on a patient whose race extension comes second and whose "text"
    extension comes second within it. *)
Lemma categorical_extension_found_witness :
  extract_race (JObj patient_with_race) = Ok (JStr "White").
Proof.
  apply (proj1 (categorical_extension_found patient_with_race
                  [JObj [("url", JStr "http://example.org/other")]] []
                  [JObj [("url", JStr "ombCategory")]] []
                  race_extension
                  [("url", JStr "text"); ("valueString", JStr "White")]
                  "http://hl7.org/fhir/us/core/StructureDefinition/us-core-race"
                  eq_refl eq_refl eq_refl eq_refl eq_refl));
    reflexivity.
Defined.

(** X5, on the blood-pressure panel. *)
Lemma fan_out_identifiers_distinct_witness :
  exists rs,
    observation_resource no_repr (JObj blood_pressure) {| records := []; stdout := [] |} =
      (Ok Continue, appended {| records := []; stdout := [] |} rs) /\
    NoDup (map (fun r => cell r "id") rs).
Proof.
  exact (fan_out_identifiers_distinct no_repr blood_pressure [systolic; diastolic]
           JNull JNull JNull (JStr "p1") {| records := []; stdout := [] |}
           eq_refl eq_refl eq_refl eq_refl eq_refl eq_refl).
Defined.

(** X8, on a document whose patient has a number for a name. *)
Lemma patient_failure_leaves_no_record_witness :
  file_fails broken_files patient_entry "p.json" = true /\
  file_records broken_files patient_entry "p.json" = [].
Proof.
  split; [reflexivity|].
  apply (patient_failure_leaves_no_record broken_files "p.json"). reflexivity.
Defined.




(** X13, on the bundle whose condition has no subject: the load fails and
    the file it leaves satisfies the constraints. *)
Lemma load_data_keeps_store_sound_witness :
  raises (fst (load_data (parsed_frames no_repr sample_files ["orphan.json"])
                         fresh_schema)) = true /\
  tx (snd (load_data (parsed_frames no_repr sample_files ["orphan.json"])
                     fresh_schema)) = None /\
  sound (file (snd (load_data (parsed_frames no_repr sample_files ["orphan.json"])
                              fresh_schema))).
Proof.
  split; [reflexivity|].
  exact (proj2 load_data_keeps_store_sound
           (parsed_frames no_repr sample_files ["orphan.json"]) fresh_schema
           eq_refl eq_refl fresh_schema_sound).
Defined.

(** X16, on the bundle whose condition has no subject: the patient row is
    in the file, the conditions table is empty. *)
Lemma failed_load_keeps_earlier_tables_witness :
  tx (snd (load_data (parsed_frames no_repr sample_files ["orphan.json"])
                     fresh_schema)) = None /\
  exists done t rest,
    tables = done ++ t :: rest /\
    raises (fst (to_sql
                   (frame (parsed_frames no_repr sample_files ["orphan.json"]) t) t
                   {| file := file (snd (load_data
                                           (parsed_frames no_repr sample_files
                                                          ["orphan.json"])
                                           fresh_schema));
                      tx := None; foreign_keys := foreign_keys fresh_schema;
                      history := [] |})) = true /\
    (forall t', In t' done ->
       map key_cells
         (rows_of (file (snd (load_data
                                (parsed_frames no_repr sample_files ["orphan.json"])
                                fresh_schema))) t') =
       map key_cells
         (rows_of (file fresh_schema) t' ++
          frame (parsed_frames no_repr sample_files ["orphan.json"]) t')) /\
    (forall t', ~ In t' done ->
       table_of (file (snd (load_data (parsed_frames no_repr sample_files
                                                     ["orphan.json"])
                                      fresh_schema))) t' =
       table_of (file fresh_schema) t').
Proof.
  apply (failed_load_keeps_earlier_tables
           (parsed_frames no_repr sample_files ["orphan.json"]) fresh_schema
           (IntegrityError "NOT NULL constraint failed")
           (snd (load_data (parsed_frames no_repr sample_files ["orphan.json"])
                           fresh_schema))).
  - reflexivity.
  - reflexivity.
  - reflexivity.
  - vm_compute. reflexivity.
Defined.

(** X17, on a second load of the blood-pressure document into the file the
    first one built. *)
Lemma load_refuses_known_patient_witness :
  exists e conn',
    load_data (parsed_frames no_repr sample_files ["bp.json"])
              (connect (Some (built_database
                                (parsed_frames no_repr sample_files ["bp.json"])))) =
      (Raise e, conn') /\
    tx conn' = None /\
    file conn' =
      file (connect (Some (built_database
                             (parsed_frames no_repr sample_files ["bp.json"])))).
Proof.
  apply (load_refuses_known_patient
           (parsed_frames no_repr sample_files ["bp.json"])
           (connect (Some (built_database
                             (parsed_frames no_repr sample_files ["bp.json"]))))
           {| declared := true; rows := [p1_row] |} p1_row "p1").
  - reflexivity.
  - reflexivity.
  - reflexivity.
  - left. reflexivity.
  - reflexivity.
  - reflexivity.
Defined.

(** X19, on a panel whose second component is not a mapping: the record of
    the first component stays. *)
Lemma component_failure_keeps_earlier_witness :
  exists rs,
    observation_resource no_repr (JObj broken_panel) {| records := []; stdout := [] |} =
      (Raise AttributeError, appended {| records := []; stdout := [] |} rs) /\
    List.length rs = 1%nat.
Proof.
  exact (component_failure_keeps_earlier no_repr broken_panel [systolic] [diastolic]
           (JStr "oops") AttributeError JNull JNull JNull (JStr "p1")
           {| records := []; stdout := [] |}
           eq_refl eq_refl eq_refl eq_refl eq_refl eq_refl eq_refl).
Defined.
